(** * Recipe Finder: a shallow embedding of [recipe_finder] and its properties

    The Python modules [utils.py] and [api_client.py], and of [main.py] the
    table of recipes, the two searches, the favourites, the instructions and
    the sharing of a recipe are embedded as Rocq functions.  Values that
    travel through the program (API results, recipe records, the favourites
    list) are Python objects built from [None], booleans, integers, floats,
    strings, lists and string-keyed dictionaries; they are modelled by the
    type [json].  Functions that can raise return a [result]. *)

From Stdlib Require Import Floats.
From Stdlib Require Uint63.
From Stdlib Require Import ZArith NArith QArith Qabs List String Ascii Lia.
From Stdlib Require Import Decimal DecimalFacts DecimalZ DecimalPos.
From stdpp Require Import gmap list sorting.

Set Warnings "-register-all".

Local Open Scope Z_scope.

(** ** Python strings

    A Python [str] is a sequence of Unicode code points. *)

Abbreviation text := (list N).

Definition txt (s : string) : text := map N_of_ascii (list_ascii_of_string s).

(** [sep.join(parts)] *)
Fixpoint join (sep : text) (parts : list text) : text :=
  match parts with
  | [] => []
  | [p] => p
  | p :: ps => p ++ sep ++ join sep ps
  end.

(** ** Exceptions and results *)

Inductive exn :=
  | KeyError
  | TypeError
  | AttributeError
  | ValueError
  | JSONDecodeError
  | UnicodeDecodeError
  | RecursionError
  | ConnectionError
  | Timeout
  | HTTPError
  | InvalidJSONError
  | OtherRequestException
  | OtherError.

(** ** Files

    A file opened as text is read through the encoding of the locale: its
    content is the text that [read()] returns, or, when the bytes of the file
    are not valid in that encoding, no text at all, and [read()] raises a
    [UnicodeDecodeError].  What the program writes, it reads back. *)
Inductive file_content :=
  | Text (s : text)
  | Undecodable.

Inductive result (A : Type) :=
  | Ok (a : A)
  | Raise (e : exn).
Arguments Ok {A} a.
Arguments Raise {A} e.

#[global] Instance result_ret : MRet result := fun A a => Ok a.
#[global] Instance result_bind : MBind result := fun A B f m =>
  match m with
  | Ok a => f a
  | Raise e => Raise e
  end.

(** Decimal digits of an integer, as [str(int)] prints them. *)
Fixpoint uint_text (u : uint) : text :=
  match u with
  | Nil => []
  | D0 u => 48%N :: uint_text u
  | D1 u => 49%N :: uint_text u
  | D2 u => 50%N :: uint_text u
  | D3 u => 51%N :: uint_text u
  | D4 u => 52%N :: uint_text u
  | D5 u => 53%N :: uint_text u
  | D6 u => 54%N :: uint_text u
  | D7 u => 55%N :: uint_text u
  | D8 u => 56%N :: uint_text u
  | D9 u => 57%N :: uint_text u
  end.

Definition int_text (z : Z) : text :=
  match Z.to_int z with
  | Pos u => uint_text u
  | Neg u => 45%N :: uint_text u
  end.

(** Lexicographic order on strings by code point, Python's [<=] on [str]. *)
Fixpoint text_leb (a b : text) : bool :=
  match a, b with
  | [], _ => true
  | _ :: _, [] => false
  | x :: a', y :: b' =>
      if (x <? y)%N then true
      else if (y <? x)%N then false
      else text_leb a' b'
  end.

Definition text_le (a b : text) : Prop := text_leb a b = true.

#[global] Instance text_le_dec : RelDecision text_le.
Proof. intros a b. unfold text_le. apply _. Defined.

(** The literals of the JSON syntax. *)
Definition lit_NaN : text := Eval cbv in txt "NaN".
Definition lit_Infinity : text := Eval cbv in txt "Infinity".
Definition lit_NegInfinity : text := Eval cbv in txt "-Infinity".
Definition lit_null : text := Eval cbv in txt "null".
Definition lit_true : text := Eval cbv in txt "true".
Definition lit_false : text := Eval cbv in txt "false".
Definition lit_empty_list : text := Eval cbv in txt "[]".
Definition lit_empty_dict : text := Eval cbv in txt "{}".

(** ** Floating point

    A Python float is a finite binary float, a NaN or an infinity.  The type
    of finite floats is a parameter of the development. *)

Inductive pyfloat (F : Type) :=
  | Finite (x : F)
  | NaN
  | Inf
  | NegInf.
Arguments Finite {F} x.
Arguments NaN {F}.
Arguments Inf {F}.
Arguments NegInf {F}.

(** The value of a Python number, for comparisons. *)
Inductive number :=
  | Rational (q : Q)
  | NotANumber
  | PlusInfinity
  | MinusInfinity.

Definition number_ltb (a b : number) : bool :=
  match a, b with
  | Rational p, Rational q => if Qlt_le_dec p q then true else false
  | Rational _, PlusInfinity => true
  | MinusInfinity, Rational _ => true
  | MinusInfinity, PlusInfinity => true
  | _, _ => false
  end.

Definition number_eqb (a b : number) : bool :=
  match a, b with
  | Rational p, Rational q => Qeq_bool p q
  | PlusInfinity, PlusInfinity => true
  | MinusInfinity, MinusInfinity => true
  | _, _ => false
  end.

(** A number exceeds, or is below, an integer. *)
Definition exceeds (n : number) (z : Z) : Prop :=
  number_ltb (Rational (inject_Z z)) n = true.

Definition below (n : number) (z : Z) : Prop :=
  number_ltb n (Rational (inject_Z z)) = true.

#[global] Instance exceeds_dec (n : number) (z : Z) : Decision (exceeds n z).
Proof. unfold exceeds. apply _. Defined.

#[global] Instance below_dec (n : number) (z : Z) : Decision (below n z).
Proof. unfold below. apply _. Defined.

(** ** Clock readings

    The readings of the clock are binary64 floats, with the arithmetic of the
    machine.  [float_of_int z] is the float of a small integer [z] (exact
    below 2^53), and [seconds x] the exact value of a finite float. *)

Definition float_of_int (z : Z) : float := PrimFloat.of_uint63 (Uint63.of_Z z).

Definition seconds (x : float) : option Q :=
  match Prim2SF x with
  | S754_zero _ => Some 0%Q
  | S754_finite s m e =>
      let z := if s then Z.neg m else Z.pos m in
      Some (if 0 <=? e then inject_Z (z * 2 ^ e) else z # Z.to_pos (2 ^ (- e)))
  | S754_infinity _ | S754_nan => None
  end.

(** ** Python values

    [None], booleans, integers, floats, strings, lists and dictionaries with
    string keys, in insertion order. *)

Inductive json (F : Type) :=
  | JNull
  | JBool (b : bool)
  | JInt (z : Z)
  | JFloat (f : pyfloat F)
  | JStr (s : text)
  | JArr (l : list (json F))
  | JObj (d : list (text * json F)).
Arguments JNull {F}.
Arguments JBool {F} b.
Arguments JInt {F} z.
Arguments JFloat {F} f.
Arguments JStr {F} s.
Arguments JArr {F} l.
Arguments JObj {F} d.

(** A two-point float format, for examples: the floats 0.5 and 0.25. *)
Inductive sample_float := Half | Quarter.

Definition sample_value (x : sample_float) : Q :=
  match x with
  | Half => 1 # 2
  | Quarter => 1 # 4
  end.

Definition sample_repr (x : sample_float) : text :=
  match x with
  | Half => [48; 46; 53]%N
  | Quarter => [48; 46; 50; 53]%N
  end.

Definition sample_of_literal (t : text) : pyfloat sample_float :=
  if decide (t = sample_repr Half) then Finite Half
  else if decide (t = sample_repr Quarter) then Finite Quarter
  else NaN.

(** Records and a file name for the examples. *)
Definition sample_container_repr (v : json sample_float) : text := [].

Definition sample_favorites_file : text := Eval cbv in txt "favorites.json".

(** The nesting that the decoder can enter, in the examples. *)
Definition sample_depth : nat := 100.

Definition sample_ingredients : list (json sample_float) :=
  [JObj [(txt "name", JStr (txt "flour")); (txt "amount", JFloat (Finite Half))];
   JObj [(txt "name", JStr (txt "salt")); (txt "amount", JFloat (Finite Quarter))]].

Definition sample_fields (id : Z) (minutes : Z) : list (text * json sample_float) :=
  [(txt "id", JInt id);
   (txt "title", JStr (txt "Pasta" ++ [233%N; 128512%N; 10%N]));
   (txt "readyInMinutes", JInt minutes);
   (txt "extendedIngredients", JArr sample_ingredients);
   (txt "vegan", JBool true);
   (txt "nutrition", JNull)].

Definition sample_recipe (id : Z) (minutes : Z) : json sample_float :=
  JObj (sample_fields id minutes).

(** ** The program

    [F] is the set of finite floats.  What the program needs of them is their
    exact value (Python compares a float with an integer exactly), their
    [repr] and the conversion [float(literal)] used by the JSON decoder. *)

Section RecipeFinder.

Set Default Proof Using "Type".

Variable F : Type.
Variable float_value : F -> Q.
Variable float_repr : F -> text.
Variable float_of_literal : text -> pyfloat F.

Local Abbreviation json := (json F).

(** [repr] of a list or a dictionary, as an f-string would interpolate it. *)
Variable container_repr : json -> text.

(** First binding of a key in a dictionary. *)
Fixpoint dict_lookup (k : text) (d : list (text * json)) : option json :=
  match d with
  | [] => None
  | (k', v) :: d' => if decide (k' = k) then Some v else dict_lookup k d'
  end.

(** [d[k] = v] on a dictionary: an existing key keeps its position. *)
Fixpoint dict_set (k : text) (v : json) (d : list (text * json)) : list (text * json) :=
  match d with
  | [] => [(k, v)]
  | (k', v') :: d' => if decide (k' = k) then (k, v) :: d' else (k', v') :: dict_set k v d'
  end.

(** [o.get(k, default)] *)
Definition dict_get (o : json) (k : text) (default : json) : result json :=
  match o with
  | JObj d => Ok (from_option id default (dict_lookup k d))
  | _ => Raise AttributeError
  end.

(** [o[k]] with a string subscript *)
Definition subscript (o : json) (k : text) : result json :=
  match o with
  | JObj d => match dict_lookup k d with Some v => Ok v | None => Raise KeyError end
  | _ => Raise TypeError
  end.

(** [len(o)] *)
Definition py_len (o : json) : result Z :=
  match o with
  | JStr s => Ok (Z.of_nat (length s))
  | JArr l => Ok (Z.of_nat (length l))
  | JObj d => Ok (Z.of_nat (length d))
  | _ => Raise TypeError
  end.

(** The elements [for x in o] goes through. *)
Definition py_iter (o : json) : result (list json) :=
  match o with
  | JArr l => Ok l
  | JObj d => Ok (map (fun kv => JStr (fst kv)) d)
  | JStr s => Ok (map (fun c => JStr [c]) s)
  | _ => Raise TypeError
  end.

Definition as_number (v : json) : option number :=
  match v with
  | JBool b => Some (Rational (inject_Z (Z.b2z b)))
  | JInt z => Some (Rational (inject_Z z))
  | JFloat (Finite x) => Some (Rational (float_value x))
  | JFloat NaN => Some NotANumber
  | JFloat Inf => Some PlusInfinity
  | JFloat NegInf => Some MinusInfinity
  | _ => None
  end.

(** [v > z] and [v < z] for an integer constant [z] *)
Definition py_gt (v : json) (z : Z) : result bool :=
  match as_number v with
  | Some n => Ok (number_ltb (Rational (inject_Z z)) n)
  | None => Raise TypeError
  end.

Definition py_lt (v : json) (z : Z) : result bool :=
  match as_number v with
  | Some n => Ok (number_ltb n (Rational (inject_Z z)))
  | None => Raise TypeError
  end.

(** [a == b] *)
Fixpoint py_eq (a b : json) : bool :=
  match a, b with
  | JNull, JNull => true
  | JStr s, JStr t => bool_decide (s = t)
  | JArr l, JArr m =>
      (fix all2 (l m : list json) : bool :=
         match l, m with
         | [], [] => true
         | x :: l', y :: m' => py_eq x y && all2 l' m'
         | _, _ => false
         end) l m
  | JObj d, JObj e =>
      (length d =? length e)%nat &&
      (fix all (d : list (text * json)) : bool :=
         match d with
         | [] => true
         | (k, v) :: d' =>
             match dict_lookup k e with
             | Some w => py_eq v w
             | None => false
             end && all d'
         end) d
  | _, _ =>
      match as_number a, as_number b with
      | Some x, Some y => number_eqb x y
      | _, _ => false
      end
  end.

(** [str(v)], as an f-string interpolates a value *)
Definition py_str (v : json) : text :=
  match v with
  | JNull => txt "None"
  | JBool true => txt "True"
  | JBool false => txt "False"
  | JInt z => int_text z
  | JFloat (Finite x) => float_repr x
  | JFloat NaN => txt "nan"
  | JFloat Inf => txt "inf"
  | JFloat NegInf => txt "-inf"
  | JStr s => s
  | JArr _ | JObj _ => container_repr v
  end.

(** ** The [json] library: [json.dump(obj, f, indent=4)]

    The encoder escapes every character outside [' '..'~'], the quote and the
    backslash (ensure_ascii); items are separated by [","] and a new line
    indented by four spaces per nesting level, keys from values by [": "]. *)

Definition hex_digit (n : N) : N := (if n <? 10 then 48 + n else 87 + n)%N.

Definition hex4 (n : N) : text :=
  [hex_digit ((n / 4096) mod 16); hex_digit ((n / 256) mod 16);
   hex_digit ((n / 16) mod 16); hex_digit (n mod 16)]%N.

(** ["\\u{0:04x}".format(n)] *)
Definition u_escape (n : N) : text := 92%N :: 117%N :: hex4 n.

Definition is_printable (c : N) : bool := ((32 <=? c) && (c <=? 126))%N.

Definition escape_char (c : N) : text :=
  (if c =? 34 then [92; 34]
   else if c =? 92 then [92; 92]
   else if c =? 10 then [92; 110]
   else if c =? 13 then [92; 114]
   else if c =? 9 then [92; 116]
   else if c =? 8 then [92; 98]
   else if c =? 12 then [92; 102]
   else if is_printable c then [c]
   else if c <? 65536 then u_escape c
   else
     let n := c - 65536 in
     u_escape (N.lor 55296 (N.land (N.shiftr n 10) 1023)) ++
     u_escape (N.lor 56320 (N.land n 1023)))%N.

Definition encode_string (s : text) : text :=
  34%N :: flat_map escape_char s ++ [34%N].

Definition floatstr (f : pyfloat F) : text :=
  match f with
  | Finite x => float_repr x
  | NaN => lit_NaN
  | Inf => lit_Infinity
  | NegInf => lit_NegInfinity
  end.

Definition newline_indent (level : nat) : text := 10%N :: repeat 32%N (4 * level).

Fixpoint encode (level : nat) (v : json) : text :=
  match v with
  | JNull => lit_null
  | JBool true => lit_true
  | JBool false => lit_false
  | JInt z => int_text z
  | JFloat f => floatstr f
  | JStr s => encode_string s
  | JArr [] => lit_empty_list
  | JArr (x :: l) =>
      91%N :: newline_indent (S level) ++ encode (S level) x ++
      (fix items (l : list json) : text :=
         match l with
         | [] => []
         | y :: l' =>
             44%N :: newline_indent (S level) ++ encode (S level) y ++ items l'
         end) l ++
      newline_indent level ++ [93%N]
  | JObj [] => lit_empty_dict
  | JObj ((k, x) :: d) =>
      123%N :: newline_indent (S level) ++
      encode_string k ++ [58%N; 32%N] ++ encode (S level) x ++
      (fix members (d : list (text * json)) : text :=
         match d with
         | [] => []
         | (k', y) :: d' =>
             44%N :: newline_indent (S level) ++
             encode_string k' ++ [58%N; 32%N] ++ encode (S level) y ++ members d'
         end) d ++
      newline_indent level ++ [125%N]
  end.

Definition json_dumps (v : json) : text := encode 0 v.

(** ** The [json] library: [json.load(f)]

    The scanner follows the C implementation that [json] uses by default. *)

Definition is_ws (c : N) : bool := ((c =? 32) || (c =? 9) || (c =? 10) || (c =? 13))%N.

Fixpoint skip_ws (s : text) : text :=
  match s with
  | c :: s' => if is_ws c then skip_ws s' else s
  | [] => []
  end.

Definition is_digit (c : N) : bool := ((48 <=? c) && (c <=? 57))%N.

Definition hex_value (c : N) : option N :=
  (if (48 <=? c) && (c <=? 57) then Some (c - 48)
   else if (97 <=? c) && (c <=? 102) then Some (c - 87)
   else if (65 <=? c) && (c <=? 70) then Some (c - 55)
   else None)%N.

Definition hex4_value (a b c d : N) : option N :=
  va ← hex_value a; vb ← hex_value b; vc ← hex_value c; vd ← hex_value d;
  Some (((va * 16 + vb) * 16 + vc) * 16 + vd)%N.

Definition is_high_surrogate (c : N) : bool := ((55296 <=? c) && (c <=? 56319))%N.
Definition is_low_surrogate (c : N) : bool := ((56320 <=? c) && (c <=? 57343))%N.

Definition join_surrogates (hi lo : N) : N :=
  (65536 + N.lor (N.shiftl (hi - 55296) 10) (lo - 56320))%N.

(** The character a one-letter escape stands for. *)
Definition simple_escape (e : N) : option N :=
  (if e =? 34 then Some 34
   else if e =? 92 then Some 92
   else if e =? 47 then Some 47
   else if e =? 98 then Some 8
   else if e =? 102 then Some 12
   else if e =? 110 then Some 10
   else if e =? 114 then Some 13
   else if e =? 116 then Some 9
   else None)%N.

(** Scans the body of a string, after its opening quote, up to the closing
    quote (strict mode: raw control characters are refused). *)
Fixpoint scanstring (s : text) : option (text * text) :=
  match s with
  | [] => None
  | c :: s1 =>
      if (c =? 34)%N then Some ([], s1)
      else if (c =? 92)%N then
        match s1 with
        | [] => None
        | e :: s2 =>
            if (e =? 117)%N then
              match s2 with
              | h1 :: h2 :: h3 :: h4 :: s3 =>
                  match hex4_value h1 h2 h3 h4 with
                  | None => None
                  | Some uni =>
                      let single :=
                        match scanstring s3 with
                        | Some (str, r) => Some (uni :: str, r)
                        | None => None
                        end in
                      if is_high_surrogate uni then
                        match s3 with
                        | b :: u :: g1 :: g2 :: g3 :: g4 :: s4 =>
                            if ((b =? 92) && (u =? 117))%N then
                              match hex4_value g1 g2 g3 g4 with
                              | None => None
                              | Some uni2 =>
                                  if is_low_surrogate uni2 then
                                    match scanstring s4 with
                                    | Some (str, r) =>
                                        Some (join_surrogates uni uni2 :: str, r)
                                    | None => None
                                    end
                                  else single
                              end
                            else single
                        | _ => single
                        end
                      else single
                  end
              | _ => None
              end
            else
              match simple_escape e with
              | None => None
              | Some ch =>
                  match scanstring s2 with
                  | Some (str, r) => Some (ch :: str, r)
                  | None => None
                  end
              end
        end
      else if (c <=? 31)%N then None
      else
        match scanstring s1 with
        | Some (str, r) => Some (c :: str, r)
        | None => None
        end
  end.

(** Number tokens: an optional minus sign, an integer part without leading
    zero, an optional fraction (a dot and digits) and an optional exponent
    (e or E, an optional sign, digits). *)
Fixpoint span_digits (s : text) : text * text :=
  match s with
  | c :: s' =>
      if is_digit c then let '(ds, r) := span_digits s' in (c :: ds, r)
      else ([], s)
  | [] => ([], [])
  end.

Definition scan_int_part (s : text) : option (text * text) :=
  match s with
  | c :: s' =>
      if (c =? 48)%N then Some ([c], s')
      else if is_digit c then let '(ds, r) := span_digits s' in Some (c :: ds, r)
      else None
  | [] => None
  end.

Definition scan_frac (s : text) : text * text :=
  match s with
  | p :: d :: s' =>
      if ((p =? 46)%N && is_digit d) then
        let '(ds, r) := span_digits s' in (p :: d :: ds, r)
      else ([], s)
  | _ => ([], s)
  end.

Definition scan_exp (s : text) : text * text :=
  match s with
  | e :: s1 =>
      if ((e =? 101) || (e =? 69))%N then
        match s1 with
        | g :: d :: s2 =>
            if (((g =? 45) || (g =? 43))%N && is_digit d) then
              let '(ds, r) := span_digits s2 in (e :: g :: d :: ds, r)
            else if is_digit g then
              let '(ds, r) := span_digits (d :: s2) in (e :: g :: ds, r)
            else ([], s)
        | [d] =>
            if is_digit d then ([e; d], []) else ([], s)
        | [] => ([], s)
        end
      else ([], s)
  | [] => ([], s)
  end.

(** The literal matched at the head of [s], whether it denotes a float, and
    the rest of the input. *)
Definition number_token (s : text) : option (text * bool * text) :=
  let '(sign, s0) :=
    match s with
    | c :: s' => if (c =? 45)%N then ([c], s') else ([], s)
    | [] => ([], s)
    end in
  match scan_int_part s0 with
  | None => None
  | Some (ip, s1) =>
      let '(fp, s2) := scan_frac s1 in
      let '(ep, s3) := scan_exp s2 in
      Some (sign ++ ip ++ fp ++ ep,
            negb (bool_decide (fp = [])) || negb (bool_decide (ep = [])), s3)
  end.

Fixpoint uint_of_text (ds : text) : uint :=
  match ds with
  | [] => Nil
  | c :: ds' =>
      let u := uint_of_text ds' in
      (if c =? 48 then D0 u
       else if c =? 49 then D1 u
       else if c =? 50 then D2 u
       else if c =? 51 then D3 u
       else if c =? 52 then D4 u
       else if c =? 53 then D5 u
       else if c =? 54 then D6 u
       else if c =? 55 then D7 u
       else if c =? 56 then D8 u
       else D9 u)%N
  end.

(** [int(literal)] *)
Definition int_of_literal (lit : text) : Z :=
  match lit with
  | c :: ds => if (c =? 45)%N then Z.of_int (Neg (uint_of_text ds))
               else Z.of_int (Pos (uint_of_text lit))
  | [] => 0
  end.

(** CPython converts between [int] and decimal text only up to
    [sys.int_info.default_max_str_digits] digits, 4300, the sign not counted:
    beyond it [int(literal)] raises a [ValueError]. *)
Definition max_str_digits : Z := 4300.

Definition literal_digits (lit : text) : Z :=
  match lit with
  | c :: ds => if (c =? 45)%N then Z.of_nat (length ds) else Z.of_nat (length lit)
  | [] => 0
  end.

Definition scan_number (s : text) : result (json * text) :=
  match number_token s with
  | Some (lit, is_float, r) =>
      if is_float then Ok (JFloat (float_of_literal lit), r)
      else if max_str_digits <? literal_digits lit then Raise ValueError
      else Ok (JInt (int_of_literal lit), r)
  | None => Raise JSONDecodeError
  end.

(** [starts_with p s]: the rest of [s] after the prefix [p]. *)
Fixpoint starts_with (p s : text) : option text :=
  match p, s with
  | [], _ => Some s
  | a :: p', b :: s' => if (a =? b)%N then starts_with p' s' else None
  | _ :: _, [] => None
  end.

Definition scan_constant (s : text) : result (json * text) :=
  match starts_with (lit_null) s with
  | Some r => Ok (JNull, r)
  | None =>
  match starts_with (lit_true) s with
  | Some r => Ok (JBool true, r)
  | None =>
  match starts_with (lit_false) s with
  | Some r => Ok (JBool false, r)
  | None =>
  match starts_with (lit_NaN) s with
  | Some r => Ok (JFloat NaN, r)
  | None =>
  match starts_with (lit_Infinity) s with
  | Some r => Ok (JFloat Inf, r)
  | None =>
  match starts_with (lit_NegInfinity) s with
  | Some r => Ok (JFloat NegInf, r)
  | None => scan_number s
  end end end end end end.

(** [scan_once]: one JSON value at the head of [s].  A text that is not JSON
    raises a [JSONDecodeError].  The scanner calls itself for the values of a
    list or a dictionary: [depth] is the number of lists and dictionaries,
    one inside the other, that it can enter before the interpreter's limit on
    recursion is reached, where it raises a [RecursionError].  [fuel] bounds
    the number of calls; [json_loads] gives more than the scan of its input
    can use. *)
Fixpoint scan_once (depth fuel : nat) (s : text) {struct fuel} : result (json * text) :=
  match fuel with
  | O => Raise JSONDecodeError
  | S fuel' =>
      match s with
      | [] => Raise JSONDecodeError
      | c :: s1 =>
          if (c =? 34)%N then
            match scanstring s1 with
            | Some (str, r) => Ok (JStr str, r)
            | None => Raise JSONDecodeError
            end
          else if (c =? 123)%N then
            match depth with
            | O => Raise RecursionError
            | S depth' =>
                match skip_ws s1 with
                | c' :: r' =>
                    if (c' =? 125)%N then Ok (JObj [], r')
                    else scan_members depth' fuel' (c' :: r') []
                | [] => Raise JSONDecodeError
                end
            end
          else if (c =? 91)%N then
            match depth with
            | O => Raise RecursionError
            | S depth' =>
                match skip_ws s1 with
                | c' :: r' =>
                    if (c' =? 93)%N then Ok (JArr [], r')
                    else scan_elements depth' fuel' (c' :: r') []
                | [] => Raise JSONDecodeError
                end
            end
          else scan_constant s
      end
  end
with scan_members (depth fuel : nat) (s : text) (pairs : list (text * json))
    {struct fuel} : result (json * text) :=
  match fuel with
  | O => Raise JSONDecodeError
  | S fuel' =>
      match s with
      | q :: s1 =>
          if (q =? 34)%N then
            match scanstring s1 with
            | None => Raise JSONDecodeError
            | Some (key, s2) =>
                match skip_ws s2 with
                | c :: s3 =>
                    if (c =? 58)%N then
                      match scan_once depth fuel' (skip_ws s3) with
                      | Raise e => Raise e
                      | Ok (val, s4) =>
                          let pairs' := dict_set key val pairs in
                          match skip_ws s4 with
                          | c' :: s5 =>
                              if (c' =? 125)%N then Ok (JObj pairs', s5)
                              else if (c' =? 44)%N then
                                scan_members depth fuel' (skip_ws s5) pairs'
                              else Raise JSONDecodeError
                          | [] => Raise JSONDecodeError
                          end
                      end
                    else Raise JSONDecodeError
                | [] => Raise JSONDecodeError
                end
            end
          else Raise JSONDecodeError
      | [] => Raise JSONDecodeError
      end
  end
with scan_elements (depth fuel : nat) (s : text) (values : list json) {struct fuel}
  : result (json * text) :=
  match fuel with
  | O => Raise JSONDecodeError
  | S fuel' =>
      match scan_once depth fuel' s with
      | Raise e => Raise e
      | Ok (val, s1) =>
          let values' := values ++ [val] in
          match skip_ws s1 with
          | c :: s2 =>
              if (c =? 93)%N then Ok (JArr values', s2)
              else if (c =? 44)%N then scan_elements depth fuel' (skip_ws s2) values'
              else Raise JSONDecodeError
          | [] => Raise JSONDecodeError
          end
      end
  end.

(** [json.loads(s)], where the scanner can enter [depth] nested lists and
    dictionaries: leading white space, one value, trailing white space. *)
Definition json_loads (depth : nat) (s : text) : result json :=
  match scan_once depth (S (2 * length s)) (skip_ws s) with
  | Ok (v, r) =>
      match skip_ws r with
      | [] => Ok v
      | _ :: _ => Raise JSONDecodeError
      end
  | Raise e => Raise e
  end.

Definition decoder_exception (e : exn) : Prop :=
  e = JSONDecodeError \/ e = ValueError \/ e = RecursionError.

(** What follows a value in the output of the encoder: the end of the text,
    a comma or a new line. *)
Definition value_end (rest : text) : bool :=
  match rest with
  | [] => true
  | c :: _ => ((c =? 44) || (c =? 10))%N
  end.

(** *** Values that [json] writes and reads back

    Strings hold Unicode scalar values (no surrogate code points), the keys
    of a dictionary are pairwise distinct, no float is a NaN (which is equal
    to nothing, itself included), and every integer has at most 4300 digits
    (the decoder raises on a longer one). *)

Definition is_scalar_value (c : N) : bool :=
  ((c <? 55296) || (57343 <? c) && (c <? 1114112))%N.

Definition str_ok (s : text) : bool := forallb is_scalar_value s.

Definition int_convertible (z : Z) : bool :=
  literal_digits (int_text z) <=? max_str_digits.

Fixpoint wf_value (v : json) : bool :=
  match v with
  | JNull | JBool _ => true
  | JInt z => int_convertible z
  | JFloat f => match f with NaN => false | _ => true end
  | JStr s => str_ok s
  | JArr l =>
      (fix all (l : list json) : bool :=
         match l with
         | [] => true
         | x :: l' => wf_value x && all l'
         end) l
  | JObj d =>
      bool_decide (NoDup (map fst d)) &&
      (fix all (d : list (text * json)) : bool :=
         match d with
         | [] => true
         | (k, x) :: d' => str_ok k && wf_value x && all d'
         end) d
  end.

(** The number of lists and dictionaries, one inside the other, in a
    value. *)
Fixpoint json_depth (v : json) : nat :=
  match v with
  | JArr l =>
      S ((fix deepest (l : list json) : nat :=
            match l with
            | [] => O
            | x :: l' => Nat.max (json_depth x) (deepest l')
            end) l)
  | JObj d =>
      S ((fix deepest (d : list (text * json)) : nat :=
            match d with
            | [] => O
            | (_, x) :: d' => Nat.max (json_depth x) (deepest d')
            end) d)
  | _ => O
  end.

Fixpoint list_depth (l : list json) : nat :=
  match l with
  | [] => O
  | x :: l' => Nat.max (json_depth x) (list_depth l')
  end.

Fixpoint members_depth (d : list (text * json)) : nat :=
  match d with
  | [] => O
  | (_, x) :: d' => Nat.max (json_depth x) (members_depth d')
  end.

(** The nesting the decoder can enter where [load_favorites] calls
    [json.load]: what the interpreter's recursion limit leaves there. *)
Variable load_depth : nat.

(** A record of the favourites made of JSON data: a value as above that the
    decoder can enter as an item of the list in the favourites file. *)
Definition wf_json (v : json) : bool :=
  wf_value v && (json_depth v <? load_depth)%nat.

(** The number of values in a value, a bound on the recursion of the
    scanner. *)
Fixpoint json_size (v : json) : nat :=
  match v with
  | JArr l =>
      S ((fix sum (l : list json) : nat :=
            match l with
            | [] => O
            | x :: l' => (S (json_size x) + sum l')%nat
            end) l)
  | JObj d =>
      S ((fix sum (d : list (text * json)) : nat :=
            match d with
            | [] => O
            | (_, x) :: d' => (S (json_size x) + sum d')%nat
            end) d)
  | _ => 1%nat
  end.

(** The items of a list after the first and the members of a dictionary
    after the first, as the encoder writes them at nesting level [level]. *)
Fixpoint encode_items (level : nat) (l : list json) : text :=
  match l with
  | [] => []
  | y :: l' =>
      44%N :: newline_indent level ++ encode level y ++ encode_items level l'
  end.

Fixpoint encode_members (level : nat) (d : list (text * json)) : text :=
  match d with
  | [] => []
  | (k, y) :: d' =>
      44%N :: newline_indent level ++
      encode_string k ++ [58%N; 32%N] ++ encode level y ++ encode_members level d'
  end.

Fixpoint list_size (l : list json) : nat :=
  match l with
  | [] => O
  | x :: l' => (S (json_size x) + list_size l')%nat
  end.

Fixpoint members_size (d : list (text * json)) : nat :=
  match d with
  | [] => O
  | (_, x) :: d' => (S (json_size x) + members_size d')%nat
  end.

(** What the encoding of a value starts with: a character that is not white
    space and closes neither a list nor a dictionary. *)
Definition starts_value (s : text) : Prop :=
  exists c r, s = c :: r /\ is_ws c = false /\ c ≠ 93%N /\ c ≠ 125%N.

(** The scanner reads the encoding of [v] back as [v]. *)
Definition reads_back (v : json) : Prop :=
  forall (level : nat) (rest : text) (fuel depth : nat),
    wf_value v = true ->
    value_end rest = true ->
    (json_size v <= fuel)%nat ->
    (json_depth v <= depth)%nat ->
    scan_once depth fuel (encode level v ++ rest) = Ok (v, rest).

(** ** utils.py *)

(** *** Difficulty and nutrition *)

Definition calculate_difficulty (recipe : json) : result text :=
  cooking_time ← dict_get recipe (txt "readyInMinutes") (JInt 0);
  extended ← dict_get recipe (txt "extendedIngredients") (JArr []);
  ingredient_count ← py_len extended;
  over60 ← py_gt cooking_time 60;
  if over60 || (15 <? ingredient_count) then Ok (txt "Hard")
  else
    over30 ← py_gt cooking_time 30;
    if over30 || (10 <? ingredient_count) then Ok (txt "Medium")
    else Ok (txt "Easy").

(** The dictionary comprehension [{n["name"]: (n["amount"], n["unit"]) for n
    in ...}].  The four lookups that follow use string keys, and a string key
    is equal to no key of another type: the map keeps the string-keyed
    entries, a later entry replacing an earlier one of the same name. *)
Fixpoint collect_nutrients (ns : list json) (acc : gmap text (json * json))
  : result (gmap text (json * json)) :=
  match ns with
  | [] => Ok acc
  | n :: ns' =>
      name ← subscript n (txt "name");
      amount ← subscript n (txt "amount");
      unit_ ← subscript n (txt "unit");
      match name with
      | JStr s => collect_nutrients ns' (<[s := (amount, unit_)]> acc)
      | JArr _ | JObj _ => Raise TypeError
      | _ => collect_nutrients ns' acc
      end
  end.

Record nutrition_info := {
  calories : text;
  health_metrics : list text;
  nutrition_score : Z
}.

Definition high_in_protein : text :=
  Eval cbv in 9989%N :: txt " High in Protein".
Definition good_source_of_vitamin_a : text :=
  Eval cbv in 9989%N :: txt " Good source of Vitamin A".
Definition high_in_sodium : text :=
  Eval cbv in 9888%N :: 65039%N :: txt " High in Sodium".

Definition parse_nutritional_info (nutrition : json) : result nutrition_info :=
  listed ← dict_get nutrition (txt "nutrients") (JArr []);
  ns ← py_iter listed;
  nutrients ← collect_nutrients ns ∅;
  let calories := default (JInt 0, JStr (txt "kcal")) (nutrients !! txt "Calories") in
  let protein := default (JInt 0, JStr (txt "g")) (nutrients !! txt "Protein") in
  let sodium := default (JInt 0, JStr (txt "mg")) (nutrients !! txt "Sodium") in
  let vitamin_a :=
    default (JInt 0, JStr (txt "% of Daily Needs")) (nutrients !! txt "Vitamin A") in
  m1 ← py_gt protein.1 25;
  m2 ← py_gt vitamin_a.1 20;
  m3 ← py_gt sodium.1 1000;
  let health_metrics : list text :=
    (if m1 is true then [high_in_protein] else []) ++
    (if m2 is true then [good_source_of_vitamin_a] else []) ++
    (if m3 is true then [high_in_sodium] else []) in
  let score := 50 in
  b1 ← py_gt protein.1 25;
  let score := if b1 is true then score + 15 else score in
  b2 ← py_gt vitamin_a.1 20;
  let score := if b2 is true then score + 15 else score in
  b3 ← py_lt sodium.1 500;
  let score := if b3 is true then score + 20 else score in
  b4 ← py_lt calories.1 500;
  let score := if b4 is true then score + 10 else score in
  Ok {| calories := py_str calories.1 ++ [32%N] ++ py_str calories.2;
        health_metrics := health_metrics;
        nutrition_score := Z.min score 100 |}.

(** *** Favourites *)

Variable FAVORITES_FILE : text.

(** The file system: the files that exist, by path.  [json.load] reads the
    whole file before it decodes it; [except json.JSONDecodeError] catches
    the errors of syntax and lets the other exceptions through. *)
Definition load_favorites (files : gmap text file_content) : result json :=
  match files !! FAVORITES_FILE with
  | None => Ok (JArr [])
  | Some Undecodable => Raise UnicodeDecodeError
  | Some (Text content) =>
      match json_loads load_depth content with
      | Ok v => Ok v
      | Raise JSONDecodeError => Ok (JArr [])
      | Raise e => Raise e
      end
  end.

Definition save_favorites (favorites : json) (files : gmap text file_content)
  : gmap text file_content :=
  <[FAVORITES_FILE := Text (json_dumps favorites)]> files.

(** *** Cache

    [time.time()] returns a float, a binary64 number of seconds: the
    timestamps are floats, their difference is the rounded difference of
    floating-point arithmetic, and it is compared with the integer 3600, which
    Python converts to the float of the same value. *)

Definition CACHE_DURATION : Z := 3600.

Record cache_entry := {
  data : json;
  timestamp : float
}.

(** [now - stored < CACHE_DURATION] *)
Definition within_duration (now stored : float) : bool :=
  PrimFloat.ltb (PrimFloat.sub now stored) (float_of_int CACHE_DURATION).

(** [now] is what [time.time()] returns during the call. *)
Definition get_from_cache (now : float) (api_cache : gmap text cache_entry) (key : text)
  : json :=
  match api_cache !! key with
  | Some entry =>
      if within_duration now (timestamp entry) then data entry else JNull
  | None => JNull
  end.

Definition set_in_cache (now : float) (api_cache : gmap text cache_entry) (key : text)
    (value : json) : gmap text cache_entry :=
  <[key := {| data := value; timestamp := now |}]> api_cache.

(** ** api_client.py *)

Variable API_KEY : text.

Definition BASE_URL : text := Eval cbv in txt "https://api.spoonacular.com".

(** What [requests.get] does with a request: it raises, or returns a
    response. *)
Record response := {
  status_code : Z;
  reason : text;
  response_url : text;
  body : text
}.

Inductive get_outcome :=
  | GetRaises (e : exn) (message : text)
  | GetReturns (r : response).

(** [except requests.exceptions.RequestException] catches the exceptions of
    these classes. *)
Definition is_request_exception (e : exn) : bool :=
  match e with
  | ConnectionError | Timeout | HTTPError | InvalidJSONError
  | OtherRequestException => true
  | _ => false
  end.

(** The network.  [response.json()] decodes the body with [json.loads],
    [response_depth] being the nesting the decoder can enter there.  Of the
    exceptions of the decoder it catches the [JSONDecodeError] of a body that
    is not JSON, and raises [body_error] in its place, whose class depends on
    the version of [requests] ([requests.exceptions.JSONDecodeError], a
    request exception, from 2.27 on; the [JSONDecodeError] itself, a
    [ValueError], before).  The other exceptions of the decoder pass through
    it. *)
Variable requests_get : text -> list (text * json) -> get_outcome.
Variable response_depth : nat.
Variable body_error : exn.
Variable decode_error_message : text -> text.

(** [response.raise_for_status()]: the message of the [HTTPError], if any. *)
Definition raise_for_status (r : response) : option text :=
  if (400 <=? status_code r) && (status_code r <? 500) then
    Some (int_text (status_code r) ++ txt " Client Error: " ++ reason r ++
          txt " for url: " ++ response_url r)
  else if (500 <=? status_code r) && (status_code r <? 600) then
    Some (int_text (status_code r) ++ txt " Server Error: " ++ reason r ++
          txt " for url: " ++ response_url r)
  else None.

(** [f"Error connecting to Spoonacular API: {e}"] *)
Definition error_line (message : text) : text :=
  txt "Error connecting to Spoonacular API: " ++ message.

(** The [try] block shared by the three operations; the second component is
    what was printed. *)
Definition fetch (url : text) (params : list (text * json)) : result json * list text :=
  let caught (e : exn) (message : text) : result json * list text :=
    if is_request_exception e then (Ok JNull, [error_line message])
    else (Raise e, []) in
  match requests_get url params with
  | GetRaises e message => caught e message
  | GetReturns r =>
      match raise_for_status r with
      | Some message => caught HTTPError message
      | None =>
          match json_loads response_depth (body r) with
          | Ok v => (Ok v, [])
          | Raise JSONDecodeError => caught body_error (decode_error_message (body r))
          | Raise e => (Raise e, [])
          end
      end
  end.

Definition search_recipes_by_ingredients (ingredients : list text) (number : Z)
  : result json * list text :=
  let url := BASE_URL ++ txt "/recipes/findByIngredients" in
  let params :=
    [(txt "ingredients", JStr (join (txt ",") ingredients));
     (txt "number", JInt number);
     (txt "apiKey", JStr API_KEY)] in
  fetch url params.

Definition find_recipes_by_cuisine (cuisine : text) (meal_type : option text) (number : Z)
  : result json * list text :=
  let url := BASE_URL ++ txt "/recipes/complexSearch" in
  let params :=
    [(txt "cuisine", JStr cuisine);
     (txt "number", JInt number);
     (txt "apiKey", JStr API_KEY)] in
  let params :=
    match meal_type with
    | Some (c :: t) => params ++ [(txt "type", JStr (c :: t))]
    | _ => params
    end in
  fetch url params.

Definition get_recipe_details (recipe_id : json) : result json * list text :=
  let url := BASE_URL ++ txt "/recipes/" ++ py_str recipe_id ++ txt "/information" in
  let params :=
    [(txt "includeNutrition", JBool true);
     (txt "apiKey", JStr API_KEY)] in
  fetch url params.

(** A call of one of the three operations of the client. *)
Inductive api_call :=
  | SearchByIngredients (ingredients : list text) (number : Z)
  | FindByCuisine (cuisine : text) (meal_type : option text) (number : Z)
  | RecipeDetails (recipe_id : json).

Definition run_call (call : api_call) : result json * list text :=
  match call with
  | SearchByIngredients ingredients number =>
      search_recipes_by_ingredients ingredients number
  | FindByCuisine cuisine meal_type number =>
      find_recipes_by_cuisine cuisine meal_type number
  | RecipeDetails recipe_id => get_recipe_details recipe_id
  end.

(** ** main.py *)

(** *** The cache key of an ingredient search *)

(** [sorted] on strings: the sorted permutation of the list. *)
Definition sorted (l : list text) : list text := merge_sort text_le l.

Definition ingredients_cache_key (ingredients : list text) : text :=
  txt "ingredients_" ++ join (txt ",") (sorted ingredients).

(** [str.isspace] on one character, [s.strip()] and [s.split(sep)] for a
    one-character separator. *)
Definition py_isspace (c : N) : bool :=
  ((9 <=? c) && (c <=? 13) || (28 <=? c) && (c <=? 32) || (c =? 133) || (c =? 160)
   || (c =? 5760) || (8192 <=? c) && (c <=? 8202) || (c =? 8232) || (c =? 8233)
   || (c =? 8239) || (c =? 8287) || (c =? 12288))%N.

Fixpoint lstrip (s : text) : text :=
  match s with
  | c :: s' => if py_isspace c then lstrip s' else s
  | [] => []
  end.

Definition strip (s : text) : text := rev (lstrip (rev (lstrip s))).

Fixpoint split (sep : N) (s : text) : list text :=
  match s with
  | [] => [[]]
  | c :: s' =>
      if (c =? sep)%N then [] :: split sep s'
      else
        match split sep s' with
        | part :: parts => (c :: part) :: parts
        | [] => [[c]]
        end
  end.

(** The key [search_by_ingredients] computes from the line the user typed. *)
Definition search_cache_key (ingredients_str : text) : text :=
  let ingredients := map strip (split 44 ingredients_str) in
  ingredients_cache_key ingredients.

(** *** Favourites in [view_recipe_details] *)

(** [any(fav['id'] == recipe['id'] for fav in favorites)] *)
Fixpoint any_same_id (recipe : json) (favs : list json) : result bool :=
  match favs with
  | [] => Ok false
  | fav :: favs' =>
      a ← subscript fav (txt "id");
      b ← subscript recipe (txt "id");
      if py_eq a b then Ok true else any_same_id recipe favs'
  end.

(** [[fav for fav in favorites if fav['id'] != recipe['id']]] *)
Fixpoint without_id (recipe : json) (favs : list json) : result (list json) :=
  match favs with
  | [] => Ok []
  | fav :: favs' =>
      a ← subscript fav (txt "id");
      b ← subscript recipe (txt "id");
      rest ← without_id recipe favs';
      Ok (if py_eq a b then rest else fav :: rest)
  end.

Record world := {
  files : gmap text file_content;
  api_cache : gmap text cache_entry
}.

(** The local variables [favorites] and [is_favorite], and the world. *)
Record view_state := {
  favorites : json;
  is_favorite : bool;
  view_world : world
}.

(** Entry of [view_recipe_details]: the favourites are loaded and looked
    through once. *)
Definition view_enter (recipe : json) (w : world) : result view_state :=
  favorites ← load_favorites (files w);
  favs ← py_iter favorites;
  is_favorite ← any_same_id recipe favs;
  Ok {| favorites := favorites; is_favorite := is_favorite; view_world := w |}.

(** Choice 1 of the menu: the favourites toggle. *)
Definition toggle_favorite (recipe : json) (st : view_state) : result view_state :=
  '(favorites', api_cache') ←
    (if is_favorite st then
       favs ← py_iter (favorites st);
       kept ← without_id recipe favs;
       rid ← subscript recipe (txt "id");
       let details_key := txt "details_" ++ py_str rid in
       Ok (JArr kept, delete details_key (api_cache (view_world st)))
     else
       match favorites st with
       | JArr favs => Ok (JArr (favs ++ [recipe]), api_cache (view_world st))
       | _ => Raise AttributeError
       end);
  Ok {| favorites := favorites';
        is_favorite := negb (is_favorite st);
        view_world := {| files := save_favorites favorites' (files (view_world st));
                         api_cache := api_cache' |} |}.

(** Choice 1 made [n] times in one visit of the recipe's page. *)
Fixpoint toggle_times (n : nat) (recipe : json) (st : view_state) : result view_state :=
  match n with
  | O => Ok st
  | S n' => st' ← toggle_favorite recipe st; toggle_times n' recipe st'
  end.

(** *** Vocabulary for the difficulty and the nutrition score *)

Definition Hard : text := Eval cbv in txt "Hard".
Definition Medium : text := Eval cbv in txt "Medium".
Definition Easy : text := Eval cbv in txt "Easy".

(** The nutrients table the function builds from its input. *)
Definition nutrients_of (nutrition : json) : result (gmap text (json * json)) :=
  listed ← dict_get nutrition (txt "nutrients") (JArr []);
  ns ← py_iter listed;
  collect_nutrients ns ∅.

(** The amount listed for a nutrient, 0 when it is not listed. *)
Definition amount_of (nutrients : gmap text (json * json)) (name : text) : json :=
  match nutrients !! name with
  | Some (amount, _) => amount
  | None => JInt 0
  end.

(** The score as the specification words it: 50, plus 15 for protein above
    25, plus 15 for vitamin A above 20, plus 20 for sodium below 500, plus 10
    for calories below 500, capped at 100. *)
Definition score_of (protein vitamin_a sodium calories : number) : Z :=
  Z.min 100
    (50
     + (if decide (exceeds protein 25) then 15 else 0)
     + (if decide (exceeds vitamin_a 20) then 15 else 0)
     + (if decide (below sodium 500) then 20 else 0)
     + (if decide (below calories 500) then 10 else 0)).

(** A nutrient record, [{"name": ..., "amount": ..., "unit": ...}]. *)
Definition nutrient_record (name : text) (amount : json) (unit_ : text) : json :=
  JObj [(txt "name", JStr name); (txt "amount", amount); (txt "unit", JStr unit_)].

Definition nutrition_example : json :=
  JObj [(txt "nutrients",
         JArr [nutrient_record (txt "Protein") (JInt 30) (txt "g");
               nutrient_record (txt "Vitamin A") (JInt 25) (txt "% of Daily Needs");
               nutrient_record (txt "Sodium") (JInt 200) (txt "mg");
               nutrient_record (txt "Calories") (JInt 400) (txt "kcal")])].

(** *** Vocabulary for the favourites

    A record is identified by an integer [id]. *)
Definition int_id (r : json) : option Z :=
  match subscript r (txt "id") with
  | Ok (JInt z) => Some z
  | _ => None
  end.

(** [zs] are the ids of the records [favs], in order. *)
Definition ids_of (favs : list json) (zs : list Z) : Prop :=
  Forall2 (fun fav z => int_id fav = Some z) favs zs.

(** Add if absent, remove by id if present. *)
Definition toggled (recipe : json) (z : Z) (zs : list Z) (favs : list json) : list json :=
  if decide (z ∈ zs) then filter (fun fav => int_id fav ≠ Some z) favs
  else favs ++ [recipe].

(** The ids after a toggle. *)
Definition toggled_ids (z : Z) (zs : list Z) : list Z :=
  if decide (z ∈ zs) then filter (fun y => y ≠ z) zs else zs ++ [z].

(** One use of the toggle on the list [favs], the flag being what the page
    computes from [favs] when it is entered. *)
Definition toggle_step (favs : list json) (recipe : json) (favs' : list json) : Prop :=
  exists (b : bool) (w : world) (st' : view_state),
    any_same_id recipe favs = Ok b /\
    toggle_favorite recipe
      {| favorites := JArr favs; is_favorite := b; view_world := w |} = Ok st' /\
    favorites st' = JArr favs'.

(** The lists the toggle produces from the empty list, with records that
    have integer ids. *)
Inductive reachable : list json -> Prop :=
  | reachable_empty : reachable []
  | reachable_toggle (favs favs' : list json) (recipe : json) (z : Z) :
      reachable favs ->
      int_id recipe = Some z ->
      toggle_step favs recipe favs' ->
      reachable favs'.

(** *** The operations of the program on [api_cache] *)

Inductive cache_op :=
  | CacheSet (now : float) (key : text) (value : json)
  | CacheDel (key : text).

Definition op_key (op : cache_op) : text :=
  match op with
  | CacheSet _ key _ => key
  | CacheDel key => key
  end.

Definition apply_op (api_cache : gmap text cache_entry) (op : cache_op)
  : gmap text cache_entry :=
  match op with
  | CacheSet now key value => set_in_cache now api_cache key value
  | CacheDel key => delete key api_cache
  end.

Definition replay (ops : list cache_op) (api_cache : gmap text cache_entry)
  : gmap text cache_entry :=
  foldl apply_op api_cache ops.

(** *** More vocabulary: histories of the cache, tiers, nutrient lists *)

(** The last operation of a history on a key. *)
Fixpoint last_on (key : text) (ops : list cache_op) : option cache_op :=
  match ops with
  | [] => None
  | op :: ops' =>
      match last_on key ops' with
      | Some op' => Some op'
      | None => if decide (op_key op = key) then Some op else None
      end
  end.

(** [("Easy", "Medium", "Hard").index(tier)], the sort key of
    [display_recipes]. *)
Definition tier_index (tier : text) : result Z :=
  if decide (tier = txt "Easy") then Ok 0
  else if decide (tier = txt "Medium") then Ok 1
  else if decide (tier = txt "Hard") then Ok 2
  else Raise ValueError.

(** A nutrition record listing the nutrients [entries], each a name, an
    amount and a unit. *)
Definition nutrition_of_entries (entries : list (text * json * text)) : json :=
  JObj [(txt "nutrients",
         JArr (map (fun e => nutrient_record e.1.1 e.1.2 e.2) entries))].

(** The amount of the last entry that has the name, 0 without one. *)
Fixpoint last_amount (name : text) (entries : list (text * json * text)) : json :=
  match entries with
  | [] => JInt 0
  | e :: entries' =>
      if bool_decide (name ∈ map (fun e' => e'.1.1) entries') then last_amount name entries'
      else if decide (e.1.1 = name) then e.1.2
      else JInt 0
  end.

(** *** The table of recipes: [display_recipes] *)

(** The truth value of an object, as [if v:] and [not v] take it. *)
Definition py_truthy (v : json) : bool :=
  match v with
  | JNull => false
  | JBool b => b
  | JInt z => negb (z =? 0)
  | JFloat (Finite x) => negb (Qeq_bool (float_value x) 0)
  | JFloat _ => true
  | JStr s => if s is [] then false else true
  | JArr l => if l is [] then false else true
  | JObj d => if d is [] then false else true
  end.

(** [a + b].  The sum of two numbers of which one is a float is a float
    computed by the machine: it is left to [float_plus]. *)
Variable float_plus : json -> json -> result json.

Definition py_add (a b : json) : result json :=
  match a, b with
  | JInt x, JInt y => Ok (JInt (x + y))
  | JInt x, JBool y => Ok (JInt (x + Z.b2z y))
  | JBool x, JInt y => Ok (JInt (Z.b2z x + y))
  | JBool x, JBool y => Ok (JInt (Z.b2z x + Z.b2z y))
  | JFloat _, (JInt _ | JBool _ | JFloat _) => float_plus a b
  | (JInt _ | JBool _), JFloat _ => float_plus a b
  | JStr s, JStr t => Ok (JStr (s ++ t))
  | JArr l, JArr m => Ok (JArr (l ++ m))
  | _, _ => Raise TypeError
  end.

(** [k in d] for a dictionary [d]. *)
Definition dict_has (k : text) (d : list (text * json)) : bool :=
  if dict_lookup k d is Some _ then true else false.

(** The sort key of a recipe: [("Easy", "Medium", "Hard").index(
    utils.calculate_difficulty(r))]. *)
Definition difficulty_key (r : json) : result Z :=
  tier ← calculate_difficulty r;
  tier_index tier.

(** [list.sort(key=...)] computes the key of every element, in order, and
    then sorts by the keys; the sort is stable, so the result is the one
    sorted list that keeps elements with equal keys in their order.  It is
    computed here by insertion. *)
Fixpoint difficulty_keys (recipes : list json) : result (list (Z * json)) :=
  match recipes with
  | [] => Ok []
  | r :: recipes' =>
      k ← difficulty_key r;
      keyed ← difficulty_keys recipes';
      Ok ((k, r) :: keyed)
  end.

Fixpoint insert_by_key (x : Z * json) (l : list (Z * json)) : list (Z * json) :=
  match l with
  | [] => [x]
  | y :: l' => if x.1 <=? y.1 then x :: y :: l' else y :: insert_by_key x l'
  end.

Definition sort_by_key (l : list (Z * json)) : list (Z * json) :=
  foldr insert_by_key [] l.

Definition sort_by_difficulty (recipes : list json) : result (list json) :=
  keyed ← difficulty_keys recipes;
  Ok (map snd (sort_by_key keyed)).

(** The arguments of one [table.add_row]. *)
Record table_row := {
  row_number : text;
  row_title : text;
  row_likes : text;
  row_ingredients : text
}.

(** The cell the table makes of a title that is not a string: the table
    belongs to the [rich] library. *)
Variable title_cell : json -> result text.

(** The body of the loop over [enumerate(recipes)]. *)
Definition recipe_row (i : nat) (recipe : json) : result table_row :=
  likes ← dict_get recipe (txt "aggregateLikes") (JStr (txt "N/A"));
  extended ← dict_get recipe (txt "extendedIngredients") (JArr []);
  n ← py_len extended;
  ingredients_count ←
    (if (n =? 0) && (if recipe is JObj d then dict_has (txt "usedIngredientCount") d
                     else false)
     then
       used ← dict_get recipe (txt "usedIngredientCount") (JInt 0);
       missed ← dict_get recipe (txt "missedIngredientCount") (JInt 0);
       py_add used missed
     else Ok (JInt n));
  title ← subscript recipe (txt "title");
  cell ← (if title is JStr s then Ok s else title_cell title);
  Ok {| row_number := int_text (Z.of_nat i + 1);
        row_title := cell;
        row_likes := py_str likes;
        row_ingredients := py_str ingredients_count ++ txt " ingredients" |}.

Fixpoint recipe_rows (i : nat) (recipes : list json) : result (list table_row) :=
  match recipes with
  | [] => Ok []
  | r :: recipes' =>
      row ← recipe_row i r;
      rows ← recipe_rows (S i) recipes';
      Ok (row :: rows)
  end.

(** What [display_recipes] prints. *)
Inductive shown :=
  | NoRecipesFound
  | RecipeTable (rows : list table_row).

(** [display_recipes(recipes)]: the list after the call, sorted in place,
    and what was printed. *)
Definition display_recipes (recipes : json) : result (json * shown) :=
  if negb (py_truthy recipes) then Ok (recipes, NoRecipesFound)
  else
    match recipes with
    | JArr l =>
        sorted_recipes ← sort_by_difficulty l;
        rows ← recipe_rows 0 sorted_recipes;
        Ok (JArr sorted_recipes, RecipeTable rows)
    | _ => Raise AttributeError
    end.

(** The recipes of a list that are in a tier. *)
Definition has_tier (tier : text) (r : json) : bool :=
  match calculate_difficulty r with
  | Ok tier' => bool_decide (tier' = tier)
  | Raise _ => false
  end.

(** *** The searches: [search_by_ingredients] and [search_by_cuisine] *)

(** The loop over the summary of a search: the details of each recipe are
    requested by its id and kept when they are true.  The result holds the
    recipes, the requests made and the error lines printed. *)
Fixpoint fetch_details (recipes_summary : list json)
  : result (list json * list api_call * list text) :=
  match recipes_summary with
  | [] => Ok ([], [], [])
  | r :: summary' =>
      recipe_id ← subscript r (txt "id");
      details ← (get_recipe_details recipe_id).1;
      '(recipes, calls, printed) ← fetch_details summary';
      Ok (if py_truthy details then details :: recipes else recipes,
          RecipeDetails recipe_id :: calls,
          (get_recipe_details recipe_id).2 ++ printed)
  end.

(** How a search ends: the input is refused, or recipes are shown (from the
    cache or not) and handed to [select_recipe_flow], or none is found. *)
Inductive search_outcome :=
  | Refused
  | Found (from_cache : bool) (recipes : json) (table : shown)
  | NotFound.

Record search_result := {
  outcome : search_outcome;
  cache_after : gmap text cache_entry;
  requests : list api_call;
  error_lines : list text
}.

(** [display_recipes] sorts in place the list it is given, which is the list
    the cache holds under the key of the search: the entry keeps its
    timestamp and holds the sorted list.  Each entry of the cache holds a
    list of its own. *)
Definition sorted_in_place (cache_key : text) (recipes : json)
    (api_cache : gmap text cache_entry) : gmap text cache_entry :=
  alter (fun e => {| data := recipes; timestamp := timestamp e |}) cache_key api_cache.

(** The end of both searches, from [if recipes:] on. *)
Definition show_recipes (cache_key : text) (from_cache : bool) (recipes : json)
    (api_cache : gmap text cache_entry) (calls : list api_call) (printed : list text)
  : result search_result :=
  if py_truthy recipes then
    '(sorted_recipes, table) ← display_recipes recipes;
    Ok {| outcome := Found from_cache sorted_recipes table;
          cache_after := sorted_in_place cache_key sorted_recipes api_cache;
          requests := calls;
          error_lines := printed |}
  else
    Ok {| outcome := NotFound; cache_after := api_cache;
          requests := calls; error_lines := printed |}.

(** [search_by_ingredients], for the line the user types; [t_get] and
    [t_set] are the times of the calls of [get_from_cache] and
    [set_in_cache]. *)
Definition search_by_ingredients (t_get t_set : float) (ingredients_str : text)
    (api_cache : gmap text cache_entry) : result search_result :=
  if ingredients_str is [] then
    Ok {| outcome := Refused; cache_after := api_cache;
          requests := []; error_lines := [] |}
  else
    let ingredients := map strip (split 44 ingredients_str) in
    let cache_key := ingredients_cache_key ingredients in
    let cached_recipes := get_from_cache t_get api_cache cache_key in
    if py_truthy cached_recipes then
      show_recipes cache_key true cached_recipes api_cache [] []
    else
      let call := SearchByIngredients ingredients 7 in
      recipes_summary ← (run_call call).1;
      if py_truthy recipes_summary then
        items ← py_iter recipes_summary;
        '(recipes, calls, printed) ← fetch_details items;
        show_recipes cache_key false (JArr recipes)
          (set_in_cache t_set api_cache cache_key (JArr recipes))
          (call :: calls) ((run_call call).2 ++ printed)
      else
        show_recipes cache_key false (JArr []) api_cache [call] (run_call call).2.

(** [str.lower]: on a string of ASCII characters, the letters A to Z are
    replaced by a to z; the lower case of other strings is left to
    [unicode_lower]. *)
Variable unicode_lower : text -> text.

Definition ascii_lower (c : N) : N :=
  (if (65 <=? c) && (c <=? 90) then c + 32 else c)%N.

Definition py_lower (s : text) : text :=
  if forallb (fun c => c <? 128)%N s then map ascii_lower s else unicode_lower s.

Definition cuisines : list text :=
  [txt "Italian"; txt "Chinese"; txt "Mexican"; txt "Indian"; txt "Japanese";
   txt "Thai"; txt "French"; txt "Spanish"].

Definition meal_types : list text :=
  [txt "main course"; txt "dessert"; txt "appetizer"; txt "breakfast"; txt "soup"].

Definition cuisine_cache_key (cuisine meal_type : text) : text :=
  txt "cuisine_" ++ cuisine ++ txt "_" ++ meal_type.

(** [search_by_cuisine], for the two lines the user types (the second is
    asked for only when the first is accepted). *)
Definition search_by_cuisine (t_get t_set : float) (cuisine_input meal_type_input : text)
    (api_cache : gmap text cache_entry) : result search_result :=
  let refused := {| outcome := Refused; cache_after := api_cache;
                    requests := []; error_lines := [] |} in
  let cuisine := py_lower cuisine_input in
  if negb (bool_decide (cuisine ∈ map py_lower cuisines)) then Ok refused
  else
    let meal_type := py_lower meal_type_input in
    if py_truthy (JStr meal_type) && negb (bool_decide (meal_type ∈ meal_types))
    then Ok refused
    else
      let cache_key := cuisine_cache_key cuisine meal_type in
      let cached_recipes := get_from_cache t_get api_cache cache_key in
      if py_truthy cached_recipes then
        show_recipes cache_key true cached_recipes api_cache [] []
      else
        let call := FindByCuisine cuisine (Some meal_type) 5 in
        data ← (run_call call).1;
        recipes_summary ←
          (if py_truthy data then dict_get data (txt "results") (JArr [])
           else Ok (JArr []));
        if py_truthy recipes_summary then
          items ← py_iter recipes_summary;
          '(recipes, calls, printed) ← fetch_details items;
          show_recipes cache_key false (JArr recipes)
            (set_in_cache t_set api_cache cache_key (JArr recipes))
            (call :: calls) ((run_call call).2 ++ printed)
        else
          show_recipes cache_key false (JArr []) api_cache [call] (run_call call).2.

(** The keys under which the program stores in the cache. *)
Definition search_key (key : text) : Prop :=
  (exists ingredients : list text, key = ingredients_cache_key ingredients) \/
  (exists cuisine meal_type : text, key = cuisine_cache_key cuisine meal_type).

(** *** The instructions of a recipe, in [view_recipe_details] *)

(** [s.replace(old, new)] for a non-empty [old]: the occurrences of [old]
    are replaced from left to right, an occurrence starting only after the
    end of the one before.  [skip] counts the characters of the current
    occurrence that are still to be passed. *)
Fixpoint replace_from (old new : text) (skip : nat) (s : text) : text :=
  match s with
  | [] => []
  | c :: s' =>
      match skip with
      | S skip' => replace_from old new skip' s'
      | O =>
          if starts_with old s is Some _
          then new ++ replace_from old new (length old - 1) s'
          else c :: replace_from old new 0 s'
      end
  end.

Definition py_replace (old new s : text) : text := replace_from old new 0 s.

(** [[f"{i+1}. {step.strip()}" for i, step in enumerate(lines) if
    step.strip()]], the enumeration starting at [i]. *)
Fixpoint numbered_steps (i : nat) (lines : list text) : list text :=
  match lines with
  | [] => []
  | step :: lines' =>
      if strip step is [] then numbered_steps (S i) lines'
      else (int_text (Z.of_nat i + 1) ++ txt ". " ++ strip step)
           :: numbered_steps (S i) lines'
  end.

Definition no_instructions : text := Eval cbv in txt "No instructions available.".

Definition clean_instructions (instructions : text) : text :=
  py_replace (txt "</li>") [10%N]
    (py_replace (txt "<li>") []
       (py_replace (txt "</ol>") []
          (py_replace (txt "<ol>") [] instructions))).

(** The text of the instructions panel. *)
Definition instructions_text (recipe : json) : result text :=
  instructions ← dict_get recipe (txt "instructions") (JStr no_instructions);
  if py_truthy instructions then
    match instructions with
    | JStr s => Ok (join [10%N] (numbered_steps 0 (split 10 (clean_instructions s))))
    | _ => Raise AttributeError
    end
  else Ok no_instructions.

(** An HTML list of steps, [<ol><li>...</li>...</ol>]. *)
Definition html_steps (steps : list text) : text :=
  txt "<ol>" ++ flat_map (fun step => txt "<li>" ++ step ++ txt "</li>") steps
  ++ txt "</ol>".

(** The pieces of an HTML list: the four tags, and texts without [<]. *)
Definition html_piece (p : text) : Prop :=
  p ∈ [txt "<ol>"; txt "</ol>"; txt "<li>"; txt "</li>"] \/ 60%N ∉ p.

(** The replacement of a tag in a piece, and the pieces of an HTML list of
    steps, for the texts [ol], [ol_end], [li] and [li_end] of its four tags. *)
Definition replace_piece (old new p : text) : text :=
  if decide (p = old) then new else p.

Definition html_pieces (ol ol_end li li_end : text) (steps : list text) : list text :=
  ol :: flat_map (fun step => [li; step; li_end]) steps ++ [ol_end].

(** *** Sharing a recipe: [share_recipe] *)

(** [str.encode('utf-8')] of one character; a surrogate cannot be encoded
    (a UnicodeEncodeError, which is a ValueError).  The characters of a
    string are below 1114112: a number from there on is no character, and is
    refused as well. *)
Definition utf8_encode_char (c : N) : result (list N) :=
  (if c <? 128 then Ok [c]
   else if c <? 2048 then Ok [192 + c / 64; 128 + c mod 64]
   else if (55296 <=? c) && (c <=? 57343) then Raise ValueError
   else if c <? 65536 then
     Ok [224 + c / 4096; 128 + (c / 64) mod 64; 128 + c mod 64]
   else if c <? 1114112 then
     Ok [240 + c / 262144; 128 + (c / 4096) mod 64; 128 + (c / 64) mod 64;
         128 + c mod 64]
   else Raise ValueError)%N.

Fixpoint utf8_encode (s : text) : result (list N) :=
  match s with
  | [] => Ok []
  | c :: s' =>
      bytes ← utf8_encode_char c;
      rest ← utf8_encode s';
      Ok (bytes ++ rest)
  end.

(** The bytes that [urllib.parse.quote] never escapes: letters, digits and
    [_.-~]. *)
Definition always_safe (b : N) : bool :=
  ((65 <=? b) && (b <=? 90) || (97 <=? b) && (b <=? 122) || (48 <=? b) && (b <=? 57)
   || (b =? 95) || (b =? 46) || (b =? 45) || (b =? 126))%N.

Definition upper_hex_digit (n : N) : N := (if n <? 10 then 48 + n else 55 + n)%N.

(** ['%{:02X}'.format(b)] *)
Definition percent_escape (b : N) : text :=
  [37%N; upper_hex_digit (b / 16); upper_hex_digit (b mod 16)].

Definition quote_byte (safe : text) (b : N) : text :=
  if always_safe b || bool_decide (b ∈ safe) && (b <? 128)%N then [b]
  else percent_escape b.

(** [urllib.parse.quote(string, safe)] of a string. *)
Definition quote (safe : text) (string : text) : result text :=
  bytes ← utf8_encode string;
  Ok (flat_map (quote_byte safe) bytes).

(** [urllib.parse.quote(v, safe)] of an object: what is not a string is
    taken for bytes, and refused. *)
Definition py_quote (safe : text) (v : json) : result text :=
  match v with
  | JStr s => quote safe s
  | _ => Raise TypeError
  end.

(** [v[0]]; the IndexError of an empty sequence is an [OtherError]. *)
Definition first_item (v : json) : result json :=
  match v with
  | JArr (x :: _) => Ok x
  | JArr [] => Raise OtherError
  | JStr (c :: _) => Ok (JStr [c])
  | JStr [] => Raise OtherError
  | JObj _ => Raise KeyError
  | _ => Raise TypeError
  end.

(** The link that the menu of [share_recipe] opens for a choice, [None] for
    the choice of going back and for a choice that is not in the menu. *)
Definition share_link (recipe source_url title : json) (choice : text)
  : result (option text) :=
  if decide (choice = txt "1") then
    Ok (Some (txt "https://www.facebook.com/sharer/sharer.php?u=" ++ py_str source_url))
  else if decide (choice = txt "2") then
    Ok (Some (txt "https://twitter.com/intent/tweet?url=" ++ py_str source_url
              ++ txt "&text=" ++ py_str title))
  else if decide (choice = txt "3") then
    Ok (Some (txt "https://api.whatsapp.com/send?text=" ++ py_str title
              ++ txt "%20" ++ py_str source_url))
  else if decide (choice = txt "4") then
    subject ← py_quote (txt "/") title;
    ready_in_minutes ← dict_get recipe (txt "readyInMinutes") (JStr (txt "N/A"));
    cuisines_list ← dict_get recipe (txt "cuisines") (JArr []);
    cuisine_str ←
      (if py_truthy cuisines_list then first_item cuisines_list
       else Ok (JStr (txt "delicious")));
    let body_content :=
      txt "Check out this " ++ py_str cuisine_str ++ txt " recipe for '"
      ++ py_str title ++ txt "'!" ++ [10%N]
      ++ txt "It's ready in just " ++ py_str ready_in_minutes ++ txt " minutes."
      ++ [10%N; 10%N]
      ++ txt "Get the full recipe here: " ++ py_str source_url in
    body ← quote [] body_content;
    Ok (Some (txt "mailto:?subject=" ++ subject ++ txt "&body=" ++ body))
  else Ok None.

(** The loop of the menu over the choices typed: the links opened, up to the
    choice of going back. *)
Fixpoint share_menu (recipe source_url title : json) (choices : list text)
  : result (list text) :=
  match choices with
  | [] => Ok []
  | choice :: choices' =>
      if decide (choice = txt "0") then Ok []
      else
        link ← share_link recipe source_url title choice;
        links ← share_menu recipe source_url title choices';
        Ok (if link is Some url then url :: links else links)
  end.

(** [share_recipe(recipe)] for the choices typed in its menu: the links
    opened in the browser. *)
Definition share_recipe (recipe : json) (choices : list text) : result (list text) :=
  source_url ← dict_get recipe (txt "sourceUrl") (JStr []);
  title ← subscript recipe (txt "title");
  summary ← dict_get recipe (txt "summary") (JStr (txt "No description available."));
  _ ← (if summary is JStr _ then Ok () else Raise AttributeError);
  if negb (py_truthy source_url) then Ok []
  else share_menu recipe source_url title choices.

(** The characters of a quoted text: the bytes never escaped, the safe
    characters, and the escapes. *)
Definition quoted_char (safe : text) (c : N) : Prop :=
  always_safe c = true \/ c ∈ safe \/ c = 37%N.

(** *** The amount of an ingredient: [format_ingredient_amount] *)

(** [Fraction(numerator, denominator)] of two integers: the fraction in
    lowest terms, with a positive denominator (a ZeroDivisionError for a
    denominator 0). *)
Definition Fraction (numerator denominator : Z) : result (Z * Z) :=
  if denominator =? 0 then Raise OtherError
  else
    let g := Z.gcd numerator denominator in
    let g := if denominator <? 0 then - g else g in
    Ok (numerator / g, denominator / g).

(** The value of a fraction, for the comparison of two distances. *)
Definition fraction_value (f : Z * Z) : Q := f.1 # Z.to_pos f.2.

Definition max_denominator : Z := 1000000.

(** The loop of [Fraction.limit_denominator], over the convergents [p0/q0]
    and [p1/q1] of the continued fraction of [n/d]; it ends with the last
    convergents whose denominators are within [max_denominator].  The number
    of iterations is bounded by [fuel]. *)
Fixpoint limit_loop (fuel : nat) (p0 q0 p1 q1 n d : Z)
  : option (result (Z * Z * Z * Z)) :=
  match fuel with
  | O => None
  | S fuel' =>
      if d =? 0 then Some (Raise OtherError)
      else
        let a := n / d in
        let q2 := q0 + a * q1 in
        if max_denominator <? q2 then Some (Ok (p0, q0, p1, q1))
        else limit_loop fuel' p1 q1 (p0 + a * p1) q2 d (n - a * d)
  end.

(** The denominators of the convergents grow as the Fibonacci numbers do, of
    which the 31st exceeds [max_denominator]: 40 iterations are more than
    the loop can make. *)
Definition limit_fuel : nat := 40.

(** [self.limit_denominator()], for a fraction in lowest terms.  (The
    ZeroDivisionError of a division by 0 is an [OtherError]; so is the end of
    [limit_fuel], which [limit_denominator_close] shows is not reached.) *)
Definition limit_denominator (self : Z * Z) : result (Z * Z) :=
  if self.2 <=? max_denominator then Ok self
  else
    match limit_loop limit_fuel 0 1 1 0 self.1 self.2 with
    | None => Raise OtherError
    | Some convergents =>
        '(p0, q0, p1, q1) ← convergents;
        if q1 =? 0 then Raise OtherError
        else
          let k := (max_denominator - q0) / q1 in
          bound1 ← Fraction (p0 + k * p1) (q0 + k * q1);
          bound2 ← Fraction p1 q1;
          if Qle_bool (Qabs (fraction_value bound2 - fraction_value self))
                      (Qabs (fraction_value bound1 - fraction_value self))
          then Ok bound2
          else Ok bound1
    end.

(** [str(fraction)] *)
Definition fraction_str (f : Z * Z) : text :=
  if f.2 =? 1 then int_text f.1 else int_text f.1 ++ txt "/" ++ int_text f.2.

(** [Fraction(x)] of a finite float: its exact value. *)
Definition Fraction_of_float (x : F) : Z * Z :=
  (Qnum (Qred (float_value x)), Zpos (Qden (Qred (float_value x)))).

(** An integer converts to a float when it is below [2^1024 - 2^970] in
    absolute value, half-way between the largest float and [2^1024]. *)
Definition float_overflow_bound : Z := 2 ^ 1024 - 2 ^ 970.

(** The amounts that are strings go through [float(s)], [int(s)] and
    [Fraction(s)], which read numbers in their own syntaxes: their result is
    left to [format_text_amount]. *)
Variable format_text_amount : text -> result text.

(** [format_ingredient_amount(amount)].  The OverflowError of [float] on an
    integer out of range, and of [Fraction] on an infinity, is an
    [OtherError]; [Fraction] refuses a NaN with a ValueError, and [float] a
    list or a dictionary with a TypeError. *)
Definition format_ingredient_amount (amount : json) : result text :=
  match amount with
  | JNull => Ok []
  | JBool b => Ok (int_text (Z.b2z b))
  | JInt z =>
      if Z.abs z <? float_overflow_bound then Ok (int_text z) else Raise OtherError
  | JFloat (Finite x) =>
      let self := Fraction_of_float x in
      if self.2 =? 1 then Ok (int_text self.1)
      else
        approximation ← limit_denominator self;
        Ok (fraction_str approximation)
  | JFloat NaN => Raise ValueError
  | JFloat _ => Raise OtherError
  | JStr s => format_text_amount s
  | JArr _ | JObj _ => Raise TypeError
  end.

(** The Fibonacci numbers. *)
Fixpoint fib_pair (i : nat) : Z * Z :=
  match i with
  | O => (0, 1)
  | S i' => let p := fib_pair i' in (p.2, p.1 + p.2)
  end.

Definition fib (i : nat) : Z := (fib_pair i).1.

(** What holds of the variables of the loop of [limit_denominator] on the
    fraction [N/D] after [i] iterations, from the first on. *)
Definition limit_inv (N D : Z) (i : nat) (p0 q0 p1 q1 n d : Z) : Prop :=
  N = p1 * n + p0 * d /\
  D = q1 * n + q0 * d /\
  (p1 * q0 - p0 * q1 = 1 \/ p1 * q0 - p0 * q1 = -1) /\
  0 <= d < n /\
  0 <= q0 <= max_denominator /\
  1 <= q1 <= max_denominator /\
  fib i <= q1 /\
  fib (pred i) <= q0.

(** The characters of a file written by [json.dump]: the printable ASCII
    characters and the line break. *)
Definition dumped_char (c : N) : bool := (c =? 10)%N || is_printable c.

Definition dumped_text (s : text) : bool := forallb dumped_char s.

(** * Properties *)

(** The contract of the float conversions: the [repr] of a finite float is a
    JSON number literal with a fraction or an exponent, and [float] reads it
    back as the same float. *)
Hypothesis float_repr_literal :
  forall x : F, number_token (float_repr x) = Some (float_repr x, true, []).
Hypothesis float_of_repr :
  forall x : F, float_of_literal (float_repr x) = Finite x.

(** Comparisons of characters: with a character in a known range, and
    between two known characters. *)
Ltac decide_eqb c :=
  repeat match goal with
         | |- context [(?a =? c)%N] => rewrite (proj2 (N.eqb_neq a c)) by lia
         | |- context [(c =? ?a)%N] => rewrite (proj2 (N.eqb_neq c a)) by lia
         end.

Ltac eval_eqb :=
  repeat match goal with
         | |- context [N.eqb ?a ?b] =>
             let r := eval cbv in (N.eqb a b) in
             lazymatch r with
             | true => change (N.eqb a b) with true
             | false => change (N.eqb a b) with false
             end
         end.

(** ** Cache *)

Lemma replay_other_keys (key : text) (ops : list cache_op) (c : gmap text cache_entry) :
  Forall (fun op => op_key op ≠ key) ops ->
  replay ops c !! key = c !! key.
Proof.
  intros Hops. revert c.
  induction Hops as [|op ops Hop _ IH]; intros c; [done|].
  change (replay ops (apply_op c op) !! key = c !! key).
  rewrite IH. destruct op as [now k v|k]; cbn in *.
  - unfold set_in_cache. by rewrite lookup_insert_ne.
  - by rewrite lookup_delete_ne.
Qed.

Lemma get_from_cache_fresh (now : float) (c : gmap text cache_entry) (key : text)
    (e : cache_entry) :
  c !! key = Some e ->
  within_duration now (timestamp e) = true ->
  get_from_cache now c key = data e.
Proof. intros Hkey Hlt. unfold get_from_cache. by rewrite Hkey, Hlt. Qed.

Lemma get_from_cache_expired (now : float) (c : gmap text cache_entry) (key : text)
    (e : cache_entry) :
  c !! key = Some e ->
  within_duration now (timestamp e) = false ->
  get_from_cache now c key = JNull.
Proof. intros Hkey Hle. unfold get_from_cache. by rewrite Hkey, Hle. Qed.

(** C1: a value stored under a key at time [s] is what a read of that key at
    time [t] returns when the difference [t - s], as floating-point
    arithmetic rounds it, is below 3600; when that difference is not below
    3600 the read returns [None]; a key that was never stored reads as
    [None].  Operations on other keys in between do not matter. *)
Theorem cache_get_after_set :
  (forall (c : gmap text cache_entry) (key : text) (value : json) (s t : float)
          (later : list cache_op),
      Forall (fun op => op_key op ≠ key) later ->
      (within_duration t s = true ->
       get_from_cache t (replay later (set_in_cache s c key value)) key = value) /\
      (within_duration t s = false ->
       get_from_cache t (replay later (set_in_cache s c key value)) key = JNull)) /\
  (forall (history : list cache_op) (key : text) (t : float),
      Forall (fun op => op_key op ≠ key) history ->
      get_from_cache t (replay history ∅) key = JNull).
Proof.
  split.
  - intros c key value s t later Hlater.
    assert (replay later (set_in_cache s c key value) !! key
            = Some {| data := value; timestamp := s |}) as Hkey.
    { rewrite replay_other_keys by done. apply lookup_insert_eq. }
    split; intros Ht.
    + by rewrite (get_from_cache_fresh _ _ _ _ Hkey).
    + by rewrite (get_from_cache_expired _ _ _ _ Hkey).
  - intros history key t Hhist. unfold get_from_cache.
    rewrite replay_other_keys by done. by rewrite lookup_empty.
Qed.

(** ** Difficulty *)

Lemma exceeds_int (m z : Z) : exceeds (Rational (inject_Z m)) z <-> z < m.
Proof.
  unfold exceeds, number_ltb.
  destruct (Qlt_le_dec _ _) as [Hlt|Hle].
  - rewrite <- Zlt_Qlt in Hlt. split; [done|done].
  - rewrite <- Zle_Qle in Hle. split; [done|lia].
Qed.

Lemma calculate_difficulty_cases (d : list (text * json)) (n : number) (ings : list json) :
  as_number (default (JInt 0) (dict_lookup (txt "readyInMinutes") d)) = Some n ->
  default (JArr []) (dict_lookup (txt "extendedIngredients") d) = JArr ings ->
  calculate_difficulty (JObj d) =
    Ok (if number_ltb (Rational (inject_Z 60)) n || (15 <? Z.of_nat (length ings))
        then Hard
        else if number_ltb (Rational (inject_Z 30)) n || (10 <? Z.of_nat (length ings))
        then Medium
        else Easy).
Proof.
  intros Htime Hings. unfold calculate_difficulty, dict_get.
  unfold mbind, result_bind. rewrite Hings. unfold py_len, py_gt. rewrite Htime.
  destruct (_ || _); [done|].
  destruct (_ || _); done.
Qed.

(** C2: for a recipe whose [readyInMinutes] is a number (0 when the key is
    missing) and whose [extendedIngredients] is a list (empty when the key is
    missing), the difficulty is "Hard" exactly when the time exceeds 60 or
    there are more than 15 ingredients, "Medium" exactly when it is not Hard
    and the time exceeds 30 or there are more than 10 ingredients, and "Easy"
    otherwise.  70 minutes give "Hard", 40 minutes and 5 ingredients "Medium",
    10 minutes and 3 ingredients "Easy". *)
Theorem calculate_difficulty_tiers :
  (forall (d : list (text * json)) (n : number) (ings : list json),
      as_number (default (JInt 0) (dict_lookup (txt "readyInMinutes") d)) = Some n ->
      default (JArr []) (dict_lookup (txt "extendedIngredients") d) = JArr ings ->
      let count := Z.of_nat (length ings) in
      let hard := exceeds n 60 \/ 15 < count in
      let medium := exceeds n 30 \/ 10 < count in
      exists tier,
        calculate_difficulty (JObj d) = Ok tier /\
        (tier = Hard <-> hard) /\
        (tier = Medium <-> ~ hard /\ medium) /\
        (tier = Easy <-> ~ hard /\ ~ medium)) /\
  (forall ings : list json,
      calculate_difficulty
        (JObj [(txt "readyInMinutes", JInt 70); (txt "extendedIngredients", JArr ings)])
      = Ok Hard) /\
  (forall i1 i2 i3 i4 i5 : json,
      calculate_difficulty
        (JObj [(txt "readyInMinutes", JInt 40);
               (txt "extendedIngredients", JArr [i1; i2; i3; i4; i5])])
      = Ok Medium) /\
  (forall i1 i2 i3 : json,
      calculate_difficulty
        (JObj [(txt "readyInMinutes", JInt 10);
               (txt "extendedIngredients", JArr [i1; i2; i3])])
      = Ok Easy).
Proof.
  split; [|split; [|split]].
  - intros d n ings Htime Hings count hard medium.
    rewrite (calculate_difficulty_cases d n ings Htime Hings). fold count.
    assert (number_ltb (Rational (inject_Z 60)) n || (15 <? count) = true <-> hard)
      as Hhard by (unfold hard, exceeds; by rewrite orb_true_iff, Z.ltb_lt).
    assert (number_ltb (Rational (inject_Z 30)) n || (10 <? count) = true <-> medium)
      as Hmedium by (unfold medium, exceeds; by rewrite orb_true_iff, Z.ltb_lt).
    destruct (number_ltb (Rational (inject_Z 60)) n || (15 <? count));
      [|destruct (number_ltb (Rational (inject_Z 30)) n || (10 <? count))];
      eexists; (split; [reflexivity|]).
    + assert hard as Hh by by apply Hhard.
      repeat split; try done; by intros [Hn _].
    + assert (~ hard) as Hh by (by intros ?%Hhard).
      assert medium as Hm by by apply Hmedium.
      repeat split; try done; by intros [_ Hn].
    + assert (~ hard) as Hh by (by intros ?%Hhard).
      assert (~ medium) as Hm by (by intros ?%Hmedium).
      repeat split; try done; by intros [_ Hn].
  - intros ings.
    rewrite (calculate_difficulty_cases _ (Rational (inject_Z 70)) ings) by done.
    done.
  - intros. by rewrite (calculate_difficulty_cases _ (Rational (inject_Z 40)) [i1; i2; i3; i4; i5]).
  - intros. by rewrite (calculate_difficulty_cases _ (Rational (inject_Z 10)) [i1; i2; i3]).
Qed.

(** ** Nutrition *)

Lemma if_exceeds (n : number) (z : Z) (x y : Z) :
  (if decide (exceeds n z) then x else y)
  = if number_ltb (Rational (inject_Z z)) n then x else y.
Proof. case_decide as H; unfold exceeds in H; by destruct (number_ltb _ _). Qed.

Lemma if_below (n : number) (z : Z) (x y : Z) :
  (if decide (below n z) then x else y)
  = if number_ltb n (Rational (inject_Z z)) then x else y.
Proof. case_decide as H; unfold below in H; by destruct (number_ltb _ _). Qed.

Lemma amount_of_default (nutrients : gmap text (json * json)) (name : text) (u : json) :
  (default (JInt 0, u) (nutrients !! name)).1 = amount_of nutrients name.
Proof. unfold amount_of. by destruct (nutrients !! name) as [[??]|]. Qed.

Lemma parse_nutritional_info_score (nutrition : json)
    (nutrients : gmap text (json * json)) (p a s c : number) :
  nutrients_of nutrition = Ok nutrients ->
  as_number (amount_of nutrients (txt "Protein")) = Some p ->
  as_number (amount_of nutrients (txt "Vitamin A")) = Some a ->
  as_number (amount_of nutrients (txt "Sodium")) = Some s ->
  as_number (amount_of nutrients (txt "Calories")) = Some c ->
  exists info,
    parse_nutritional_info nutrition = Ok info /\
    nutrition_score info = score_of p a s c.
Proof.
  intros Hn Hp Ha Hs Hc.
  unfold parse_nutritional_info. unfold nutrients_of in Hn.
  destruct (dict_get nutrition _ _) as [listed|]; [|discriminate Hn].
  unfold mbind, result_bind in Hn |- *.
  destruct (py_iter listed) as [ns|]; [|discriminate Hn].
  rewrite Hn. rewrite !amount_of_default.
  unfold py_gt, py_lt. rewrite Hp, Ha, Hs, Hc.
  eexists. split; [reflexivity|]. unfold score_of.
  rewrite !if_exceeds, !if_below. cbv [nutrition_score].
  generalize (number_ltb (Rational (inject_Z 25)) p) as b1.
  generalize (number_ltb (Rational (inject_Z 20)) a) as b2.
  generalize (number_ltb s (Rational (inject_Z 500))) as b3.
  generalize (number_ltb c (Rational (inject_Z 500))) as b4.
  by intros [] [] [] [].
Qed.

(** C3: the nutrition score is 50, plus 15 when protein exceeds 25, plus 15
    when vitamin A exceeds 20, plus 20 when sodium is below 500, plus 10 when
    calories are below 500, capped at 100; protein 30 g, vitamin A 25 %,
    sodium 200 mg and calories 400 score 100. *)
Theorem parse_nutritional_info_bonuses :
  (forall (nutrition : json) (nutrients : gmap text (json * json)) (p a s c : number),
      nutrients_of nutrition = Ok nutrients ->
      as_number (amount_of nutrients (txt "Protein")) = Some p ->
      as_number (amount_of nutrients (txt "Vitamin A")) = Some a ->
      as_number (amount_of nutrients (txt "Sodium")) = Some s ->
      as_number (amount_of nutrients (txt "Calories")) = Some c ->
      exists info,
        parse_nutritional_info nutrition = Ok info /\
        nutrition_score info =
          Z.min 100
            (50
             + (if decide (exceeds p 25) then 15 else 0)
             + (if decide (exceeds a 20) then 15 else 0)
             + (if decide (below s 500) then 20 else 0)
             + (if decide (below c 500) then 10 else 0))) /\
  (exists info,
      parse_nutritional_info nutrition_example = Ok info /\
      nutrition_score info = 100 /\
      nutrition_score info = Z.min 100 (50 + 15 + 15 + 20 + 10)).
Proof.
  split.
  - intros nutrition nutrients p a s c Hn Hp Ha Hs Hc.
    exact (parse_nutritional_info_score nutrition nutrients p a s c Hn Hp Ha Hs Hc).
  - eexists. split; [vm_compute; reflexivity|]. done.
Qed.

(** C10: a returned nutrition score lies between 50 and 100, and a score is
    returned whenever the four amounts are numbers, also for an input without
    nutrients (which scores 80): the scores below 50 cannot be reached. *)
Theorem nutrition_score_range :
  (forall (nutrition : json) (info : nutrition_info),
      parse_nutritional_info nutrition = Ok info ->
      50 <= nutrition_score info <= 100) /\
  (forall (nutrition : json) (nutrients : gmap text (json * json)) (p a s c : number),
      nutrients_of nutrition = Ok nutrients ->
      as_number (amount_of nutrients (txt "Protein")) = Some p ->
      as_number (amount_of nutrients (txt "Vitamin A")) = Some a ->
      as_number (amount_of nutrients (txt "Sodium")) = Some s ->
      as_number (amount_of nutrients (txt "Calories")) = Some c ->
      exists info,
        parse_nutritional_info nutrition = Ok info /\
        50 <= nutrition_score info <= 100) /\
  (exists info,
      parse_nutritional_info (JObj []) = Ok info /\ nutrition_score info = 80) /\
  (exists info,
      parse_nutritional_info (JObj [(txt "nutrients", JArr [])]) = Ok info /\
      nutrition_score info = 80).
Proof.
  assert (forall (nutrition : json) (info : nutrition_info),
             parse_nutritional_info nutrition = Ok info ->
             50 <= nutrition_score info <= 100) as Hrange.
  { intros nutrition info.
    unfold parse_nutritional_info, mbind, result_bind. intros H.
    repeat match type of H with
           | match ?m with Ok _ => _ | Raise _ => _ end = _ =>
               destruct m; [|discriminate H]
           end.
    injection H as <-. cbv [nutrition_score].
    repeat match goal with
           | |- context [match ?b with true => _ | false => _ end] => destruct b
           end; lia. }
  split; [exact Hrange|]. split; [|split].
  - intros nutrition nutrients p a s c Hn Hp Ha Hs Hc.
    destruct (parse_nutritional_info_score nutrition nutrients p a s c Hn Hp Ha Hs Hc)
      as (info & Hinfo & _).
    exists info. split; [done|]. by apply (Hrange nutrition).
  - eexists. split; [vm_compute; reflexivity|done].
  - eexists. split; [vm_compute; reflexivity|done].
Qed.

(** ** The cache key of an ingredient search *)

Lemma text_leb_refl (a : text) : text_leb a a = true.
Proof. induction a as [|x a IH]; [done|]. cbn. by rewrite N.ltb_irrefl. Qed.

#[global] Instance text_le_total : Total text_le.
Proof.
  unfold Total, text_le. intros a. induction a as [|x a IH]; intros [|y b]; cbn; auto.
  destruct (N.ltb_spec x y), (N.ltb_spec y x); auto; lia.
Qed.

#[global] Instance text_le_trans : Transitive text_le.
Proof.
  unfold Transitive, text_le. intros a.
  induction a as [|x a IH]; intros [|y b] [|z c]; cbn; try done.
  destruct (N.ltb_spec x y), (N.ltb_spec y x), (N.ltb_spec y z), (N.ltb_spec z y),
    (N.ltb_spec x z), (N.ltb_spec z x);
    try done; try lia; eauto.
Qed.

#[global] Instance text_le_antisymm : AntiSymm (=) text_le.
Proof.
  unfold AntiSymm, text_le. intros a.
  induction a as [|x a IH]; intros [|y b]; cbn; try done.
  destruct (N.ltb_spec x y), (N.ltb_spec y x); try done; try lia.
  intros Hab Hba. f_equal; [lia|]. by apply IH.
Qed.

Lemma sorted_Permutation (l1 l2 : list text) : l1 ≡ₚ l2 -> sorted l1 = sorted l2.
Proof.
  intros Hperm. unfold sorted.
  apply (Sorted_unique text_le); try apply Sorted_merge_sort; try apply _.
  by rewrite !merge_sort_Permutation.
Qed.

(** Whatever sorting algorithm [sorted] runs, its result is the sorted
    permutation of the list, which is unique. *)
Lemma sorted_unique (l l' : list text) :
  Sorted text_le l' -> l' ≡ₚ l -> l' = sorted l.
Proof.
  intros Hsorted Hperm. unfold sorted.
  apply (Sorted_unique text_le); try done; try apply Sorted_merge_sort; try apply _.
  by rewrite merge_sort_Permutation.
Qed.

Lemma split_parts (sep : N) (s : text) :
  split sep s <> [] /\ Forall (fun part => sep ∉ part) (split sep s).
Proof.
  induction s as [|c s [Hne Hall]]; cbn [split].
  - split; [done|]. constructor; [apply not_elem_of_nil|done].
  - destruct (N.eqb_spec c sep) as [->|Hc].
    + split; [done|]. constructor; [apply not_elem_of_nil|done].
    + destruct (split sep s) as [|part parts]; [done|]. split; [done|].
      apply Forall_cons in Hall as [Hpart Hparts]. constructor; [|done].
      intros [?|?]%elem_of_cons; done.
Qed.

Lemma split_app_sep (sep : N) (part s : text) :
  sep ∉ part -> split sep (part ++ sep :: s) = part :: split sep s.
Proof.
  induction part as [|c part IH]; intros Hpart; cbn [app split].
  - by rewrite N.eqb_refl.
  - destruct (N.eqb_spec c sep) as [->|Hc]; [exfalso; apply Hpart; by left|].
    rewrite IH; [done|]. intros ?. apply Hpart. by right.
Qed.

Lemma split_no_sep (sep : N) (part : text) :
  sep ∉ part -> split sep part = [part].
Proof.
  induction part as [|c part IH]; intros Hpart; cbn [split]; [done|].
  destruct (N.eqb_spec c sep) as [->|Hc]; [exfalso; apply Hpart; by left|].
  rewrite IH; [done|]. intros ?. apply Hpart. by right.
Qed.

(** Joining and splitting again gives the parts back. *)
Lemma split_join (sep : N) (parts : list text) :
  parts <> [] ->
  Forall (fun part => sep ∉ part) parts ->
  split sep (join [sep] parts) = parts.
Proof.
  intros Hne Hall. induction Hall as [|part parts Hpart Hparts IH]; [done|].
  destruct parts as [|part' parts'].
  - cbn [join]. by apply split_no_sep.
  - change (join [sep] (part :: part' :: parts'))
      with (part ++ sep :: join [sep] (part' :: parts')).
    rewrite split_app_sep by done. by rewrite IH.
Qed.

Lemma lstrip_suffix (s : text) : exists blanks, s = blanks ++ lstrip s.
Proof.
  induction s as [|c s [blanks IH]]; [by exists []|]. cbn [lstrip].
  destruct (py_isspace c); [|by exists []].
  exists (c :: blanks). cbn. by rewrite <- IH.
Qed.

Lemma strip_elements (s : text) (c : N) : c ∈ strip s -> c ∈ s.
Proof.
  unfold strip. intros Hc. rewrite <- Permutation_rev in Hc.
  destruct (lstrip_suffix (rev (lstrip s))) as [b1 H1].
  assert (c ∈ rev (lstrip s)) as Hc' by (rewrite H1, elem_of_app; by right).
  rewrite <- Permutation_rev in Hc'.
  destruct (lstrip_suffix s) as [b2 H2]. rewrite H2, elem_of_app. by right.
Qed.

Lemma search_items (line : text) :
  map strip (split 44 line) <> [] /\
  Forall (fun item => 44%N ∉ item) (map strip (split 44 line)).
Proof.
  destruct (split_parts 44 line) as [Hne Hall]. split.
  - by destruct (split 44 line).
  - apply Forall_fmap. eapply Forall_impl; [exact Hall|].
    intros part Hpart Hc. by apply Hpart, strip_elements.
Qed.

Lemma sorted_items (items : list text) : sorted items ≡ₚ items.
Proof. unfold sorted. apply merge_sort_Permutation. Qed.

Lemma app_sep_inj (sep : N) (a b a' b' : text) :
  sep ∉ a -> sep ∉ a' -> a ++ sep :: b = a' ++ sep :: b' -> a = a' /\ b = b'.
Proof.
  revert a'. induction a as [|x a IH]; intros [|x' a'] Ha Ha'; cbn [app].
  - by intros [= ->].
  - intros [= <- _]. exfalso. apply Ha'. by left.
  - intros [= -> _]. exfalso. apply Ha. by left.
  - intros [= -> Heq].
    destruct (IH a') as [-> ->]; try done.
    + intros ?. apply Ha. by right.
    + intros ?. apply Ha'. by right.
Qed.

(** C9: the cache key of an ingredient search is built from the sorted list
    of the ingredients: it is the prefix [ingredients_] followed by the items
    in ascending order, joined by commas.  So two lists that are permutations
    of each other have the same key, the order of the ingredients does not
    matter; and nothing else is lost: lists as a search makes them (at least
    one item, no comma in an item) have the same key only when they are
    permutations of each other.  A search builds its key in this way from
    the items of the line, stripped of blanks. *)
Theorem ingredients_cache_key_Permutation :
  (forall l : list text,
      ingredients_cache_key l = txt "ingredients_" ++ join (txt ",") (sorted l) /\
      Sorted text_le (sorted l) /\
      sorted l ≡ₚ l) /\
  (forall l1 l2 : list text,
      l1 ≡ₚ l2 -> ingredients_cache_key l1 = ingredients_cache_key l2) /\
  (forall l1 l2 : list text,
      l1 <> [] ->
      l2 <> [] ->
      Forall (fun item => 44%N ∉ item) l1 ->
      Forall (fun item => 44%N ∉ item) l2 ->
      ingredients_cache_key l1 = ingredients_cache_key l2 ->
      l1 ≡ₚ l2) /\
  (forall line : text,
      search_cache_key line = ingredients_cache_key (map strip (split 44 line)) /\
      map strip (split 44 line) <> [] /\
      Forall (fun item => 44%N ∉ item) (map strip (split 44 line))).
Proof.
  split; [|split; [|split]].
  - intros l. split; [done|]. split; [|apply sorted_items].
    unfold sorted. apply Sorted_merge_sort; apply _.
  - intros l1 l2 Hperm. unfold ingredients_cache_key.
    by rewrite (sorted_Permutation l1 l2 Hperm).
  - intros l1 l2 Hne1 Hne2 Hall1 Hall2. unfold ingredients_cache_key.
    intros Heq. apply app_inv_head in Heq. change (txt ",") with [44%N] in Heq.
    pose proof (sorted_items l1) as Hs1. pose proof (sorted_items l2) as Hs2.
    assert (sorted l1 = sorted l2) as Hsorted.
    { rewrite <- (split_join 44 (sorted l1)).
      - rewrite Heq. apply split_join.
        + intros Hnil. rewrite Hnil in Hs2. by apply Permutation_nil_l in Hs2.
        + by rewrite Hs2.
      - intros Hnil. rewrite Hnil in Hs1. by apply Permutation_nil_l in Hs1.
      - by rewrite Hs1. }
    rewrite <- Hs1, Hsorted. exact Hs2.
  - intros line. split; [done|]. apply search_items.
Qed.

(** ** The API client *)

Lemma run_call_fetch (call : api_call) :
  exists url params, run_call call = fetch url params.
Proof. destruct call; cbn; eauto. Qed.

(** The exceptions of the decoder: an error of syntax, an integer of more
    than 4300 digits, too deep a nesting. *)
Lemma scan_raises (fuel : nat) :
  (forall depth s e, scan_once depth fuel s = Raise e -> decoder_exception e) /\
  (forall depth s pairs e,
      scan_members depth fuel s pairs = Raise e -> decoder_exception e) /\
  (forall depth s values e,
      scan_elements depth fuel s values = Raise e -> decoder_exception e).
Proof.
  unfold decoder_exception.
  induction fuel as [|fuel (IHonce & IHmembers & IHelements)].
  { repeat split; cbn; intros; simplify_eq; by left. }
  split; [|split].
  - intros depth s e. cbn [scan_once]. intros H.
    destruct s as [|c s1]; [simplify_eq; by left|].
    destruct (c =? 34)%N.
    { destruct (scanstring s1) as [[str r]|]; simplify_eq. by left. }
    destruct (c =? 123)%N.
    { destruct depth as [|depth']; [simplify_eq; right; by right|].
      destruct (skip_ws s1) as [|c' r']; [simplify_eq; by left|].
      destruct (c' =? 125)%N; [done|]. by eapply IHmembers. }
    destruct (c =? 91)%N.
    { destruct depth as [|depth']; [simplify_eq; right; by right|].
      destruct (skip_ws s1) as [|c' r']; [simplify_eq; by left|].
      destruct (c' =? 93)%N; [done|]. by eapply IHelements. }
    unfold scan_constant, scan_number in H.
    repeat case_match; simplify_eq; (by left) || (right; by left).
  - intros depth s pairs e. cbn [scan_members]. intros H.
    destruct s as [|q s1]; [simplify_eq; by left|].
    destruct (q =? 34)%N; [|simplify_eq; by left].
    destruct (scanstring s1) as [[key s2]|]; [|simplify_eq; by left].
    destruct (skip_ws s2) as [|c s3]; [simplify_eq; by left|].
    destruct (c =? 58)%N; [|simplify_eq; by left].
    destruct (scan_once depth fuel (skip_ws s3)) as [[val s4]|e'] eqn:Hval;
      [|simplify_eq; by eapply IHonce].
    destruct (skip_ws s4) as [|c' s5]; [simplify_eq; by left|].
    destruct (c' =? 125)%N; [done|].
    destruct (c' =? 44)%N; [|simplify_eq; by left].
    by eapply IHmembers.
  - intros depth s values e. cbn [scan_elements]. intros H.
    destruct (scan_once depth fuel s) as [[val s1]|e'] eqn:Hval;
      [|simplify_eq; by eapply IHonce].
    destruct (skip_ws s1) as [|c s2]; [simplify_eq; by left|].
    destruct (c =? 93)%N; [done|].
    destruct (c =? 44)%N; [|simplify_eq; by left].
    by eapply IHelements.
Qed.

Lemma json_loads_raises (depth : nat) (s : text) (e : exn) :
  json_loads depth s = Raise e -> decoder_exception e.
Proof.
  unfold json_loads.
  destruct (scan_once _ _ _) as [[v r]|e'] eqn:Hscan.
  - destruct (skip_ws r); [done|]. intros [= <-]. by left.
  - intros [= <-]. by eapply (proj1 (scan_raises _)).
Qed.

Lemma raise_for_status_None (r : response) :
  raise_for_status r = None <-> ~ (400 <= status_code r < 600).
Proof.
  unfold raise_for_status.
  destruct (400 <=? status_code r) eqn:H4, (status_code r <? 500) eqn:H5,
    (500 <=? status_code r) eqn:H6, (status_code r <? 600) eqn:H7; cbn;
    split; (done || lia).
Qed.

(** C7: each of the three operations of the client returns the parsed body
    when [requests.get] returns a response whose status is no error status
    and whose body decodes, and returns [None] after printing one error line
    when [requests.get] raises a request exception or the status is an error
    status (400 to 599).  A body that is not JSON does the one or the other
    with the class of [body_error].  The exceptions that leave the operation
    are those that are no request exceptions: one that [requests.get]
    raises, [body_error] when it is none, and the [ValueError] or the
    [RecursionError] that decoding the body raises. *)
Theorem api_client_errors_caught :
  forall call : api_call,
    exists url params,
      run_call call = fetch url params /\
      (forall r v,
          requests_get url params = GetReturns r ->
          ~ (400 <= status_code r < 600) ->
          json_loads response_depth (body r) = Ok v ->
          run_call call = (Ok v, [])) /\
      (forall e message,
          requests_get url params = GetRaises e message ->
          is_request_exception e = true ->
          run_call call = (Ok JNull, [error_line message])) /\
      (forall r,
          requests_get url params = GetReturns r ->
          400 <= status_code r < 600 ->
          exists message, run_call call = (Ok JNull, [error_line message])) /\
      (forall r,
          requests_get url params = GetReturns r ->
          ~ (400 <= status_code r < 600) ->
          json_loads response_depth (body r) = Raise JSONDecodeError ->
          run_call call =
            if is_request_exception body_error
            then (Ok JNull, [error_line (decode_error_message (body r))])
            else (Raise body_error, [])) /\
      (forall e,
          (run_call call).1 = Raise e <->
          is_request_exception e = false /\
          ((exists message, requests_get url params = GetRaises e message) \/
           (exists r, requests_get url params = GetReturns r /\
                      ~ (400 <= status_code r < 600) /\
                      (json_loads response_depth (body r) = Raise JSONDecodeError /\
                       e = body_error \/
                       json_loads response_depth (body r) = Raise e /\
                       (e = ValueError \/ e = RecursionError))))).
Proof.
  intros call. destruct (run_call_fetch call) as (url & params & ->).
  exists url, params. split; [done|]. unfold fetch.
  split; [|split; [|split; [|split]]].
  - intros r v -> Hr ->. by rewrite (proj2 (raise_for_status_None r) Hr).
  - by intros e message -> ->.
  - intros r -> Hr. destruct (raise_for_status r) as [message|] eqn:Hraise.
    + by exists message.
    + by apply raise_for_status_None in Hraise.
  - intros r -> Hr ->. by rewrite (proj2 (raise_for_status_None r) Hr).
  - intros e. destruct (requests_get url params) as [e' message|r].
    { split.
      - destruct (is_request_exception e') eqn:He; cbn; [done|].
        intros [= ->]. split; [done|]. left. by exists message.
      - intros [He [[message' [= -> _]]|(r & [=] & _)]]. by rewrite He. }
    destruct (raise_for_status r) eqn:Hraise.
    { split; [done|]. intros [_ [[message [=]]|(r' & [= <-] & Hr & _)]].
      by apply raise_for_status_None in Hr; rewrite Hr in Hraise. }
    apply raise_for_status_None in Hraise.
    destruct (json_loads response_depth (body r)) as [v|e'] eqn:Hload.
    { split; [done|].
      intros [_ [[message [=]]|(r' & [= <-] & _ & [[Hl _]|[Hl _]])]];
        by rewrite Hload in Hl. }
    destruct (json_loads_raises _ _ _ Hload) as [->|He'].
    + split.
      * destruct (is_request_exception body_error) eqn:He; cbn; [done|].
        intros [= ->]. split; [done|]. right. exists r. split; [done|].
        split; [done|]. by left.
      * intros [He [[message [=]]|(r' & [= <-] & _ & [[_ ->]|[Hl [->| ->]]])]].
        -- by rewrite He.
        -- by rewrite Hload in Hl.
        -- by rewrite Hload in Hl.
    + assert (e' <> JSONDecodeError) as Hne by (by destruct He' as [->| ->]).
      assert ((match e' with
               | JSONDecodeError =>
                   if is_request_exception body_error
                   then (Ok JNull, [error_line (decode_error_message (body r))])
                   else (Raise body_error, [])
               | _ => (Raise e', [])
               end : result json * list text) = (Raise e', [])) as ->
        by (by destruct e').
      cbn [fst]. split.
      * intros [= <-]. split; [by destruct He' as [->| ->]|]. right. exists r.
        split; [done|]. split; [done|]. by right.
      * intros [_ [[message [=]]|(r' & [= <-] & _ & [[Hl _]|[Hl _]])]];
          rewrite Hload in Hl; by simplify_eq.
Qed.

(** ** Loading the favourites *)

(** C8: [load_favorites] returns the empty list when the favourites file does
    not exist and when its text is not JSON (the decoder raises a
    [JSONDecodeError]), and what the text decodes to when it decodes.  The
    other exceptions of the reading leave [load_favorites]: the
    [UnicodeDecodeError] of a file that is no text in the encoding of the
    locale, the [ValueError] of an integer of more than 4300 digits and the
    [RecursionError] of too deep a nesting. *)
Theorem load_favorites_cases :
  forall files : gmap text file_content,
    (files !! FAVORITES_FILE = None -> load_favorites files = Ok (JArr [])) /\
    (forall content : text,
        files !! FAVORITES_FILE = Some (Text content) ->
        json_loads load_depth content = Raise JSONDecodeError ->
        load_favorites files = Ok (JArr [])) /\
    (forall (content : text) (v : json),
        files !! FAVORITES_FILE = Some (Text content) ->
        json_loads load_depth content = Ok v ->
        load_favorites files = Ok v) /\
    (forall e : exn,
        load_favorites files = Raise e <->
        files !! FAVORITES_FILE = Some Undecodable /\ e = UnicodeDecodeError \/
        exists content : text,
          files !! FAVORITES_FILE = Some (Text content) /\
          json_loads load_depth content = Raise e /\
          (e = ValueError \/ e = RecursionError)).
Proof.
  intros files. unfold load_favorites. split; [|split; [|split]].
  - by intros ->.
  - by intros content -> ->.
  - by intros content v -> ->.
  - intros e. destruct (files !! FAVORITES_FILE) as [[content|]|].
    + destruct (json_loads load_depth content) as [v|e'] eqn:Hload.
      { split; [done|]. intros [[[=] _]|(content' & [= <-] & Hl & _)].
        by rewrite Hload in Hl. }
      destruct (json_loads_raises _ _ _ Hload) as [->|He'].
      * split; [done|]. intros [[[=] _]|(content' & [= <-] & Hl & [->| ->])];
          by rewrite Hload in Hl.
      * assert ((match e' with
                 | JSONDecodeError => Ok (JArr [])
                 | _ => Raise e'
                 end : result json) = Raise e') as ->
          by (by destruct He' as [->| ->]).
        split.
        -- intros [= <-]. right. by exists content.
        -- intros [[[=] _]|(content' & [= <-] & Hl & _)].
           rewrite Hload in Hl. by simplify_eq.
    + split.
      * intros [= <-]. by left.
      * intros [[_ ->]|(content & [=] & _)]. done.
    + split; [done|]. intros [[[=] _]|(content & [=] & _)].
Qed.

(** ** The favourites toggle *)

Lemma py_eq_int (a b : Z) : py_eq (JInt a) (JInt b) = bool_decide (a = b).
Proof.
  cbn. destruct (Qeq_bool _ _) eqn:Hq.
  - apply Qeq_bool_iff in Hq. unfold Qeq in Hq. cbn in Hq.
    rewrite bool_decide_eq_true_2; [done|lia].
  - case_bool_decide as Hab; [|done]. subst b.
    rewrite (proj2 (Qeq_bool_iff _ _)) in Hq; [done|reflexivity].
Qed.

Lemma int_id_subscript (r : json) (z : Z) :
  int_id r = Some z -> subscript r (txt "id") = Ok (JInt z).
Proof.
  unfold int_id. destruct (subscript r _) as [[]|]; try done. by intros [= ->].
Qed.

Lemma any_same_id_ids (recipe : json) (z : Z) (favs : list json) (zs : list Z) :
  int_id recipe = Some z ->
  ids_of favs zs ->
  any_same_id recipe favs = Ok (bool_decide (z ∈ zs)).
Proof.
  intros Hz Hids. induction Hids as [|fav y favs zs Hy _ IH].
  - cbn. by rewrite bool_decide_eq_false_2 by apply not_elem_of_nil.
  - cbn [any_same_id].
    rewrite (int_id_subscript _ _ Hy), (int_id_subscript _ _ Hz).
    cbn [mbind result_bind]. rewrite py_eq_int.
    destruct (decide (y = z)) as [->|Hyz].
    + rewrite (bool_decide_eq_true_2 (z = z)) by done.
      by rewrite bool_decide_eq_true_2 by (apply elem_of_cons; by left).
    + rewrite (bool_decide_eq_false_2 (y = z)) by done. rewrite IH.
      f_equal. apply bool_decide_ext. rewrite elem_of_cons.
      split; [by right|]. by intros [->|?].
Qed.

Lemma without_id_ids (recipe : json) (z : Z) (favs : list json) (zs : list Z) :
  int_id recipe = Some z ->
  ids_of favs zs ->
  without_id recipe favs = Ok (filter (fun fav => int_id fav ≠ Some z) favs).
Proof.
  intros Hz Hids. induction Hids as [|fav y favs zs Hy _ IH]; [done|].
  cbn [without_id].
  rewrite (int_id_subscript _ _ Hy), (int_id_subscript _ _ Hz), IH.
  cbn [mbind result_bind]. rewrite py_eq_int, filter_cons.
  destruct (decide (y = z)) as [->|Hyz].
  - rewrite (bool_decide_eq_true_2 (z = z)) by done.
    by rewrite decide_False by (intros Hne; by apply Hne).
  - rewrite (bool_decide_eq_false_2 (y = z)) by done.
    by rewrite decide_True by congruence.
Qed.

Lemma ids_of_filter (z : Z) (favs : list json) (zs : list Z) :
  ids_of favs zs ->
  ids_of (filter (fun fav => int_id fav ≠ Some z) favs) (filter (fun y => y ≠ z) zs).
Proof.
  intros Hids. induction Hids as [|fav y favs zs Hy _ IH]; [constructor|].
  rewrite !filter_cons. case_decide as H1; case_decide as H2.
  - by constructor.
  - subst y. by destruct H1.
  - destruct H2. congruence.
  - done.
Qed.

Lemma ids_of_unchanged (z : Z) (favs : list json) (zs : list Z) :
  ids_of favs zs -> z ∉ zs ->
  filter (fun fav => int_id fav ≠ Some z) favs = favs.
Proof.
  intros Hids. induction Hids as [|fav y favs zs Hy _ IH]; [done|].
  rewrite not_elem_of_cons. intros [Hzy Hz].
  rewrite filter_cons, decide_True by congruence. by rewrite IH.
Qed.

Lemma ids_of_toggled (recipe : json) (z : Z) (favs : list json) (zs : list Z) :
  int_id recipe = Some z ->
  ids_of favs zs ->
  ids_of (toggled recipe z zs favs) (toggled_ids z zs).
Proof.
  intros Hz Hids. unfold toggled, toggled_ids. case_decide.
  - by apply ids_of_filter.
  - apply Forall2_app; [done|]. by repeat constructor.
Qed.

Lemma toggled_ids_flag (z : Z) (zs : list Z) :
  bool_decide (z ∈ toggled_ids z zs) = negb (bool_decide (z ∈ zs)).
Proof.
  unfold toggled_ids. case_decide as Hin.
  - rewrite (bool_decide_eq_true_2 _ Hin). apply bool_decide_eq_false_2.
    rewrite list_elem_of_filter. by intros [? _].
  - rewrite (bool_decide_eq_false_2 _ Hin). apply bool_decide_eq_true_2.
    rewrite elem_of_app, list_elem_of_singleton. by right.
Qed.

Lemma toggled_ids_NoDup (z : Z) (zs : list Z) : NoDup zs -> NoDup (toggled_ids z zs).
Proof.
  intros Hnd. unfold toggled_ids. case_decide as Hin.
  - by apply NoDup_filter.
  - apply NoDup_app. split; [done|]. split; [|apply NoDup_singleton].
    intros y Hy. rewrite list_elem_of_singleton. by intros ->.
Qed.

(** The toggle on a state whose flag tells whether the id is in the list. *)
Lemma toggle_favorite_ids (recipe : json) (z : Z) (favs : list json) (zs : list Z)
    (w : world) :
  int_id recipe = Some z ->
  ids_of favs zs ->
  toggle_favorite recipe
    {| favorites := JArr favs; is_favorite := bool_decide (z ∈ zs); view_world := w |}
  = Ok {| favorites := JArr (toggled recipe z zs favs);
          is_favorite := bool_decide (z ∈ toggled_ids z zs);
          view_world :=
            {| files := save_favorites (JArr (toggled recipe z zs favs)) (files w);
               api_cache :=
                 if decide (z ∈ zs)
                 then delete (txt "details_" ++ int_text z) (api_cache w)
                 else api_cache w |} |}.
Proof.
  intros Hz Hids. rewrite toggled_ids_flag.
  unfold toggle_favorite, toggled. cbn [is_favorite favorites view_world].
  destruct (decide (z ∈ zs)) as [Hin|Hin].
  - rewrite (bool_decide_eq_true_2 _ Hin). cbn [py_iter mbind result_bind].
    by rewrite (without_id_ids _ _ _ _ Hz Hids), (int_id_subscript _ _ Hz).
  - by rewrite (bool_decide_eq_false_2 _ Hin).
Qed.

Lemma toggle_times_ids (n : nat) (recipe : json) (z : Z) (favs : list json)
    (zs : list Z) (w : world) :
  int_id recipe = Some z ->
  ids_of favs zs ->
  exists st favs' zs',
    toggle_times n recipe
      {| favorites := JArr favs; is_favorite := bool_decide (z ∈ zs); view_world := w |}
    = Ok st /\
    favorites st = JArr favs' /\
    ids_of favs' zs' /\
    is_favorite st = bool_decide (z ∈ zs').
Proof.
  intros Hz. revert favs zs w.
  induction n as [|n IH]; intros favs zs w Hids.
  - exists {| favorites := JArr favs; is_favorite := bool_decide (z ∈ zs);
              view_world := w |}, favs, zs. done.
  - cbn [toggle_times]. rewrite (toggle_favorite_ids _ _ _ _ _ Hz Hids).
    cbn [mbind result_bind].
    apply IH. by apply ids_of_toggled.
Qed.

(** C5: the toggle appends the recipe at the end of the list when no record
    of the list has its id, and otherwise removes every record with that id,
    the other records staying in their order; the new list is saved.  A
    recipe whose id is present is therefore never added twice, and removing
    an id that is not in the list leaves the list as it is.  This holds at
    every use of the toggle in a visit of the recipe page, whose flag is
    computed from the list on entry and negated by each use. *)
Theorem favorites_toggle_semantics :
  forall (recipe : json) (z : Z) (favs : list json) (zs : list Z) (w : world),
    int_id recipe = Some z ->
    ids_of favs zs ->
    let st := {| favorites := JArr favs; is_favorite := bool_decide (z ∈ zs);
                 view_world := w |} in
    (load_favorites (files w) = Ok (JArr favs) -> view_enter recipe w = Ok st) /\
    (exists st' favs' zs',
        toggle_favorite recipe st = Ok st' /\
        favorites st' = JArr favs' /\
        files (view_world st') !! FAVORITES_FILE = Some (Text (json_dumps (JArr favs'))) /\
        (z ∉ zs -> favs' = favs ++ [recipe]) /\
        (z ∈ zs ->
         favs' = filter (fun fav => int_id fav ≠ Some z) favs /\
         Forall (fun fav => int_id fav ≠ Some z) favs') /\
        ids_of favs' zs' /\
        is_favorite st' = bool_decide (z ∈ zs')) /\
    (forall n, exists st' favs' zs',
        toggle_times n recipe st = Ok st' /\
        favorites st' = JArr favs' /\
        ids_of favs' zs' /\
        is_favorite st' = bool_decide (z ∈ zs')) /\
    (z ∉ zs -> without_id recipe favs = Ok favs).
Proof.
  intros recipe z favs zs w Hz Hids st. subst st.
  split; [|split; [|split]].
  - intros Hload. unfold view_enter. rewrite Hload. cbn [mbind result_bind py_iter].
    by rewrite (any_same_id_ids _ _ _ _ Hz Hids).
  - eexists _, (toggled recipe z zs favs), (toggled_ids z zs).
    split; [by apply toggle_favorite_ids|].
    cbn [favorites view_world files is_favorite].
    split; [done|]. split; [apply lookup_insert_eq|].
    unfold toggled.
    split; [|split; [|split]].
    + intros Hin. by rewrite decide_False.
    + intros Hin. rewrite decide_True by done. split; [done|].
      apply Forall_forall. intros fav Hfav.
      by apply list_elem_of_filter in Hfav as [? _].
    + by apply ids_of_toggled.
    + done.
  - intros n. by apply toggle_times_ids.
  - intros Hin. rewrite (without_id_ids _ _ _ _ Hz Hids).
    by rewrite (ids_of_unchanged _ _ _ Hids Hin).
Qed.

Lemma toggle_step_toggled (favs : list json) (zs : list Z) (recipe : json) (z : Z)
    (favs' : list json) :
  ids_of favs zs ->
  int_id recipe = Some z ->
  toggle_step favs recipe favs' <-> favs' = toggled recipe z zs favs.
Proof.
  intros Hids Hz. split.
  - intros (b & w & st' & Hany & Htoggle & Hfavs).
    rewrite (any_same_id_ids _ _ _ _ Hz Hids) in Hany. injection Hany as <-.
    rewrite (toggle_favorite_ids _ _ _ _ _ Hz Hids) in Htoggle.
    injection Htoggle as <-. cbn in Hfavs. by injection Hfavs as <-.
  - intros ->.
    exists (bool_decide (z ∈ zs)), {| files := ∅; api_cache := ∅ |}.
    eexists. split; [by apply any_same_id_ids|].
    split; [by apply toggle_favorite_ids|done].
Qed.

(** C6: when no two records of the favourites list share an id, the toggle
    produces a list in which no two records share an id; so the ids are
    pairwise distinct in every list that toggles produce from the empty
    list. *)
Theorem favorites_ids_unique :
  (forall (favs : list json) (zs : list Z) (recipe : json) (z : Z),
      ids_of favs zs ->
      NoDup zs ->
      int_id recipe = Some z ->
      (exists favs', toggle_step favs recipe favs') /\
      (forall favs',
          toggle_step favs recipe favs' ->
          exists zs', ids_of favs' zs' /\ NoDup zs')) /\
  (forall favs : list json,
      reachable favs -> exists zs, ids_of favs zs /\ NoDup zs).
Proof.
  assert (forall (favs : list json) (zs : list Z) (recipe : json) (z : Z) favs',
             ids_of favs zs -> NoDup zs -> int_id recipe = Some z ->
             toggle_step favs recipe favs' ->
             exists zs', ids_of favs' zs' /\ NoDup zs') as Hstep.
  { intros favs zs recipe z favs' Hids Hnd Hz Hstep.
    apply (toggle_step_toggled _ _ _ _ _ Hids Hz) in Hstep as ->.
    exists (toggled_ids z zs). split; [by apply ids_of_toggled|].
    by apply toggled_ids_NoDup. }
  split.
  - intros favs zs recipe z Hids Hnd Hz. split; [|by eauto].
    exists (toggled recipe z zs favs). by apply (toggle_step_toggled _ zs _ z).
  - intros favs Hreach.
    induction Hreach as [|favs favs' recipe z _ (zs & Hids & Hnd) Hz Hstep'].
    + exists []. split; [constructor|apply NoDup_nil_2].
    + by apply (Hstep favs zs recipe z).
Qed.

(** ** Writing the favourites and reading them back *)

(** *** Strings *)

Lemma hex_value_digit (n : N) : (n < 16)%N -> hex_value (hex_digit n) = Some n.
Proof.
  intros Hn. unfold hex_value, hex_digit.
  destruct (N.ltb_spec n 10).
  - rewrite (proj2 (N.leb_le 48 (48 + n))), (proj2 (N.leb_le (48 + n) 57)) by lia.
    cbn. f_equal. lia.
  - destruct (N.leb_spec 48 (87 + n)), (N.leb_spec (87 + n) 57); cbn; try lia.
    rewrite (proj2 (N.leb_le 97 (87 + n))), (proj2 (N.leb_le (87 + n) 102)) by lia.
    cbn. f_equal. lia.
Qed.

Lemma hex4_value_hex4 (n : N) :
  (n < 65536)%N ->
  match hex4 n with
  | [a; b; c; d] => hex4_value a b c d = Some n
  | _ => False
  end.
Proof.
  intros Hn. unfold hex4, hex4_value.
  rewrite !hex_value_digit by (apply N.mod_lt; lia).
  cbn. f_equal.
  replace (n / 4096)%N with (n / 16 / 16 / 16)%N by (by rewrite !N.Div0.div_div).
  replace (n / 256)%N with (n / 16 / 16)%N by (by rewrite !N.Div0.div_div).
  pose proof (N.div_mod' n 16) as E0.
  pose proof (N.div_mod' (n / 16) 16) as E1.
  pose proof (N.div_mod' (n / 16 / 16) 16) as E2.
  pose proof (N.div_mod' (n / 16 / 16 / 16) 16) as E3.
  pose proof (N.mod_lt n 16) as L0.
  pose proof (N.mod_lt (n / 16) 16) as L1.
  pose proof (N.mod_lt (n / 16 / 16) 16) as L2.
  pose proof (N.mod_lt (n / 16 / 16 / 16) 16) as L3.
  generalize dependent (n mod 16)%N. generalize dependent ((n / 16) mod 16)%N.
  generalize dependent ((n / 16 / 16) mod 16)%N.
  generalize dependent ((n / 16 / 16 / 16) mod 16)%N.
  generalize dependent (n / 16 / 16 / 16 / 16)%N.
  generalize dependent (n / 16 / 16 / 16)%N.
  generalize dependent (n / 16 / 16)%N. generalize dependent (n / 16)%N.
  intros. lia.
Qed.

Lemma lor_high_low (q r : N) : (r < 1024)%N -> N.lor (q * 1024) r = (q * 1024 + r)%N.
Proof.
  intros Hr. rewrite <- N.lxor_lor, N.add_nocarry_lxor; try done.
  all: apply N.bits_inj_0; intros m; rewrite N.land_spec.
  all: destruct (N.lt_ge_cases m 10) as [Hm|Hm].
  all: try (change 1024%N with (2 ^ 10)%N; by rewrite N.mul_pow2_bits_low).
  all: rewrite <- (N.mod_small r (2 ^ 10)) by done.
  all: by rewrite N.mod_pow2_bits_high, andb_false_r.
Qed.

Lemma surrogates_join (c : N) :
  (65536 <= c < 1114112)%N ->
  let n := (c - 65536)%N in
  let hi := N.lor 55296 (N.land (N.shiftr n 10) 1023) in
  let lo := N.lor 56320 (N.land n 1023) in
  is_high_surrogate hi = true /\ is_low_surrogate lo = true /\
  (hi < 65536)%N /\ (lo < 65536)%N /\ join_surrogates hi lo = c.
Proof.
  intros Hc n hi lo.
  assert (n < 1048576)%N as Hn by (subst n; lia).
  assert (n / 1024 < 1024)%N as Hq by (apply N.Div0.div_lt_upper_bound; lia).
  assert (n mod 1024 < 1024)%N as Hr by (apply N.mod_lt; lia).
  pose proof (N.div_mod' n 1024) as Hdm.
  assert (hi = 55296 + n / 1024)%N as ->.
  { subst hi. rewrite N.shiftr_div_pow2. change (2 ^ 10)%N with 1024%N.
    change 1023%N with (N.ones 10). rewrite N.land_ones.
    change (2 ^ 10)%N with 1024%N. rewrite (N.mod_small (n / 1024)) by done.
    change 55296%N with (54 * 1024)%N. by apply lor_high_low. }
  assert (lo = 56320 + n mod 1024)%N as ->.
  { subst lo. change 1023%N with (N.ones 10). rewrite N.land_ones.
    change (2 ^ 10)%N with 1024%N.
    change 56320%N with (55 * 1024)%N. by apply lor_high_low. }
  unfold is_high_surrogate, is_low_surrogate, join_surrogates.
  generalize dependent (n / 1024)%N. generalize dependent (n mod 1024)%N.
  intros r Hr q Hq Hdm.
  replace (55296 + q - 55296)%N with q by lia.
  replace (56320 + r - 56320)%N with r by lia.
  rewrite N.shiftl_mul_pow2. change (2 ^ 10)%N with 1024%N.
  rewrite lor_high_low by done.
  repeat split; try (apply andb_true_iff; split; apply N.leb_le); lia.
Qed.

Lemma scanstring_raw (c : N) (s : text) :
  c ≠ 34%N -> c ≠ 92%N -> (31 < c)%N ->
  scanstring (c :: s) =
    match scanstring s with
    | Some (str, r) => Some (c :: str, r)
    | None => None
    end.
Proof.
  intros H1 H2 H3. cbn [scanstring].
  rewrite (proj2 (N.eqb_neq c 34)), (proj2 (N.eqb_neq c 92)) by done.
  by rewrite (proj2 (N.leb_gt c 31)).
Qed.

Lemma scanstring_simple (e ch : N) (s : text) :
  simple_escape e = Some ch ->
  scanstring (92%N :: e :: s) =
    match scanstring s with
    | Some (str, r) => Some (ch :: str, r)
    | None => None
    end.
Proof.
  intros He. cbn [scanstring]. cbn [N.eqb Pos.eqb].
  destruct (N.eqb_spec e 117) as [->|_]; [discriminate He|].
  by rewrite He.
Qed.

Lemma scanstring_u_single (uni : N) (s : text) :
  (uni < 65536)%N ->
  is_high_surrogate uni = false ->
  scanstring (u_escape uni ++ s) =
    match scanstring s with
    | Some (str, r) => Some (uni :: str, r)
    | None => None
    end.
Proof.
  intros Hlt Hhi. pose proof (hex4_value_hex4 uni Hlt) as Hhex.
  unfold u_escape. destruct (hex4 uni) as [|a [|b [|c [|d [|]]]]]; try done.
  cbn [app scanstring]. cbn [N.eqb Pos.eqb]. by rewrite Hhex, Hhi.
Qed.

Lemma scanstring_u_pair (hi lo : N) (s : text) :
  (hi < 65536)%N -> (lo < 65536)%N ->
  is_high_surrogate hi = true ->
  is_low_surrogate lo = true ->
  scanstring (u_escape hi ++ u_escape lo ++ s) =
    match scanstring s with
    | Some (str, r) => Some (join_surrogates hi lo :: str, r)
    | None => None
    end.
Proof.
  intros Hhi Hlo Hh Hl.
  pose proof (hex4_value_hex4 hi Hhi) as Hhex1.
  pose proof (hex4_value_hex4 lo Hlo) as Hhex2.
  unfold u_escape.
  destruct (hex4 hi) as [|a [|b [|c [|d [|]]]]]; try done.
  destruct (hex4 lo) as [|a' [|b' [|c' [|d' [|]]]]]; try done.
  cbn [app scanstring]. cbn [N.eqb Pos.eqb andb]. by rewrite Hhex1, Hh, Hhex2, Hl.
Qed.

Lemma scanstring_escape_char (c : N) (s : text) :
  is_scalar_value c = true ->
  scanstring (escape_char c ++ s) =
    match scanstring s with
    | Some (str, r) => Some (c :: str, r)
    | None => None
    end.
Proof.
  intros Hc. unfold escape_char.
  destruct (N.eqb_spec c 34) as [->|?]; [by apply (scanstring_simple 34 34)|].
  destruct (N.eqb_spec c 92) as [->|?]; [by apply (scanstring_simple 92 92)|].
  destruct (N.eqb_spec c 10) as [->|?]; [by apply (scanstring_simple 110 10)|].
  destruct (N.eqb_spec c 13) as [->|?]; [by apply (scanstring_simple 114 13)|].
  destruct (N.eqb_spec c 9) as [->|?]; [by apply (scanstring_simple 116 9)|].
  destruct (N.eqb_spec c 8) as [->|?]; [by apply (scanstring_simple 98 8)|].
  destruct (N.eqb_spec c 12) as [->|?]; [by apply (scanstring_simple 102 12)|].
  destruct (is_printable c) eqn:Hp.
  { unfold is_printable in Hp. apply andb_true_iff in Hp as [Hp _].
    apply N.leb_le in Hp. apply scanstring_raw; (done || lia). }
  unfold is_scalar_value in Hc.
  destruct (N.ltb_spec c 65536) as [Hlt|Hge].
  - apply scanstring_u_single; [done|].
    unfold is_high_surrogate. apply andb_false_iff.
    destruct (N.ltb_spec c 55296); [left; apply N.leb_gt; lia|].
    destruct (N.ltb_spec 57343 c); [|done]. right. apply N.leb_gt. lia.
  - assert (65536 <= c < 1114112)%N as Hrange.
    { split; [done|]. destruct (N.ltb_spec c 55296); [lia|].
      cbn in Hc. apply andb_true_iff in Hc as [_ Hc]. by apply N.ltb_lt in Hc. }
    destruct (surrogates_join c Hrange) as (Hh & Hl & Hhi & Hlo & Hjoin).
    rewrite <- app_assoc, scanstring_u_pair by done. by rewrite Hjoin.
Qed.

Lemma scanstring_escape (s rest : text) :
  str_ok s = true ->
  scanstring (flat_map escape_char s ++ 34%N :: rest) = Some (s, rest).
Proof.
  induction s as [|c s IH]; intros Hok; [done|].
  cbn in Hok. apply andb_true_iff in Hok as [Hc Hs].
  cbn [flat_map]. rewrite <- app_assoc, scanstring_escape_char by done.
  by rewrite IH.
Qed.

(** *** Numbers *)

Lemma value_end_not_digit (c : N) (rest : text) :
  value_end (c :: rest) = true ->
  is_digit c = false /\ c ≠ 46%N /\ c ≠ 101%N /\ c ≠ 69%N /\ c ≠ 45%N /\ c ≠ 43%N.
Proof.
  cbn. intros [->%N.eqb_eq| ->%N.eqb_eq]%orb_true_iff; done.
Qed.

Lemma span_digits_app (s rest ds r : text) :
  value_end rest = true ->
  span_digits s = (ds, r) ->
  span_digits (s ++ rest) = (ds, r ++ rest).
Proof.
  intros Hend. revert ds r. induction s as [|c s IH]; intros ds r.
  - intros [= <- <-]. destruct rest as [|c rest]; [done|].
    destruct (value_end_not_digit c rest Hend) as [Hd _]. cbn. by rewrite Hd.
  - cbn. destruct (is_digit c); [|by intros [= <- <-]].
    destruct (span_digits s) as [ds' r'] eqn:Hs. intros [= <- <-].
    by rewrite (IH ds' r').
Qed.

Lemma scan_int_part_app (s rest ip r : text) :
  value_end rest = true ->
  scan_int_part s = Some (ip, r) ->
  scan_int_part (s ++ rest) = Some (ip, r ++ rest).
Proof.
  intros Hend. destruct s as [|c s]; [done|]. cbn.
  destruct (c =? 48)%N; [by intros [= <- <-]|].
  destruct (is_digit c); [|done].
  destruct (span_digits s) as [ds' r'] eqn:Hs. intros [= <- <-].
  by rewrite (span_digits_app s rest ds' r').
Qed.

Lemma scan_frac_app (s rest fp r : text) :
  value_end rest = true ->
  scan_frac s = (fp, r) ->
  scan_frac (s ++ rest) = (fp, r ++ rest).
Proof.
  intros Hend. destruct s as [|p [|d s]].
  - intros [= <- <-]. destruct rest as [|c [|c' rest]]; try done.
    destruct (value_end_not_digit c (c' :: rest) Hend) as (_ & H46 & _).
    cbn. by rewrite (proj2 (N.eqb_neq c 46)).
  - intros [= <- <-]. destruct rest as [|c rest]; [done|].
    destruct (value_end_not_digit c rest Hend) as (Hd & _).
    cbn. by rewrite Hd, andb_false_r.
  - cbn. destruct ((p =? 46)%N && is_digit d); [|by intros [= <- <-]].
    destruct (span_digits s) as [ds' r'] eqn:Hs. intros [= <- <-].
    by rewrite (span_digits_app s rest ds' r').
Qed.

Lemma scan_exp_app (s rest ep r : text) :
  value_end rest = true ->
  scan_exp s = (ep, r) ->
  scan_exp (s ++ rest) = (ep, r ++ rest).
Proof.
  intros Hend. destruct s as [|e [|g [|d s]]].
  - intros [= <- <-]. destruct rest as [|c rest]; [done|].
    destruct (value_end_not_digit c rest Hend) as (_ & _ & H101 & H69 & _).
    cbn. by rewrite (proj2 (N.eqb_neq c 101)), (proj2 (N.eqb_neq c 69)).
  - cbn. destruct ((e =? 101)%N || (e =? 69)%N); intros [= <- <-]; [|done].
    destruct rest as [|c [|c' rest]]; [done| |].
    + destruct (value_end_not_digit c [] Hend) as (Hd & _). by rewrite Hd.
    + destruct (value_end_not_digit c (c' :: rest) Hend) as (Hd & _ & _ & _ & H45 & H43).
      by rewrite (proj2 (N.eqb_neq c 45)), (proj2 (N.eqb_neq c 43)), Hd.
  - cbn. destruct ((e =? 101)%N || (e =? 69)%N); [|by intros [= <- <-]].
    destruct rest as [|c rest]; [by rewrite app_nil_r|].
    destruct (value_end_not_digit c rest Hend) as (Hd & _).
    rewrite Hd, andb_false_r.
    destruct (is_digit g); by intros [= <- <-].
  - cbn. destruct ((e =? 101)%N || (e =? 69)%N); [|by intros [= <- <-]].
    destruct (((g =? 45)%N || (g =? 43)%N) && is_digit d).
    { destruct (span_digits s) as [ds' r'] eqn:Hs. intros [= <- <-].
      by rewrite (span_digits_app s rest ds' r'). }
    destruct (is_digit g); [|by intros [= <- <-]].
    destruct (is_digit d).
    + destruct (span_digits s) as [ds' r'] eqn:Hs. intros [= <- <-].
      by rewrite (span_digits_app s rest ds' r').
    + by intros [= <- <-].
Qed.

Lemma number_token_app (s rest lit r : text) (is_float : bool) :
  value_end rest = true ->
  number_token s = Some (lit, is_float, r) ->
  number_token (s ++ rest) = Some (lit, is_float, r ++ rest).
Proof.
  intros Hend. unfold number_token.
  assert (forall s0 sign,
    match scan_int_part s0 with
    | Some (ip, s1) =>
        let '(fp, s2) := scan_frac s1 in
        let '(ep, s3) := scan_exp s2 in
        Some (sign ++ ip ++ fp ++ ep,
              negb (bool_decide (fp = [])) || negb (bool_decide (ep = [])), s3)
    | None => None
    end = Some (lit, is_float, r) ->
    match scan_int_part (s0 ++ rest) with
    | Some (ip, s1) =>
        let '(fp, s2) := scan_frac s1 in
        let '(ep, s3) := scan_exp s2 in
        Some (sign ++ ip ++ fp ++ ep,
              negb (bool_decide (fp = [])) || negb (bool_decide (ep = [])), s3)
    | None => None
    end = Some (lit, is_float, r ++ rest)) as Hbody.
  { intros s0 sign.
    destruct (scan_int_part s0) as [[ip s1]|] eqn:Hip; [|done].
    rewrite (scan_int_part_app _ _ _ _ Hend Hip).
    destruct (scan_frac s1) as [fp s2] eqn:Hfp.
    rewrite (scan_frac_app _ _ _ _ Hend Hfp).
    destruct (scan_exp s2) as [ep s3] eqn:Hep.
    rewrite (scan_exp_app _ _ _ _ Hend Hep).
    by intros [= <- <- <-]. }
  destruct s as [|c s].
  - by intros ?.
  - cbn [app]. destruct (c =? 45)%N; apply Hbody.
Qed.

Lemma span_digits_uint_text (u : uint) : span_digits (uint_text u) = (uint_text u, []).
Proof. induction u as [|u IH|u IH|u IH|u IH|u IH|u IH|u IH|u IH|u IH|u IH]; cbn; by rewrite ?IH. Qed.

Lemma uint_of_text_uint_text (u : uint) : uint_of_text (uint_text u) = u.
Proof. induction u as [|u IH|u IH|u IH|u IH|u IH|u IH|u IH|u IH|u IH|u IH]; cbn; by rewrite ?IH. Qed.

(** The decimal form of a positive number starts with a digit other than 0. *)
Lemma to_uint_head (p : positive) :
  match Pos.to_uint p with
  | Nil | D0 _ => False
  | _ => True
  end.
Proof.
  pose proof (DecimalPos.Unsigned.to_of (Pos.to_uint p)) as Hnorm.
  rewrite DecimalPos.Unsigned.of_to in Hnorm. cbn [N.to_uint] in Hnorm.
  pose proof (DecimalPos.Unsigned.to_uint_nonzero p) as Hnz.
  pose proof (DecimalPos.Unsigned.to_uint_nonnil p) as Hnn.
  destruct (Pos.to_uint p) as [|u| | | | | | | | |]; try done.
  unfold unorm in Hnorm. cbn [nzhead] in Hnorm.
  destruct (nzhead u) as [|u0| | | | | | | | |] eqn:Hu; try done.
  by destruct (nzhead_nonzero u u0).
Qed.

Lemma scan_int_part_uint (p : positive) :
  scan_int_part (uint_text (Pos.to_uint p)) = Some (uint_text (Pos.to_uint p), []).
Proof.
  pose proof (to_uint_head p) as Hhead.
  destruct (Pos.to_uint p) as [|u|u|u|u|u|u|u|u|u|u]; try done;
    cbn; by rewrite span_digits_uint_text.
Qed.

Lemma number_token_int_text (z : Z) :
  number_token (int_text z) = Some (int_text z, false, []).
Proof.
  unfold int_text, number_token. destruct z as [|p|p]; cbn [Z.to_int].
  - done.
  - pose proof (to_uint_head p) as Hhead. pose proof (scan_int_part_uint p) as Hscan.
    destruct (uint_text (Pos.to_uint p)) as [|c ds] eqn:Htext.
    { by destruct (Pos.to_uint p). }
    assert ((c =? 45)%N = false) as ->.
    { destruct (Pos.to_uint p); try done; by injection Htext as <- _. }
    rewrite Hscan. cbn. by rewrite app_nil_r.
  - cbn [uint_text]. cbn [N.eqb Pos.eqb]. rewrite scan_int_part_uint.
    cbn. by rewrite app_nil_r.
Qed.

Lemma int_of_literal_int_text (z : Z) : int_of_literal (int_text z) = z.
Proof.
  rewrite <- (DecimalZ.of_to z) at 2.
  unfold int_text, int_of_literal. destruct z as [|p|p]; cbn [Z.to_int].
  - done.
  - pose proof (to_uint_head p) as Hhead.
    destruct (uint_text (Pos.to_uint p)) as [|c ds] eqn:Htext.
    { by destruct (Pos.to_uint p). }
    assert ((c =? 45)%N = false) as ->.
    { destruct (Pos.to_uint p); try done; by injection Htext as <- _. }
    by rewrite <- Htext, uint_of_text_uint_text.
  - cbn [uint_text]. cbn [N.eqb Pos.eqb]. by rewrite uint_of_text_uint_text.
Qed.

(** *** Values *)

Lemma json_ind' (P : json -> Prop) :
  P JNull ->
  (forall b, P (JBool b)) ->
  (forall z, P (JInt z)) ->
  (forall f, P (JFloat f)) ->
  (forall s, P (JStr s)) ->
  (forall l, Forall P l -> P (JArr l)) ->
  (forall d, Forall (fun kv => P kv.2) d -> P (JObj d)) ->
  forall v, P v.
Proof.
  intros Hnull Hbool Hint Hfloat Hstr Harr Hobj.
  fix IH 1.
  intros [|b|z|f|s|l|d];
    [exact Hnull|apply Hbool|apply Hint|apply Hfloat|apply Hstr| |].
  - apply Harr. induction l as [|x l IHl]; constructor; [apply IH|apply IHl].
  - apply Hobj. induction d as [|[k x] d IHd]; constructor; [apply IH|apply IHd].
Qed.

Lemma encode_JArr (level : nat) (x : json) (l : list json) :
  encode level (JArr (x :: l)) =
    91%N :: newline_indent (S level) ++ encode (S level) x ++
    encode_items (S level) l ++ newline_indent level ++ [93%N].
Proof.
  cbn [encode]. do 3 f_equal. f_equal.
  induction l as [|y l IH]; [done|]. cbn [encode_items]. by rewrite <- IH.
Qed.

Lemma encode_JObj (level : nat) (k : text) (x : json) (d : list (text * json)) :
  encode level (JObj ((k, x) :: d)) =
    123%N :: newline_indent (S level) ++
    encode_string k ++ [58%N; 32%N] ++ encode (S level) x ++
    encode_members (S level) d ++ newline_indent level ++ [125%N].
Proof.
  cbn [encode app]. do 7 f_equal.
  induction d as [|[k' y] d IH]; [done|]. cbn [encode_members app]. by rewrite <- IH.
Qed.

Lemma json_size_JArr (l : list json) : json_size (JArr l) = S (list_size l).
Proof. reflexivity. Qed.

Lemma json_size_JObj (d : list (text * json)) : json_size (JObj d) = S (members_size d).
Proof. reflexivity. Qed.

Lemma wf_value_JArr (l : list json) : wf_value (JArr l) = forallb wf_value l.
Proof. cbn [wf_value]. induction l as [|x l IH]; cbn; by rewrite ?IH. Qed.

Lemma wf_value_JObj (d : list (text * json)) :
  wf_value (JObj d) =
    bool_decide (NoDup (map fst d)) &&
    forallb (fun kv => str_ok kv.1 && wf_value kv.2) d.
Proof.
  cbn [wf_value]. f_equal. induction d as [|[k x] d IH]; cbn; by rewrite ?IH.
Qed.

Lemma json_depth_JArr (l : list json) : json_depth (JArr l) = S (list_depth l).
Proof. reflexivity. Qed.

Lemma json_depth_JObj (d : list (text * json)) : json_depth (JObj d) = S (members_depth d).
Proof. reflexivity. Qed.

Lemma skip_ws_newline_indent (level : nat) (s : text) :
  skip_ws (newline_indent level ++ s) = skip_ws s.
Proof.
  unfold newline_indent. cbn [app skip_ws is_ws N.eqb Pos.eqb orb].
  induction (4 * level)%nat as [|n IH]; [done|]. cbn. apply IH.
Qed.

Lemma skip_ws_head (c : N) (s : text) : is_ws c = false -> skip_ws (c :: s) = c :: s.
Proof. intros Hc. cbn. by rewrite Hc. Qed.

Lemma number_token_head (s : text) (r : text * bool * text) :
  number_token s = Some r ->
  (exists c s', s = c :: s' /\ is_digit c = true) \/
  (exists d s', s = 45%N :: d :: s' /\ is_digit d = true).
Proof.
  unfold number_token. destruct s as [|c s]; [done|].
  destruct (N.eqb_spec c 45) as [->|Hc].
  - destruct s as [|d s]; [done|]. cbn.
    destruct (N.eqb_spec d 48) as [->|_]; [intros _; right; by eauto|].
    destruct (is_digit d) eqn:Hd; [intros _; right; by eauto|done].
  - cbn. destruct (N.eqb_spec c 48) as [->|_]; [intros _; left; by eauto|].
    destruct (is_digit c) eqn:Hd; [intros _; left; by eauto|done].
Qed.

Lemma is_digit_range (c : N) : is_digit c = true -> (48 <= c <= 57)%N.
Proof.
  unfold is_digit. intros [H1 H2]%andb_true_iff.
  apply N.leb_le in H1. apply N.leb_le in H2. done.
Qed.

Lemma scan_once_number (depth fuel : nat) (t rest : text) (is_float : bool) :
  number_token t = Some (t, is_float, []) ->
  value_end rest = true ->
  (is_float = false -> literal_digits t <= max_str_digits) ->
  scan_once depth (S fuel) (t ++ rest) =
    Ok (if is_float then JFloat (float_of_literal t) else JInt (int_of_literal t),
        rest).
Proof.
  intros Htoken Hend Hdigits.
  assert (scan_number (t ++ rest) =
          Ok (if is_float then JFloat (float_of_literal t)
              else JInt (int_of_literal t), rest)) as Hnum.
  { unfold scan_number. rewrite (number_token_app _ _ _ _ _ Hend Htoken).
    destruct is_float; [done|].
    by rewrite (proj2 (Z.ltb_ge _ _) (Hdigits eq_refl)). }
  rewrite <- Hnum.
  destruct (number_token_head _ _ Htoken)
    as [(c & s' & -> & Hc)|(d & s' & -> & Hd)].
  - apply is_digit_range in Hc. cbn [app scan_once].
    decide_eqb c. unfold scan_constant.
    unfold lit_null, lit_true, lit_false, lit_NaN, lit_Infinity, lit_NegInfinity.
    cbn [starts_with]. by decide_eqb c.
  - apply is_digit_range in Hd. cbn [app scan_once].
    eval_eqb. cbv iota. unfold scan_constant.
    unfold lit_null, lit_true, lit_false, lit_NaN, lit_Infinity, lit_NegInfinity.
    cbn [starts_with]. eval_eqb. cbv iota. by decide_eqb d.
Qed.

Lemma number_token_starts (t rest : text) (r : text * bool * text) :
  number_token t = Some r -> starts_value (t ++ rest).
Proof.
  intros Htoken.
  destruct (number_token_head _ _ Htoken)
    as [(c & s' & -> & Hc)|(d & s' & -> & Hd)].
  - apply is_digit_range in Hc. exists c, (s' ++ rest).
    split; [done|]. unfold is_ws. decide_eqb c. repeat split; (done || lia).
  - by exists 45%N, (d :: s' ++ rest).
Qed.

Lemma encode_starts (level : nat) (v : json) (rest : text) :
  starts_value (encode level v ++ rest).
Proof using Type float_repr_literal.
  destruct v as [|[]|z|[x| | |]|s|[|x l]|[|[k x] d]];
    try (eexists _, _; split; [reflexivity|done]).
  - apply (number_token_starts _ _ _ (number_token_int_text z)).
  - apply (number_token_starts _ _ _ (float_repr_literal x)).
Qed.

Lemma skip_ws_starts (s : text) : starts_value s -> skip_ws s = s.
Proof. intros (c & r & -> & Hc & _). by apply skip_ws_head. Qed.

Lemma dict_set_fresh (k : text) (v : json) (acc : list (text * json)) :
  k ∉ map fst acc -> dict_set k v acc = acc ++ [(k, v)].
Proof.
  induction acc as [|[k' v'] acc IH]; [done|].
  cbn. rewrite not_elem_of_cons. intros [Hk Hacc].
  rewrite decide_False by done. by rewrite IH.
Qed.

Lemma value_end_items (level n : nat) (l : list json) (rest : text) :
  value_end (encode_items level l ++ newline_indent n ++ rest) = true.
Proof. by destruct l. Qed.

Lemma value_end_members (level n : nat) (d : list (text * json)) (rest : text) :
  value_end (encode_members level d ++ newline_indent n ++ rest) = true.
Proof. by destruct d as [|[??]?]. Qed.

Lemma skip_ws_ws (c : N) (s : text) : is_ws c = true -> skip_ws (c :: s) = skip_ws s.
Proof. intros Hc. cbn. by rewrite Hc. Qed.

Lemma scan_elements_items (l : list json) :
  Forall reads_back l ->
  forall (x : json) (level n : nat) (rest : text) (acc : list json) (fuel depth : nat),
    reads_back x ->
    wf_value x = true ->
    forallb wf_value l = true ->
    (S (json_size x) + list_size l <= fuel)%nat ->
    (Nat.max (json_depth x) (list_depth l) <= depth)%nat ->
    scan_elements depth fuel
      (encode level x ++ encode_items level l ++ newline_indent n ++ 93%N :: rest) acc
    = Ok (JArr (acc ++ x :: l), rest).
Proof using Type float_repr_literal.
  induction 1 as [|y l Hy _ IH];
    intros x level n rest acc fuel depth Hx Hwx Hwl Hfuel Hdepth.
  - destruct fuel as [|fuel]; [cbn in Hfuel; lia|].
    cbn [scan_elements encode_items app].
    rewrite (Hx level _ fuel depth Hwx) by (done || cbn in Hfuel, Hdepth; lia).
    rewrite skip_ws_newline_indent, (skip_ws_head 93) by done.
    eval_eqb. done.
  - destruct fuel as [|fuel]; [cbn in Hfuel; lia|].
    cbn in Hwl. apply andb_true_iff in Hwl as [Hwy Hwl].
    cbn [scan_elements]. cbn [list_depth] in Hdepth.
    rewrite (Hx level _ fuel depth Hwx)
      by (apply value_end_items || cbn in Hfuel; lia).
    cbn [encode_items app]. rewrite <- !app_assoc.
    rewrite (skip_ws_head 44) by done. eval_eqb. cbv iota.
    rewrite skip_ws_newline_indent, skip_ws_starts by apply encode_starts.
    rewrite (IH y level n rest (acc ++ [x]) fuel depth Hy Hwy Hwl)
      by (cbn in Hfuel; lia).
    by rewrite <- app_assoc.
Qed.

Lemma scan_members_members (d : list (text * json)) :
  Forall (fun kv => reads_back kv.2) d ->
  forall (k : text) (x : json) (level n : nat) (rest : text)
         (acc : list (text * json)) (fuel depth : nat),
    reads_back x ->
    str_ok k = true ->
    wf_value x = true ->
    forallb (fun kv => str_ok kv.1 && wf_value kv.2) d = true ->
    NoDup (map fst (acc ++ (k, x) :: d)) ->
    (S (json_size x) + members_size d <= fuel)%nat ->
    (Nat.max (json_depth x) (members_depth d) <= depth)%nat ->
    scan_members depth fuel
      (encode_string k ++ [58%N; 32%N] ++ encode level x ++
       encode_members level d ++ newline_indent n ++ 125%N :: rest) acc
    = Ok (JObj (acc ++ (k, x) :: d), rest).
Proof using Type float_repr_literal.
  induction 1 as [|[k' y] d Hy _ IH];
    intros k x level n rest acc fuel depth Hx Hk Hwx Hwd Hnd Hfuel Hdepth.
  all: destruct fuel as [|fuel]; [cbn in Hfuel; lia|].
  all: assert (k ∉ map fst acc) as Hfresh
    by (rewrite map_app in Hnd; apply NoDup_app in Hnd as (_ & Hnd & _);
        intros Hin; apply (Hnd k Hin); cbn; apply elem_of_cons; by left).
  all: unfold encode_string; cbn [scan_members app]; eval_eqb; cbv iota.
  all: rewrite <- app_assoc; cbn [app]; rewrite scanstring_escape by done.
  all: rewrite (skip_ws_head 58) by done; eval_eqb; cbv iota.
  all: rewrite (skip_ws_ws 32) by done.
  all: rewrite skip_ws_starts by apply encode_starts.
  - rewrite (Hx level _ fuel depth Hwx) by (done || cbn in Hfuel, Hdepth; lia).
    cbn [encode_members app].
    rewrite skip_ws_newline_indent, (skip_ws_head 125) by done.
    eval_eqb. cbv iota. by rewrite dict_set_fresh.
  - cbn in Hwd. apply andb_true_iff in Hwd as [[Hk' Hwy]%andb_true_iff Hwd].
    cbn [members_depth] in Hdepth.
    rewrite (Hx level _ fuel depth Hwx)
      by (apply value_end_members || cbn in Hfuel; lia).
    cbn [encode_members app].
    repeat (rewrite <- app_assoc || rewrite <- app_comm_cons).
    rewrite (skip_ws_head 44) by done. eval_eqb. cbv iota.
    rewrite skip_ws_newline_indent, skip_ws_starts
      by (by eexists _, _; split; [reflexivity|]).
    rewrite dict_set_fresh by done.
    replace (acc ++ (k, x) :: (k', y) :: d) with ((acc ++ [(k, x)]) ++ (k', y) :: d)
      by (by rewrite <- app_assoc).
    apply IH; try done.
    + by rewrite <- app_assoc.
    + cbn in Hfuel. lia.
    + lia.
Qed.

Lemma scan_once_encode (v : json) : reads_back v.
Proof using Type float_repr_literal float_of_repr.
  induction v as [|b|z|f|s|l IH|d IH] using json_ind';
    intros level rest fuel depth Hwf Hend Hfuel Hdepth.
  all: destruct fuel as [|fuel]; [cbn in Hfuel; lia|].
  - done.
  - by destruct b.
  - cbn [encode].
    rewrite (scan_once_number depth fuel _ rest false (number_token_int_text z) Hend).
    + by rewrite int_of_literal_int_text.
    + intros _. by apply Z.leb_le.
  - destruct f as [x| | |]; try done. cbn [encode floatstr].
    rewrite (scan_once_number depth fuel _ rest true (float_repr_literal x) Hend) by done.
    by rewrite float_of_repr.
  - cbn [encode]. unfold encode_string. cbn [app scan_once]. eval_eqb. cbv iota.
    rewrite <- app_assoc. cbn [app]. by rewrite scanstring_escape.
  - rewrite json_depth_JArr in Hdepth.
    destruct depth as [|depth]; [lia|].
    destruct l as [|x l]; [done|].
    rewrite encode_JArr. cbn [app scan_once]. eval_eqb. cbv iota.
    repeat (rewrite <- app_assoc || rewrite <- app_comm_cons). cbn [app].
    rewrite skip_ws_newline_indent, skip_ws_starts by apply encode_starts.
    destruct (encode_starts (S level) x
                (encode_items (S level) l ++ newline_indent level ++ 93%N :: rest))
      as (c & r & Heq & _ & Hc & _).
    rewrite Heq. rewrite (proj2 (N.eqb_neq c 93)) by done. rewrite <- Heq.
    rewrite wf_value_JArr in Hwf. cbn in Hwf. apply andb_true_iff in Hwf as [Hwx Hwl].
    apply Forall_cons in IH as [Hx IH]. rewrite json_size_JArr in Hfuel.
    apply (scan_elements_items l IH x (S level) level rest [] fuel depth Hx Hwx Hwl).
    + cbn in Hfuel. lia.
    + cbn [list_depth] in Hdepth. lia.
  - rewrite json_depth_JObj in Hdepth.
    destruct depth as [|depth]; [lia|].
    destruct d as [|[k x] d]; [done|].
    rewrite encode_JObj. cbn [app scan_once]. eval_eqb. cbv iota.
    repeat (rewrite <- app_assoc || rewrite <- app_comm_cons). cbn [app].
    rewrite skip_ws_newline_indent, skip_ws_starts
      by (by eexists _, _; split; [reflexivity|]).
    match goal with
    | |- context [encode_string k ++ ?T] =>
        assert (exists r, encode_string k ++ T = 34%N :: r) as [r Heq] by (by eexists)
    end.
    rewrite Heq. eval_eqb. cbv iota. rewrite <- Heq.
    rewrite wf_value_JObj in Hwf. apply andb_true_iff in Hwf as [Hnd Hwf].
    apply bool_decide_eq_true in Hnd.
    cbn in Hwf. apply andb_true_iff in Hwf as [[Hk Hwx]%andb_true_iff Hwd].
    apply Forall_cons in IH as [Hx IH]. rewrite json_size_JObj in Hfuel.
    apply (scan_members_members d IH k x (S level) level rest [] fuel depth
             Hx Hk Hwx Hwd Hnd).
    + cbn in Hfuel. lia.
    + cbn [members_depth] in Hdepth. lia.
Qed.

Lemma number_token_nonempty (t : text) (r : text * bool * text) :
  number_token t = Some r -> (1 <= length t)%nat.
Proof. destruct t; [done|]. cbn. lia. Qed.

Lemma encode_items_length (level : nat) (l : list json) :
  Forall (fun v => forall level, (json_size v <= length (encode level v))%nat) l ->
  (list_size l <= length (encode_items level l))%nat.
Proof.
  induction 1 as [|y l Hy _ IH]; [done|].
  cbn [list_size encode_items]. rewrite length_cons, !length_app.
  specialize (Hy level). lia.
Qed.

Lemma encode_members_length (level : nat) (d : list (text * json)) :
  Forall (fun kv => forall level, (json_size kv.2 <= length (encode level kv.2))%nat) d ->
  (members_size d <= length (encode_members level d))%nat.
Proof.
  induction 1 as [|[k y] d Hy _ IH]; [done|].
  cbn [members_size encode_members]. rewrite length_cons, !length_app.
  specialize (Hy level). cbn in Hy. lia.
Qed.

Lemma encode_length (v : json) (level : nat) :
  (json_size v <= length (encode level v))%nat.
Proof using Type float_repr_literal.
  revert level.
  induction v as [|b|z|f|s|l IH|d IH] using json_ind'; intros level.
  - cbn. lia.
  - destruct b; cbn; lia.
  - apply (number_token_nonempty _ _ (number_token_int_text z)).
  - destruct f as [x| | |]; try (cbn; lia).
    apply (number_token_nonempty _ _ (float_repr_literal x)).
  - cbn. lia.
  - destruct l as [|x l]; [cbn; lia|].
    apply Forall_cons in IH as [Hx IH].
    rewrite encode_JArr, json_size_JArr. cbn [list_size].
    rewrite length_cons, !length_app. cbn [length].
    pose proof (encode_items_length (S level) l IH). specialize (Hx (S level)). lia.
  - destruct d as [|[k x] d]; [cbn; lia|].
    apply Forall_cons in IH as [Hx IH].
    rewrite encode_JObj, json_size_JObj. cbn [members_size].
    rewrite length_cons, !length_app. cbn [length].
    pose proof (encode_members_length (S level) d IH). specialize (Hx (S level)).
    cbn in Hx. lia.
Qed.

(** What [json.dump] writes, [json.load] reads back. *)
Lemma json_loads_dumps (depth : nat) (v : json) :
  wf_value v = true ->
  (json_depth v <= depth)%nat ->
  json_loads depth (json_dumps v) = Ok v.
Proof using Type float_repr_literal float_of_repr.
  intros Hwf Hdepth. unfold json_loads, json_dumps.
  pose proof (encode_starts 0 v []) as Hstart. rewrite app_nil_r in Hstart.
  rewrite (skip_ws_starts _ Hstart).
  pose proof (scan_once_encode v 0%nat [] (S (2 * length (encode 0 v))) depth
                Hwf eq_refl) as Hscan.
  rewrite app_nil_r in Hscan. rewrite Hscan; [done| |done].
  pose proof (encode_length v 0). lia.
Qed.

(** *** Equality of Python values

    The value read back is the very value written; [==] holds of it as well,
    which it does of a value with itself unless a NaN occurs in it. *)

Lemma dict_lookup_elem (d : list (text * json)) (k : text) (v : json) :
  NoDup (map fst d) -> (k, v) ∈ d -> dict_lookup k d = Some v.
Proof.
  induction d as [|[k' v'] d IH]; cbn [map fst dict_lookup]; intros Hnodup Hin.
  - by apply elem_of_nil in Hin.
  - apply NoDup_cons in Hnodup as [Hk' Hnodup].
    apply elem_of_cons in Hin as [[= <- <-]|Hin].
    + by rewrite decide_True.
    + rewrite decide_False; [by apply IH|].
      intros ->. apply Hk'. apply list_elem_of_fmap. by exists (k, v).
Qed.

Lemma number_eqb_refl (n : number) : n <> NotANumber -> number_eqb n n = true.
Proof. destruct n; cbn; try done. intros _. by apply Qeq_bool_iff. Qed.

Lemma py_eq_refl (v : json) : wf_value v = true -> py_eq v v = true.
Proof.
  induction v as [|b|z|f|s|l IH|d IH] using json_ind'; intros Hwf.
  - done.
  - cbn. by apply Qeq_bool_iff.
  - cbn. by apply Qeq_bool_iff.
  - destruct f as [x| | |]; try done. cbn. by apply Qeq_bool_iff.
  - cbn. by apply bool_decide_eq_true.
  - cbn [py_eq]. cbn [wf_value] in Hwf.
    induction l as [|x l IHl]; [done|].
    apply Forall_cons in IH as [Hx IH].
    apply andb_true_iff in Hwf as [Hwfx Hwf].
    apply andb_true_iff. split; [by apply Hx|by apply IHl].
  - cbn [py_eq]. cbn [wf_value] in Hwf.
    apply andb_true_iff in Hwf as [Hnodup Hwf].
    apply bool_decide_eq_true in Hnodup.
    apply andb_true_iff. split; [by apply Nat.eqb_eq|].
    assert (d ⊆ d) as Hsub by done. revert Hsub IH Hwf.
    generalize d at 1 3 4 6 as d'.
    induction d' as [|[k x] d' IHd']; [done|]. intros Hsub IH Hwf.
    apply Forall_cons in IH as [Hx IH].
    apply andb_true_iff in Hwf as [Hwfx Hwf].
    apply andb_true_iff in Hwfx as [_ Hwfx].
    apply andb_true_iff. split.
    + rewrite (dict_lookup_elem d k x Hnodup); [by apply Hx|].
      apply Hsub. by left.
    + apply IHd'; [|done|done]. intros kv Hkv. apply Hsub. by right.
Qed.

(** At the edge of JSON data: a high and a low surrogate held as two
    characters are written as one pair of escapes, which reads back as one
    character; a NaN reads back as a NaN, which [==] tells from itself; an
    integer of 4301 digits is written by the encoder of this development
    (for which the [json.dump] of CPython raises a [ValueError]) and refused
    by the decoder. *)
Example json_loads_dumps_surrogates :
  json_loads 1 (json_dumps (JStr [55357; 56832]%N)) = Ok (JStr [128512%N]).
Proof. reflexivity. Qed.

Example json_loads_dumps_NaN :
  json_loads 1 (json_dumps (JArr [JFloat NaN])) = Ok (JArr [JFloat NaN]) /\
  py_eq (JArr [JFloat NaN]) (JArr [JFloat NaN]) = false.
Proof. split; reflexivity. Qed.

(** C4: the favourites that [load_favorites] returns after [save_favorites]
    are the favourites saved, and equal to them as [==] has it, for records
    made of JSON data that the decoder accepts: strings of Unicode scalar
    values, dictionaries with distinct keys, no NaN, integers of at most 4300
    digits, and a nesting that the decoder can enter. *)
Theorem favorites_roundtrip :
  forall (records : list json) (files : gmap text file_content),
    wf_value (JArr records) = true ->
    (json_depth (JArr records) <= load_depth)%nat ->
    exists loaded,
      load_favorites (save_favorites (JArr records) files) = Ok loaded /\
      loaded = JArr records /\
      py_eq loaded (JArr records) = true.
Proof using Type float_repr_literal float_of_repr.
  intros records files Hwf Hdepth. exists (JArr records).
  split; [|split; [done|by apply py_eq_refl]].
  unfold load_favorites, save_favorites.
  rewrite lookup_insert_eq. by rewrite (json_loads_dumps _ _ Hwf Hdepth).
Qed.

(** ** The bound on the calls of the scanner

    A successful scan consumes at least one character, and the scanner makes
    at most two calls for a character: with more calls allowed than twice the
    length of the text, the bound is never reached, and the result, a value
    or an exception, is the same under every such bound.  [json_loads] allows
    that many. *)

Lemma skip_ws_length (s : text) : (length (skip_ws s) <= length s)%nat.
Proof. induction s as [|c s IH]; cbn; [lia|]. destruct (is_ws c); cbn; lia. Qed.

Lemma scanstring_shorter (s str r : text) :
  scanstring s = Some (str, r) -> (length r < length s)%nat.
Proof.
  remember (length s) as n eqn:Hn. revert s str r Hn.
  induction n as [n IH] using lt_wf_ind. intros s str r ->.
  assert (forall s' str' r',
             (length s' < length s)%nat -> scanstring s' = Some (str', r') ->
             (length r' < length s')%nat) as IH'
    by (intros s' str' r' Hlt; by apply (IH (length s') Hlt)).
  clear IH. destruct s as [|c s1]; [done|]. cbn [scanstring].
  intros H. repeat case_match; simplify_eq; cbn [length] in *.
  all: try lia.
  all: repeat match goal with
              | H : scanstring _ = Some _ |- _ =>
                  apply IH' in H; [|cbn [length]; lia]
              end.
  all: cbn [length] in *; lia.
Qed.

Lemma span_digits_length (s ds r : text) :
  span_digits s = (ds, r) -> (length r <= length s)%nat.
Proof.
  revert ds r. induction s as [|c s IH]; intros ds r; cbn.
  - intros [= <- <-]. cbn. lia.
  - destruct (is_digit c); [|intros [= <- <-]; cbn; lia].
    destruct (span_digits s) as [ds' r'] eqn:Hs. intros [= <- <-].
    specialize (IH ds' r' eq_refl). lia.
Qed.

Lemma number_token_shorter (s lit r : text) (is_float : bool) :
  number_token s = Some (lit, is_float, r) -> (length r < length s)%nat.
Proof.
  unfold number_token, scan_int_part, scan_frac, scan_exp. intros H.
  repeat case_match; simplify_eq.
  all: repeat match goal with
              | H : span_digits _ = _ |- _ => apply span_digits_length in H
              end.
  all: cbn [length] in *; lia.
Qed.

Lemma starts_with_length (p s r : text) :
  starts_with p s = Some r -> (length r + length p = length s)%nat.
Proof.
  revert s. induction p as [|a p IH]; intros s; cbn.
  - intros [= <-]. lia.
  - destruct s as [|b s]; [done|]. destruct (a =? b)%N; [|done].
    intros H. apply IH in H. cbn. lia.
Qed.

Lemma scan_constant_shorter (s r : text) (v : json) :
  scan_constant s = Ok (v, r) -> (length r < length s)%nat.
Proof.
  unfold scan_constant, scan_number. intros H.
  repeat case_match; simplify_eq.
  all: try match goal with
           | H : starts_with _ _ = Some _ |- _ =>
               apply starts_with_length in H;
               unfold lit_null, lit_true, lit_false, lit_NaN, lit_Infinity,
                 lit_NegInfinity in H;
               cbn [length] in H; lia
           end.
  all: by eapply number_token_shorter.
Qed.

Lemma scan_shorter (fuel : nat) :
  (forall depth s v r,
      scan_once depth fuel s = Ok (v, r) -> (length r < length s)%nat) /\
  (forall depth s pairs v r,
      scan_members depth fuel s pairs = Ok (v, r) -> (length r < length s)%nat) /\
  (forall depth s values v r,
      scan_elements depth fuel s values = Ok (v, r) -> (length r < length s)%nat).
Proof.
  induction fuel as [|fuel (IHonce & IHmembers & IHelements)]; [by repeat split|].
  assert (forall s, length (skip_ws s) <= length s)%nat as Hws
    by apply skip_ws_length.
  split; [|split].
  - intros depth s v r. destruct s as [|c s1]; [done|]. cbn [scan_once]. intros Hscan.
    destruct (c =? 34)%N.
    { destruct (scanstring s1) as [[str r']|] eqn:Hstr; simplify_eq.
      apply scanstring_shorter in Hstr. cbn [length]. lia. }
    destruct (c =? 123)%N.
    { destruct depth as [|depth']; [done|]. pose proof (Hws s1).
      destruct (skip_ws s1) as [|c' r'] eqn:Hskip; [done|].
      destruct (c' =? 125)%N.
      - simplify_eq. cbn [length] in *. lia.
      - apply IHmembers in Hscan. cbn [length] in *. lia. }
    destruct (c =? 91)%N.
    { destruct depth as [|depth']; [done|]. pose proof (Hws s1).
      destruct (skip_ws s1) as [|c' r'] eqn:Hskip; [done|].
      destruct (c' =? 93)%N.
      - simplify_eq. cbn [length] in *. lia.
      - apply IHelements in Hscan. cbn [length] in *. lia. }
    by apply scan_constant_shorter in Hscan.
  - intros depth s pairs v r. cbn [scan_members]. destruct s as [|q s1]; [done|].
    destruct (q =? 34)%N; [|done].
    destruct (scanstring s1) as [[key s2]|] eqn:Hkey; [|done].
    apply scanstring_shorter in Hkey. pose proof (Hws s2).
    destruct (skip_ws s2) as [|c s3] eqn:Hskip2; [done|].
    destruct (c =? 58)%N; [|done]. pose proof (Hws s3).
    destruct (scan_once depth fuel (skip_ws s3)) as [[val s4]|] eqn:Hval; [|done].
    apply IHonce in Hval. pose proof (Hws s4).
    destruct (skip_ws s4) as [|c' s5] eqn:Hskip4; [done|].
    destruct (c' =? 125)%N.
    + intros ?; simplify_eq. cbn [length] in *. lia.
    + destruct (c' =? 44)%N; [|done]. pose proof (Hws s5). intros Hscan.
      apply IHmembers in Hscan. cbn [length] in *. lia.
  - intros depth s values v r. cbn [scan_elements].
    destruct (scan_once depth fuel s) as [[val s1]|] eqn:Hval; [|done].
    apply IHonce in Hval. pose proof (Hws s1).
    destruct (skip_ws s1) as [|c s2] eqn:Hskip1; [done|].
    destruct (c =? 93)%N.
    + intros ?; simplify_eq. cbn [length] in *. lia.
    + destruct (c =? 44)%N; [|done]. pose proof (Hws s2). intros Hscan.
      apply IHelements in Hscan. cbn [length] in *. lia.
Qed.

Lemma scan_bound_free (fuel : nat) :
  (forall depth s fuel',
      (2 * length s < fuel)%nat -> (2 * length s < fuel')%nat ->
      scan_once depth fuel s = scan_once depth fuel' s) /\
  (forall depth s pairs fuel',
      (2 * length s + 1 < fuel)%nat -> (2 * length s + 1 < fuel')%nat ->
      scan_members depth fuel s pairs = scan_members depth fuel' s pairs) /\
  (forall depth s values fuel',
      (2 * length s + 1 < fuel)%nat -> (2 * length s + 1 < fuel')%nat ->
      scan_elements depth fuel s values = scan_elements depth fuel' s values).
Proof.
  induction fuel as [|fuel (IHonce & IHmembers & IHelements)];
    [repeat split; intros; lia|].
  assert (forall s, length (skip_ws s) <= length s)%nat as Hws
    by apply skip_ws_length.
  split; [|split].
  - intros depth s [|fuel'] Hfuel Hfuel'; [lia|]. cbn [scan_once].
    destruct s as [|c s1]; [done|]. cbn [length] in *.
    destruct (c =? 34)%N; [done|].
    destruct (c =? 123)%N.
    { destruct depth as [|depth']; [done|]. pose proof (Hws s1).
      destruct (skip_ws s1) as [|c' r'] eqn:Hskip; [done|].
      destruct (c' =? 125)%N; [done|]. apply IHmembers; cbn [length] in *; lia. }
    destruct (c =? 91)%N; [|done].
    destruct depth as [|depth']; [done|]. pose proof (Hws s1).
    destruct (skip_ws s1) as [|c' r'] eqn:Hskip; [done|].
    destruct (c' =? 93)%N; [done|]. apply IHelements; cbn [length] in *; lia.
  - intros depth s pairs [|fuel'] Hfuel Hfuel'; [lia|]. cbn [scan_members].
    destruct s as [|q s1]; [done|]. cbn [length] in *.
    destruct (q =? 34)%N; [|done].
    destruct (scanstring s1) as [[key s2]|] eqn:Hkey; [|done].
    apply scanstring_shorter in Hkey. pose proof (Hws s2).
    destruct (skip_ws s2) as [|c s3] eqn:Hskip2; [done|].
    destruct (c =? 58)%N; [|done]. pose proof (Hws s3). cbn [length] in *.
    rewrite (IHonce depth (skip_ws s3) fuel') by lia.
    destruct (scan_once depth fuel' (skip_ws s3)) as [[val s4]|] eqn:Hval; [|done].
    apply (proj1 (scan_shorter fuel')) in Hval. pose proof (Hws s4).
    destruct (skip_ws s4) as [|c' s5] eqn:Hskip4; [done|].
    destruct (c' =? 125)%N; [done|].
    destruct (c' =? 44)%N; [|done]. pose proof (Hws s5).
    apply IHmembers; cbn [length] in *; lia.
  - intros depth s values [|fuel'] Hfuel Hfuel'; [lia|]. cbn [scan_elements].
    rewrite (IHonce depth s fuel') by lia.
    destruct (scan_once depth fuel' s) as [[val s1]|] eqn:Hval; [|done].
    apply (proj1 (scan_shorter fuel')) in Hval. pose proof (Hws s1).
    destruct (skip_ws s1) as [|c s2] eqn:Hskip1; [done|].
    destruct (c =? 93)%N; [done|].
    destruct (c =? 44)%N; [|done]. pose proof (Hws s2).
    apply IHelements; cbn [length] in *; lia.
Qed.

(** [json_loads] decodes, and raises, as the scanner does under every bound
    that is large enough. *)
Lemma json_loads_bound (depth : nat) (s : text) (fuel : nat) :
  (2 * length s < fuel)%nat ->
  json_loads depth s =
    match scan_once depth fuel (skip_ws s) with
    | Ok (v, r) =>
        match skip_ws r with
        | [] => Ok v
        | _ :: _ => Raise JSONDecodeError
        end
    | Raise e => Raise e
    end.
Proof.
  intros Hfuel. unfold json_loads.
  pose proof (skip_ws_length s).
  by rewrite (proj1 (scan_bound_free fuel) depth (skip_ws s) (S (2 * length s)))
    by lia.
Qed.

(** * Further properties *)

(** ** The cache over a history of operations *)

(** X1: after any sequence of [set_in_cache] and [del] operations, a read of
    a key is decided by the last operation on that key: the value of a last
    store, when the floating-point difference between the time of the read
    and the time of that store is below 3600, whatever was stored under the
    key before; [None] after a last deletion; the read of the initial cache
    when the key was not touched. *)
Theorem cache_last_write_wins :
  forall (ops : list cache_op) (c : gmap text cache_entry) (key : text) (t : float),
    get_from_cache t (replay ops c) key =
      match last_on key ops with
      | Some (CacheSet s _ value) =>
          if PrimFloat.ltb (PrimFloat.sub t s) (float_of_int 3600) then value else JNull
      | Some (CacheDel _) => JNull
      | None => get_from_cache t c key
      end.
Proof.
  intros ops. induction ops as [|op ops IH]; intros c key t; [done|].
  change (replay (op :: ops) c) with (replay ops (apply_op c op)).
  rewrite IH. cbn [last_on]. destruct (last_on key ops) as [op'|]; [done|].
  case_decide as Hkey.
  - destruct op as [s k value|k]; cbn in Hkey; subst k;
      unfold get_from_cache; cbn [apply_op].
    + unfold set_in_cache. by rewrite lookup_insert_eq.
    + by rewrite lookup_delete_eq.
  - unfold get_from_cache. destruct op as [s k value|k]; cbn in Hkey; cbn [apply_op].
    + unfold set_in_cache. by rewrite lookup_insert_ne.
    + by rewrite lookup_delete_ne.
Qed.

(** ** More on the difficulty *)

Lemma number_ltb_mono (z : Z) (p q : Q) :
  (p <= q)%Q ->
  number_ltb (Rational (inject_Z z)) (Rational p) = true ->
  number_ltb (Rational (inject_Z z)) (Rational q) = true.
Proof.
  intros Hpq. unfold number_ltb.
  destruct (Qlt_le_dec (inject_Z z) p) as [Hp|]; [intros _|done].
  destruct (Qlt_le_dec (inject_Z z) q) as [|Hq]; [done|].
  exfalso. apply (Qlt_not_le _ _ Hp). by apply (Qle_trans _ q).
Qed.

(** X2: the difficulty is monotone: of two recipes, the one that takes at
    least as long and has at least as many ingredients is never in an easier
    tier (tiers in the order Easy, Medium, Hard of the display). *)
Theorem calculate_difficulty_monotone :
  forall (d1 d2 : list (text * json)) (n1 n2 : Q) (ings1 ings2 : list json),
    as_number (default (JInt 0) (dict_lookup (txt "readyInMinutes") d1))
      = Some (Rational n1) ->
    default (JArr []) (dict_lookup (txt "extendedIngredients") d1) = JArr ings1 ->
    as_number (default (JInt 0) (dict_lookup (txt "readyInMinutes") d2))
      = Some (Rational n2) ->
    default (JArr []) (dict_lookup (txt "extendedIngredients") d2) = JArr ings2 ->
    (n1 <= n2)%Q ->
    (length ings1 <= length ings2)%nat ->
    exists (t1 t2 : text) (i1 i2 : Z),
      calculate_difficulty (JObj d1) = Ok t1 /\
      calculate_difficulty (JObj d2) = Ok t2 /\
      tier_index t1 = Ok i1 /\
      tier_index t2 = Ok i2 /\
      i1 <= i2.
Proof.
  intros d1 d2 n1 n2 ings1 ings2 Ht1 Hi1 Ht2 Hi2 Hn Hlen.
  rewrite (calculate_difficulty_cases d1 _ ings1 Ht1 Hi1).
  rewrite (calculate_difficulty_cases d2 _ ings2 Ht2 Hi2).
  pose proof (number_ltb_mono 60 n1 n2 Hn) as H60.
  pose proof (number_ltb_mono 30 n1 n2 Hn) as H30.
  destruct (number_ltb (Rational (inject_Z 60)) (Rational n1)) eqn:E1;
    [rewrite (H60 eq_refl)|];
    destruct (number_ltb (Rational (inject_Z 30)) (Rational n1)) eqn:E2;
    try rewrite (H30 eq_refl); clear H60 H30;
    destruct (number_ltb (Rational (inject_Z 60)) (Rational n2));
    destruct (number_ltb (Rational (inject_Z 30)) (Rational n2));
    destruct (Z.ltb_spec 15 (Z.of_nat (length ings1)));
    destruct (Z.ltb_spec 10 (Z.of_nat (length ings1)));
    destruct (Z.ltb_spec 15 (Z.of_nat (length ings2)));
    destruct (Z.ltb_spec 10 (Z.of_nat (length ings2)));
    try lia; cbn [orb];
    eexists _, _, _, _;
    (split; [reflexivity|]); (split; [reflexivity|]);
    (split; [reflexivity|]); (split; [reflexivity|]); lia.
Qed.

(** ** More on the nutrition summary *)

Lemma if_exceeds_flag (n : number) (z : Z) (x y : list text) :
  (if decide (exceeds n z) then x else y)
  = if number_ltb (Rational (inject_Z z)) n then x else y.
Proof. case_decide as H; unfold exceeds in H; by destruct (number_ltb _ _). Qed.

Lemma parse_nutritional_info_summary (nutrition : json)
    (nutrients : gmap text (json * json)) (p a s c : number) :
  nutrients_of nutrition = Ok nutrients ->
  as_number (amount_of nutrients (txt "Protein")) = Some p ->
  as_number (amount_of nutrients (txt "Vitamin A")) = Some a ->
  as_number (amount_of nutrients (txt "Sodium")) = Some s ->
  as_number (amount_of nutrients (txt "Calories")) = Some c ->
  exists info,
    parse_nutritional_info nutrition = Ok info /\
    health_metrics info =
      (if decide (exceeds p 25) then [high_in_protein] else []) ++
      (if decide (exceeds a 20) then [good_source_of_vitamin_a] else []) ++
      (if decide (exceeds s 1000) then [high_in_sodium] else []) /\
    nutrition_score info = score_of p a s c.
Proof.
  intros Hn Hp Ha Hs Hc.
  unfold parse_nutritional_info. unfold nutrients_of in Hn.
  destruct (dict_get nutrition _ _) as [listed|]; [|discriminate Hn].
  unfold mbind, result_bind in Hn |- *.
  destruct (py_iter listed) as [ns|]; [|discriminate Hn].
  rewrite Hn. rewrite !amount_of_default.
  unfold py_gt, py_lt. rewrite Hp, Ha, Hs, Hc.
  eexists. split; [reflexivity|]. unfold score_of.
  rewrite !if_exceeds, !if_below, !if_exceeds_flag. cbv [nutrition_score health_metrics].
  generalize (number_ltb (Rational (inject_Z 25)) p) as b1.
  generalize (number_ltb (Rational (inject_Z 20)) a) as b2.
  generalize (number_ltb (Rational (inject_Z 1000)) s) as b3.
  generalize (number_ltb s (Rational (inject_Z 500))) as b4.
  generalize (number_ltb c (Rational (inject_Z 500))) as b5.
  by intros [] [] [] [] [].
Qed.

Lemma exceeds_not_below (n : number) (hi lo : Z) :
  lo <= hi -> exceeds n hi -> ~ below n lo.
Proof.
  unfold exceeds, below. intros Hle. destruct n as [q| | |]; cbn; try done.
  destruct (Qlt_le_dec (inject_Z hi) q) as [Hhi|]; [intros _|done].
  destruct (Qlt_le_dec q (inject_Z lo)) as [Hlo|]; [intros _|done].
  apply (Qlt_irrefl q). apply (Qlt_trans _ (inject_Z lo)); [done|].
  apply (Qle_lt_trans _ (inject_Z hi)); [|done]. by rewrite <- Zle_Qle.
Qed.

(** X3: the nutrition score is 100 exactly when protein exceeds 25, vitamin
    A exceeds 20 and sodium is below 500: the calories decide nothing at the
    top of the scale. *)
Theorem nutrition_score_top :
  forall (nutrition : json) (nutrients : gmap text (json * json)) (p a s c : number),
    nutrients_of nutrition = Ok nutrients ->
    as_number (amount_of nutrients (txt "Protein")) = Some p ->
    as_number (amount_of nutrients (txt "Vitamin A")) = Some a ->
    as_number (amount_of nutrients (txt "Sodium")) = Some s ->
    as_number (amount_of nutrients (txt "Calories")) = Some c ->
    exists info,
      parse_nutritional_info nutrition = Ok info /\
      (nutrition_score info = 100 <->
       exceeds p 25 /\ exceeds a 20 /\ below s 500).
Proof.
  intros nutrition nutrients p a s c Hn Hp Ha Hs Hc.
  destruct (parse_nutritional_info_summary nutrition nutrients p a s c Hn Hp Ha Hs Hc)
    as (info & Hinfo & _ & Hscore).
  exists info. split; [done|]. rewrite Hscore. unfold score_of.
  repeat case_decide; split; try lia; try done.
  all: intros (? & ? & ?); done.
Qed.

(** X4: the health flags follow the amounts, in the order protein, vitamin A,
    sodium; the sodium warning (above 1000) excludes the sodium bonus, so a
    recipe flagged for sodium scores at most 90, and a recipe with both
    positive flags scores at least 80. *)
Theorem nutrition_flags :
  forall (nutrition : json) (nutrients : gmap text (json * json)) (p a s c : number),
    nutrients_of nutrition = Ok nutrients ->
    as_number (amount_of nutrients (txt "Protein")) = Some p ->
    as_number (amount_of nutrients (txt "Vitamin A")) = Some a ->
    as_number (amount_of nutrients (txt "Sodium")) = Some s ->
    as_number (amount_of nutrients (txt "Calories")) = Some c ->
    exists info,
      parse_nutritional_info nutrition = Ok info /\
      health_metrics info =
        filter (fun flag =>
                  flag = high_in_protein /\ exceeds p 25 \/
                  flag = good_source_of_vitamin_a /\ exceeds a 20 \/
                  flag = high_in_sodium /\ exceeds s 1000)
          [high_in_protein; good_source_of_vitamin_a; high_in_sodium] /\
      (high_in_sodium ∈ health_metrics info -> nutrition_score info <= 90) /\
      (high_in_protein ∈ health_metrics info ->
       good_source_of_vitamin_a ∈ health_metrics info ->
       80 <= nutrition_score info).
Proof.
  intros nutrition nutrients p a s c Hn Hp Ha Hs Hc.
  destruct (parse_nutritional_info_summary nutrition nutrients p a s c Hn Hp Ha Hs Hc)
    as (info & Hinfo & Hflags & Hscore).
  exists info. split; [done|].
  assert (high_in_protein <> good_source_of_vitamin_a) as H12 by done.
  assert (high_in_protein <> high_in_sodium) as H13 by done.
  assert (good_source_of_vitamin_a <> high_in_sodium) as H23 by done.
  assert (health_metrics info =
            filter (fun flag =>
                      flag = high_in_protein /\ exceeds p 25 \/
                      flag = good_source_of_vitamin_a /\ exceeds a 20 \/
                      flag = high_in_sodium /\ exceeds s 1000)
              [high_in_protein; good_source_of_vitamin_a; high_in_sodium]) as Hfilter.
  { rewrite Hflags. rewrite !filter_cons, filter_nil.
    repeat case_decide; try done;
      repeat match goal with
             | H : _ \/ _ |- _ => destruct H as [H|H]
             | H : _ /\ _ |- _ => destruct H as [? ?]
             | H : ~ (_ \/ _) |- _ => apply Decidable.not_or in H as [? ?]
             end; try done.
    all: exfalso; eauto. }
  split; [done|]. rewrite Hflags, Hscore. unfold score_of.
  split.
  - intros Hin.
    assert (exceeds s 1000) as Hsodium.
    { destruct (decide (exceeds s 1000)) as [|Hno]; [done|]. exfalso.
      rewrite app_nil_r in Hin.
      repeat case_decide; cbn [app] in Hin;
        repeat (apply elem_of_cons in Hin as [Hin|Hin]; [done|]);
        by apply elem_of_nil in Hin. }
    pose proof (exceeds_not_below s 1000 500 ltac:(lia) Hsodium).
    repeat case_decide; try done; lia.
  - intros Hp' Ha'.
    assert (exceeds p 25) as Hprotein.
    { destruct (decide (exceeds p 25)) as [|Hno]; [done|]. exfalso. clear Ha'.
      repeat case_decide; cbn [app] in Hp';
        repeat (apply elem_of_cons in Hp' as [Hp'|Hp']; [done|]);
        by apply elem_of_nil in Hp'. }
    assert (exceeds a 20) as Hvitamin.
    { destruct (decide (exceeds a 20)) as [|Hno]; [done|]. exfalso. clear Hp'.
      repeat case_decide; cbn [app] in Ha';
        repeat (apply elem_of_cons in Ha' as [Ha'|Ha']; [done|]);
        by apply elem_of_nil in Ha'. }
    repeat case_decide; try done; lia.
Qed.

Lemma subscript_nutrient_record (name : text) (amount : json) (unit_ : text) :
  subscript (nutrient_record name amount unit_) (txt "name") = Ok (JStr name) /\
  subscript (nutrient_record name amount unit_) (txt "amount") = Ok amount /\
  subscript (nutrient_record name amount unit_) (txt "unit") = Ok (JStr unit_).
Proof. done. Qed.

Lemma collect_nutrients_entries (entries : list (text * json * text))
    (acc : gmap text (json * json)) :
  exists nutrients,
    collect_nutrients (map (fun e => nutrient_record e.1.1 e.1.2 e.2) entries) acc
      = Ok nutrients /\
    forall name,
      amount_of nutrients name =
        if bool_decide (name ∈ map (fun e => e.1.1) entries)
        then last_amount name entries
        else amount_of acc name.
Proof.
  revert acc. induction entries as [|[[n a] u] entries IH]; intros acc.
  - exists acc. split; [done|]. intros name. by rewrite bool_decide_eq_false_2 by apply not_elem_of_nil.
  - cbn [map collect_nutrients fst snd].
    destruct (subscript_nutrient_record n a u) as (-> & -> & ->).
    cbn [mbind result_bind fst snd].
    destruct (IH (<[n := (a, JStr u)]> acc)) as (nutrients & -> & Hamounts).
    exists nutrients. split; [done|]. intros name. rewrite Hamounts.
    cbn [last_amount fst snd].
    destruct (bool_decide (name ∈ map (fun e => e.1.1) entries)) eqn:Hlater.
    + apply bool_decide_eq_true in Hlater.
      rewrite bool_decide_eq_true_2; [done|]. by right.
    + apply bool_decide_eq_false in Hlater. unfold amount_of.
      destruct (decide (n = name)) as [->|Hne].
      * rewrite bool_decide_eq_true_2 by (by left). by rewrite lookup_insert_eq.
      * rewrite bool_decide_eq_false_2.
        -- by rewrite lookup_insert_ne.
        -- intros [?|?]%elem_of_cons; done.
Qed.

(** X5: when a nutrient is listed more than once, the last entry counts: the
    amount the summary uses for a name is the amount of the last entry of
    that name, and 0 when there is none. *)
Theorem nutrients_last_entry_wins :
  forall (entries : list (text * json * text)) (name : text),
    exists nutrients,
      nutrients_of (nutrition_of_entries entries) = Ok nutrients /\
      amount_of nutrients name = last_amount name entries.
Proof.
  intros entries name.
  destruct (collect_nutrients_entries entries ∅) as (nutrients & Hcollect & Hamounts).
  exists nutrients. split.
  - unfold nutrients_of, nutrition_of_entries.
    replace (dict_get (JObj [(txt "nutrients", JArr (map _ entries))])
               (txt "nutrients") (JArr []))
      with (Ok (JArr (map (fun e : text * json * text =>
                             nutrient_record e.1.1 e.1.2 e.2) entries)) : result json)
      by done.
    exact Hcollect.
  - rewrite Hamounts. destruct (bool_decide _) eqn:Hin; [done|].
    apply bool_decide_eq_false in Hin. unfold amount_of. rewrite lookup_empty.
    clear Hcollect Hamounts. induction entries as [|[[n a] u] entries IH]; [done|].
    cbn [last_amount fst snd]. cbn [map fst snd] in Hin.
    rewrite bool_decide_eq_false_2 by (intros ?; apply Hin; by right).
    rewrite decide_False; [done|]. intros ->. apply Hin. by left.
Qed.

(** X6: an entry of the nutrient list that lacks one of the keys [name],
    [amount] and [unit] makes the summary fail with a [KeyError], whatever
    the entry is about and whatever follows it. *)
Theorem nutrients_incomplete_entry :
  forall (before : list (text * json * text)) (d : list (text * json))
         (after : list json) (others : list (text * json)),
    dict_lookup (txt "name") d = None \/
    dict_lookup (txt "amount") d = None \/
    dict_lookup (txt "unit") d = None ->
    parse_nutritional_info
      (JObj ((txt "nutrients",
              JArr (map (fun e => nutrient_record e.1.1 e.1.2 e.2) before
                    ++ JObj d :: after)) :: others))
    = Raise KeyError.
Proof.
  intros before d after others Hmissing. unfold parse_nutritional_info.
  replace (dict_get (JObj ((txt "nutrients", JArr (map _ before ++ JObj d :: after)) :: others))
             (txt "nutrients") (JArr []))
    with (Ok (JArr (map (fun e : text * json * text =>
                           nutrient_record e.1.1 e.1.2 e.2) before
                    ++ JObj d :: after)) : result json) by done.
  cbn [mbind result_bind py_iter].
  enough (forall acc,
             collect_nutrients
               (map (fun e : text * json * text =>
                       nutrient_record e.1.1 e.1.2 e.2) before ++ JObj d :: after) acc
             = Raise KeyError) as -> by done.
  induction before as [|[[n a] u] before IH]; intros acc.
  - cbn [map app collect_nutrients subscript].
    destruct (dict_lookup (txt "name") d) as [vn|]; [|done].
    destruct (dict_lookup (txt "amount") d) as [va|]; [|done].
    destruct (dict_lookup (txt "unit") d) as [vu|]; [|done].
    by destruct Hmissing as [|[|]].
  - cbn [map app collect_nutrients fst snd].
    destruct (subscript_nutrient_record n a u) as (-> & -> & ->).
    cbn [mbind result_bind fst snd]. apply IH.
Qed.

(** ** The table of recipes *)

Lemma calculate_difficulty_tier (r : json) (tier : text) :
  calculate_difficulty r = Ok tier -> tier = Easy \/ tier = Medium \/ tier = Hard.
Proof.
  unfold calculate_difficulty, mbind, result_bind. intros H.
  repeat match type of H with
         | match ?m with Ok _ => _ | Raise _ => _ end = _ =>
             destruct m; [|discriminate H]
         | (if ?b then _ else _) = _ => destruct b
         end;
    injection H as <-; auto.
Qed.

Lemma difficulty_key_tier (r : json) (k : Z) :
  difficulty_key r = Ok k ->
  k = 0 /\ has_tier Easy r = true \/
  k = 1 /\ has_tier Medium r = true \/
  k = 2 /\ has_tier Hard r = true.
Proof.
  unfold difficulty_key, has_tier, mbind, result_bind.
  destruct (calculate_difficulty r) as [tier|e] eqn:Htier; [|done].
  destruct (calculate_difficulty_tier r tier Htier) as [-> | [-> | ->]];
    intros [= <-]; auto.
Qed.

Lemma has_tier_exclusive (r : json) (t1 t2 : text) :
  has_tier t1 r = true -> has_tier t2 r = true -> t1 = t2.
Proof.
  unfold has_tier. destruct (calculate_difficulty r) as [tier|]; [|done].
  intros H1%bool_decide_eq_true H2%bool_decide_eq_true. congruence.
Qed.

(** The keyed list of the recipes. *)
Lemma difficulty_keys_map (l : list json) (keyed : list (Z * json)) :
  difficulty_keys l = Ok keyed ->
  map snd keyed = l /\
  Forall (fun kr => difficulty_key kr.2 = Ok kr.1) keyed.
Proof.
  revert keyed. induction l as [|r l IH]; intros keyed; cbn [difficulty_keys].
  - by intros [= <-].
  - unfold mbind, result_bind.
    destruct (difficulty_key r) as [k|] eqn:Hk; [|done].
    destruct (difficulty_keys l) as [keyed'|]; [|done].
    intros [= <-]. destruct (IH keyed' eq_refl) as [Hmap Hall].
    split; [cbn; by rewrite Hmap|by constructor].
Qed.

Lemma insert_by_key_below (x : Z * json) (low l : list (Z * json)) :
  Forall (fun y => y.1 < x.1) low ->
  insert_by_key x (low ++ l) = low ++ insert_by_key x l.
Proof.
  induction 1 as [|y low Hy _ IH]; [done|]. cbn [app insert_by_key].
  destruct (Z.leb_spec x.1 y.1); [lia|]. by rewrite IH.
Qed.

Lemma insert_by_key_front (x : Z * json) (l : list (Z * json)) :
  Forall (fun y => x.1 <= y.1) l -> insert_by_key x l = x :: l.
Proof.
  destruct 1 as [|y l Hy _]; [done|]. cbn [insert_by_key].
  by destruct (Z.leb_spec x.1 y.1); [|lia].
Qed.

(** With the three keys 0, 1 and 2 the stable sort lists the elements of key
    0, then those of key 1, then those of key 2, each group in its order. *)
Lemma sort_by_key_groups (l : list (Z * json)) :
  Forall (fun y => 0 <= y.1 <= 2) l ->
  sort_by_key l =
    filter (fun y => y.1 = 0) l ++ filter (fun y => y.1 = 1) l ++
    filter (fun y => y.1 = 2) l.
Proof.
  induction 1 as [|x l Hx _ IH]; [done|].
  change (sort_by_key (x :: l)) with (insert_by_key x (sort_by_key l)).
  rewrite IH, !filter_cons.
  assert (forall (k : Z), Forall (fun y : Z * json => y.1 = k)
                            (filter (fun y : Z * json => y.1 = k) l)) as Hfilter.
  { intros k. apply Forall_forall. by intros y [? _]%list_elem_of_filter. }
  assert (x.1 = 0 \/ x.1 = 1 \/ x.1 = 2) as [H0|[H1|H2]] by lia.
  - rewrite decide_True, decide_False, decide_False by lia.
    apply insert_by_key_front. rewrite !Forall_app. repeat split.
    + eapply Forall_impl; [apply (Hfilter 0)|]. cbn. lia.
    + eapply Forall_impl; [apply (Hfilter 1)|]. cbn. lia.
    + eapply Forall_impl; [apply (Hfilter 2)|]. cbn. lia.
  - rewrite decide_False, decide_True, decide_False by lia.
    rewrite insert_by_key_below
      by (eapply Forall_impl; [apply (Hfilter 0)|]; cbn; lia).
    f_equal. apply insert_by_key_front. rewrite Forall_app. split.
    + eapply Forall_impl; [apply (Hfilter 1)|]. cbn. lia.
    + eapply Forall_impl; [apply (Hfilter 2)|]. cbn. lia.
  - rewrite decide_False, decide_False, decide_True by lia.
    rewrite insert_by_key_below
      by (eapply Forall_impl; [apply (Hfilter 0)|]; cbn; lia).
    f_equal.
    rewrite insert_by_key_below
      by (eapply Forall_impl; [apply (Hfilter 1)|]; cbn; lia).
    f_equal. apply insert_by_key_front.
    eapply Forall_impl; [apply (Hfilter 2)|]. cbn. lia.
Qed.

Lemma key_tier_iff (r : json) (k' k : Z) (tier : text) :
  difficulty_key r = Ok k' ->
  k = 0 /\ tier = Easy \/ k = 1 /\ tier = Medium \/ k = 2 /\ tier = Hard ->
  k' = k <-> has_tier tier r = true.
Proof.
  intros Hr Hk.
  destruct (difficulty_key_tier r k' Hr) as [[-> Ht] | [[-> Ht] | [-> Ht]]];
    destruct Hk as [[-> ->] | [[-> ->] | [-> ->]]];
    (split; [done|]); intros Ht';
    by pose proof (has_tier_exclusive r _ _ Ht Ht').
Qed.

Lemma filter_key_tier (keyed : list (Z * json)) (k : Z) (tier : text) :
  Forall (fun kr => difficulty_key kr.2 = Ok kr.1) keyed ->
  k = 0 /\ tier = Easy \/ k = 1 /\ tier = Medium \/ k = 2 /\ tier = Hard ->
  map snd (filter (fun y => y.1 = k) keyed) = filter (has_tier tier) (map snd keyed).
Proof.
  intros Hall Hk. induction Hall as [|[k' r] keyed Hr _ IH]; [done|].
  cbn [map fst snd] in *. pose proof (key_tier_iff r k' k tier Hr Hk) as Hiff.
  destruct (decide (k' = k)) as [Heq|Hne].
  - rewrite filter_cons_True by done.
    rewrite filter_cons_True by (apply Is_true_eq_left; by apply Hiff).
    cbn [map snd]. by rewrite IH.
  - rewrite filter_cons_False by done.
    rewrite filter_cons_False; [done|].
    intros Ht%Is_true_eq_true. by apply Hne, Hiff.
Qed.

Lemma sort_by_difficulty_tiers (l l' : list json) :
  sort_by_difficulty l = Ok l' ->
  l' = filter (has_tier Easy) l ++ filter (has_tier Medium) l ++
       filter (has_tier Hard) l.
Proof.
  unfold sort_by_difficulty, mbind, result_bind.
  destruct (difficulty_keys l) as [keyed|] eqn:Hkeys; [|done]. intros [= <-].
  destruct (difficulty_keys_map l keyed Hkeys) as [Hmap Hall].
  rewrite sort_by_key_groups.
  - rewrite !map_app.
    rewrite (filter_key_tier keyed 0 Easy), (filter_key_tier keyed 1 Medium),
      (filter_key_tier keyed 2 Hard) by auto.
    by rewrite Hmap.
  - eapply Forall_impl; [exact Hall|]. intros [k r] Hr. cbn [fst snd] in *.
    destruct (difficulty_key_tier r k Hr) as [[-> _] | [[-> _] | [-> _]]]; lia.
Qed.

Lemma insert_by_key_Permutation (x : Z * json) (l : list (Z * json)) :
  insert_by_key x l ≡ₚ x :: l.
Proof.
  induction l as [|y l IH]; [done|]. cbn [insert_by_key].
  destruct (x.1 <=? y.1); [done|]. rewrite IH. apply Permutation_swap.
Qed.

Lemma sort_by_key_Permutation (l : list (Z * json)) : sort_by_key l ≡ₚ l.
Proof.
  induction l as [|x l IH]; [done|].
  change (sort_by_key (x :: l)) with (insert_by_key x (sort_by_key l)).
  by rewrite insert_by_key_Permutation, IH.
Qed.

Lemma sort_by_difficulty_Permutation (l l' : list json) :
  sort_by_difficulty l = Ok l' -> l' ≡ₚ l.
Proof.
  unfold sort_by_difficulty, mbind, result_bind.
  destruct (difficulty_keys l) as [keyed|] eqn:Hkeys; [|done]. intros [= <-].
  destruct (difficulty_keys_map l keyed Hkeys) as [<- _].
  apply Permutation_map, sort_by_key_Permutation.
Qed.

Lemma difficulty_keys_elements (l : list json) :
  Forall (fun r => exists k, difficulty_key r = Ok k) l <->
  exists keyed, difficulty_keys l = Ok keyed.
Proof.
  induction l as [|r l IH]; cbn [difficulty_keys].
  - split; [by exists []|done].
  - rewrite Forall_cons, IH. unfold mbind, result_bind. split.
    + intros [[k ->] [keyed ->]]. by eexists.
    + destruct (difficulty_key r) as [k|]; [|by intros [? ?]].
      destruct (difficulty_keys l) as [keyed|]; [|by intros [? ?]].
      intros _. split; by eexists.
Qed.

Lemma filter_tier_tier (t1 t2 : text) (l : list json) :
  filter (has_tier t1) (filter (has_tier t2) l) =
    if decide (t1 = t2) then filter (has_tier t2) l else [].
Proof.
  induction l as [|r l IH]; [by case_decide|].
  rewrite (filter_cons (has_tier t2)). destruct (decide (has_tier t2 r)) as [H2|H2].
  - rewrite filter_cons, IH. apply Is_true_eq_true in H2.
    destruct (decide (t1 = t2)) as [->|Hne].
    + rewrite decide_True; [done|]. by apply Is_true_eq_left.
    + rewrite decide_False; [done|]. intros H1%Is_true_eq_true.
      apply Hne. by apply (has_tier_exclusive r).
  - by rewrite IH.
Qed.

Lemma recipe_rows_lookup (l : list json) (i : nat) (rows : list table_row) :
  recipe_rows i l = Ok rows ->
  length rows = length l /\
  forall (j : nat) (row : table_row),
    rows !! j = Some row ->
    row_number row = int_text (Z.of_nat (i + j) + 1) /\
    exists r, l !! j = Some r /\ recipe_row (i + j) r = Ok row.
Proof.
  revert i rows. induction l as [|r l IH]; intros i rows; cbn [recipe_rows].
  - intros [= <-]. split; [done|]. intros j row Hj. by destruct j.
  - unfold mbind, result_bind.
    destruct (recipe_row i r) as [row0|] eqn:Hrow; [|done].
    destruct (recipe_rows (S i) l) as [rows'|] eqn:Hrows; [|done].
    intros [= <-]. destruct (IH (S i) rows' Hrows) as [Hlen Hlookup].
    split; [cbn; by rewrite Hlen|]. intros [|j] row Hj.
    + injection Hj as <-. rewrite Nat.add_0_r. split; [|by exists r].
      unfold recipe_row, mbind, result_bind in Hrow.
      repeat match type of Hrow with
             | match ?m with Ok _ => _ | Raise _ => _ end = _ =>
                 destruct m; [|discriminate Hrow]
             end.
      by injection Hrow as <-.
    + destruct (Hlookup j row Hj) as [Hnumber (r' & Hr' & Hrow')].
      replace (i + S j)%nat with (S i + j)%nat by lia. split; [done|]. by exists r'.
Qed.

(** X7: [display_recipes] lists the Easy recipes first, then the Medium
    ones, then the Hard ones, each group in the order it had; the list is
    left sorted that way, no recipe is lost or repeated, and row [i + 1] of
    the table is the row of the [i]-th recipe of the sorted list. *)
Theorem display_recipes_sorted :
  forall (l l' : list json) (s : shown),
    l <> [] ->
    display_recipes (JArr l) = Ok (JArr l', s) ->
    l' = filter (has_tier Easy) l ++ filter (has_tier Medium) l ++
         filter (has_tier Hard) l /\
    l' ≡ₚ l /\
    exists rows,
      s = RecipeTable rows /\
      length rows = length l /\
      forall (i : nat) (row : table_row),
        rows !! i = Some row ->
        row_number row = int_text (Z.of_nat i + 1) /\
        exists r, l' !! i = Some r /\ recipe_row i r = Ok row.
Proof.
  intros l l' s Hl. unfold display_recipes.
  destruct l as [|r0 l0]; [done|]. cbn [py_truthy negb]. cbv iota.
  unfold mbind, result_bind.
  destruct (sort_by_difficulty (r0 :: l0)) as [sorted_recipes|] eqn:Hsort; [|done].
  destruct (recipe_rows 0 sorted_recipes) as [rows|] eqn:Hrows; [|done].
  intros [= <- <-].
  pose proof (sort_by_difficulty_Permutation _ _ Hsort) as Hperm.
  split; [by apply sort_by_difficulty_tiers|]. split; [done|].
  exists rows. split; [done|].
  destruct (recipe_rows_lookup _ _ _ Hrows) as [Hlen Hlookup].
  split; [by rewrite Hlen, Hperm|]. exact Hlookup.
Qed.

Lemma display_recipes_stable (l l' : list json) (s : shown) :
  display_recipes (JArr l) = Ok (JArr l', s) ->
  display_recipes (JArr l') = Ok (JArr l', s).
Proof.
  unfold display_recipes.
  destruct l as [|r0 l0]; [by intros [= <- <-]|]. cbn [py_truthy negb]. cbv iota.
  unfold mbind, result_bind.
  destruct (sort_by_difficulty (r0 :: l0)) as [sorted_recipes|] eqn:Hsort; [|done].
  destruct (recipe_rows 0 sorted_recipes) as [rows|] eqn:Hrows; [|done].
  intros [= <- <-].
  pose proof (sort_by_difficulty_Permutation _ _ Hsort) as Hperm.
  pose proof (sort_by_difficulty_tiers _ _ Hsort) as Htiers.
  destruct sorted_recipes as [|r1 l1];
    [by apply Permutation_nil_l in Hperm|].
  cbn [py_truthy negb]. cbv iota.
  assert (sort_by_difficulty (r1 :: l1) = Ok (r1 :: l1)) as ->;
    [|by rewrite Hrows].
  assert (exists l'', sort_by_difficulty (r1 :: l1) = Ok l'') as [l'' Hsort'].
  { unfold sort_by_difficulty, mbind, result_bind in Hsort |- *.
    destruct (difficulty_keys (r0 :: l0)) as [keyed|] eqn:Hkeys; [|done].
    assert (exists keyed', difficulty_keys (r1 :: l1) = Ok keyed') as [keyed' ->];
      [|by eexists].
    apply difficulty_keys_elements. rewrite Hperm.
    apply difficulty_keys_elements. by eexists. }
  rewrite Hsort'. f_equal.
  rewrite (sort_by_difficulty_tiers _ _ Hsort'). rewrite Htiers at 4.
  rewrite Htiers, !filter_app, !filter_tier_tier.
  repeat (case_decide; try done). by rewrite !app_nil_r.
Qed.

(** X8: displaying a list again changes nothing: the list that one
    [display_recipes] left is left as it is by the next, which prints the
    same table. *)
Theorem display_recipes_again :
  forall (l l' : list json) (s : shown),
    display_recipes (JArr l) = Ok (JArr l', s) ->
    display_recipes (JArr l') = Ok (JArr l', s).
Proof. intros l l' s. apply display_recipes_stable. Qed.

(** X9: the ingredient cell of a row.  A recipe with a non-empty
    [extendedIngredients] list shows the length of the list.  A recipe
    without the list shows the sum of [usedIngredientCount] and
    [missedIngredientCount] (a missing [missedIngredientCount] counting 0)
    when it has a [usedIngredientCount], and 0 when it has none, whatever its
    [missedIngredientCount]. *)
Theorem recipe_row_ingredients :
  forall (i : nat) (d : list (text * json)) (row : table_row),
    recipe_row i (JObj d) = Ok row ->
    (forall ings : list json,
        dict_lookup (txt "extendedIngredients") d = Some (JArr ings) ->
        ings <> [] ->
        row_ingredients row = int_text (Z.of_nat (length ings)) ++ txt " ingredients") /\
    (forall used missed : Z,
        dict_lookup (txt "extendedIngredients") d = None ->
        dict_lookup (txt "usedIngredientCount") d = Some (JInt used) ->
        default (JInt 0) (dict_lookup (txt "missedIngredientCount") d) = JInt missed ->
        row_ingredients row = int_text (used + missed) ++ txt " ingredients") /\
    (dict_lookup (txt "extendedIngredients") d = None ->
     dict_lookup (txt "usedIngredientCount") d = None ->
     row_ingredients row = txt "0 ingredients").
Proof.
  intros i d row. unfold recipe_row, dict_get. cbn [mbind result_bind].
  unfold dict_has. intros Hrow. split; [|split].
  - intros ings Hext Hne. rewrite Hext in Hrow. cbn [default py_len from_option id] in Hrow.
    cbn [mbind result_bind] in Hrow.
    destruct ings as [|x ings]; [done|].
    change (Z.of_nat (length (x :: ings)) =? 0) with false in Hrow.
    cbn [andb mbind result_bind] in Hrow.
    destruct (subscript (JObj d) (txt "title")) as [title|]; [|done].
    cbn [mbind result_bind] in Hrow.
    destruct (if title is JStr s then Ok s else title_cell title); [|done].
    by injection Hrow as <-.
  - intros used missed Hext Hused Hmissed. rewrite Hext, Hused in Hrow.
    cbn [default py_len from_option id length Z.of_nat Z.eqb andb mbind result_bind] in Hrow.
    change (from_option id (JInt 0) (dict_lookup (txt "missedIngredientCount") d))
      with (default (JInt 0) (dict_lookup (txt "missedIngredientCount") d)) in Hrow.
    rewrite Hmissed in Hrow. cbn [py_add mbind result_bind] in Hrow.
    destruct (subscript (JObj d) (txt "title")) as [title|]; [|done].
    cbn [mbind result_bind] in Hrow.
    destruct (if title is JStr s then Ok s else title_cell title); [|done].
    by injection Hrow as <-.
  - intros Hext Hused. rewrite Hext, Hused in Hrow.
    cbn [default py_len from_option id length Z.of_nat Z.eqb andb mbind result_bind] in Hrow.
    destruct (subscript (JObj d) (txt "title")) as [title|]; [|done].
    cbn [mbind result_bind] in Hrow.
    destruct (if title is JStr s then Ok s else title_cell title); [|done].
    by injection Hrow as <-.
Qed.

(** ** The searches *)

Lemma show_recipes_inv (key : text) (from_cache : bool) (recipes : json)
    (c : gmap text cache_entry) (calls : list api_call) (printed : list text)
    (res : search_result) :
  show_recipes key from_cache recipes c calls printed = Ok res ->
  py_truthy recipes = false /\
  res = {| outcome := NotFound; cache_after := c;
           requests := calls; error_lines := printed |} \/
  py_truthy recipes = true /\
  exists (r : json) (table : shown),
    display_recipes recipes = Ok (r, table) /\
    res = {| outcome := Found from_cache r table;
             cache_after := sorted_in_place key r c;
             requests := calls; error_lines := printed |}.
Proof.
  unfold show_recipes. destruct (py_truthy recipes).
  - unfold mbind, result_bind.
    destruct (display_recipes recipes) as [[r table]|]; [|done].
    intros [= <-]. right. split; [done|]. by exists r, table.
  - intros [= <-]. by left.
Qed.

Lemma sorted_in_place_same (key : text) (v : json) (ts : float)
    (c : gmap text cache_entry) :
  c !! key = Some {| data := v; timestamp := ts |} ->
  sorted_in_place key v c = c.
Proof.
  intros Hkey. unfold sorted_in_place. apply alter_id.
  intros e He. rewrite Hkey in He. by injection He as <-.
Qed.

Lemma display_recipes_list (l : list json) (r : json) (table : shown) :
  display_recipes (JArr l) = Ok (r, table) ->
  exists l', r = JArr l' /\ l' ≡ₚ l.
Proof.
  unfold display_recipes. destruct l as [|r0 l0].
  - intros [= <- <-]. by exists [].
  - cbn [py_truthy negb]. cbv iota. unfold mbind, result_bind.
    destruct (sort_by_difficulty (r0 :: l0)) as [sorted_recipes|] eqn:Hsort; [|done].
    destruct (recipe_rows 0 sorted_recipes) as [rows|]; [|done].
    intros [= <- <-]. exists sorted_recipes. split; [done|].
    by apply sort_by_difficulty_Permutation.
Qed.

(** X10: a search by ingredients that found recipes answers the next search
    for the same ingredients from the cache.  For every line whose items,
    stripped of blanks, are the same in some order, a search made when the
    floating-point difference between the clock and the time the recipes were
    stored is below 3600 sends no request, shows the same table of the same
    recipes, and leaves the cache as it is. *)
Theorem search_by_ingredients_again :
  forall (t1 t1' t2 t2' : float) (line1 line2 : text) (c : gmap text cache_entry)
         (res : search_result) (recipes : json) (table : shown),
    search_by_ingredients t1 t1' line1 c = Ok res ->
    outcome res = Found false recipes table ->
    line2 <> [] ->
    map strip (split 44 line1) ≡ₚ map strip (split 44 line2) ->
    within_duration t2 t1' = true ->
    search_by_ingredients t2 t2' line2 (cache_after res) =
      Ok {| outcome := Found true recipes table;
            cache_after := cache_after res;
            requests := [];
            error_lines := [] |}.
Proof.
  intros t1 t1' t2 t2' line1 line2 c res recipes table Hsearch Hfound Hline2 Hperm Hfresh.
  unfold search_by_ingredients in Hsearch.
  destruct line1 as [|ch1 line1']; [by injection Hsearch as <-|].
  remember (map strip (split 44 (ch1 :: line1'))) as items1 eqn:Hitems1.
  remember (ingredients_cache_key items1) as key eqn:Hkey.
  assert (exists (recipes0 : list json) (c0 : gmap text cache_entry)
                 (calls : list api_call) (printed : list text),
             recipes0 <> [] /\
             show_recipes key false (JArr recipes0)
               (set_in_cache t1' c0 key (JArr recipes0)) calls printed = Ok res)
    as (recipes0 & c0 & calls & printed & Hne & Hshow).
  { destruct (py_truthy (get_from_cache t1 c key)).
    - apply show_recipes_inv in Hsearch as [[_ ->]|(_ & r & tb & _ & ->)]; done.
    - unfold mbind, result_bind in Hsearch.
      destruct (run_call (SearchByIngredients items1 7)).1 as [summary|]; [|done].
      destruct (py_truthy summary).
      + destruct (py_iter summary) as [items|]; [|done].
        destruct (fetch_details items) as [[[recipes0 calls] printed]|]; [|done].
        exists recipes0, c, (SearchByIngredients items1 7 :: calls),
          ((run_call (SearchByIngredients items1 7)).2 ++ printed).
        split; [|done]. intros ->.
        apply show_recipes_inv in Hsearch as [[_ ->]|(? & _)]; done.
      + apply show_recipes_inv in Hsearch as [[_ ->]|(? & _)]; done. }
  apply show_recipes_inv in Hshow as [[_ ->]|(_ & r & tb & Hdisplay & ->)]; [done|].
  cbn [outcome] in Hfound. injection Hfound as -> ->.
  destruct (display_recipes_list _ _ _ Hdisplay) as (l' & -> & Hl').
  assert (l' <> []) as Hl'ne.
  { intros ->. by apply Permutation_nil_l in Hl'. }
  cbn [cache_after]. unfold sorted_in_place, set_in_cache. rewrite alter_insert_eq.
  cbn [data timestamp].
  set (c1 := <[key := {| data := JArr l'; timestamp := t1' |}]> c0).
  unfold search_by_ingredients.
  destruct line2 as [|ch2 line2']; [done|].
  assert (ingredients_cache_key (map strip (split 44 (ch2 :: line2'))) = key) as ->.
  { rewrite Hkey. unfold ingredients_cache_key.
    by rewrite (sorted_Permutation _ _ Hperm). }
  assert (c1 !! key = Some {| data := JArr l'; timestamp := t1' |}) as Hlookup
    by apply lookup_insert_eq.
  rewrite (get_from_cache_fresh t2 c1 key _ Hlookup Hfresh). cbn [data].
  assert (py_truthy (JArr l') = true) as -> by (by destruct l').
  unfold show_recipes.
  assert (py_truthy (JArr l') = true) as -> by (by destruct l').
  rewrite (display_recipes_stable _ _ _ Hdisplay). cbn [mbind result_bind].
  by rewrite (sorted_in_place_same key (JArr l') t1' c1 Hlookup).
Qed.

(** X11: a search whose request fails stores nothing.  When the cache has
    no recipes for the line and the request of the search raises a request
    exception or answers with an error status, the search prints the error
    line, ends without recipes after that one request, and leaves the cache
    as it was. *)
Theorem search_failure_not_cached :
  forall (t_get t_set : float) (line : text) (c : gmap text cache_entry),
    line <> [] ->
    py_truthy (get_from_cache t_get c (search_cache_key line)) = false ->
    let ingredients := map strip (split 44 line) in
    let url := BASE_URL ++ txt "/recipes/findByIngredients" in
    let params := [(txt "ingredients", JStr (join (txt ",") ingredients));
                   (txt "number", JInt 7);
                   (txt "apiKey", JStr API_KEY)] in
    (forall (e : exn) (message : text),
        requests_get url params = GetRaises e message ->
        is_request_exception e = true ->
        search_by_ingredients t_get t_set line c =
          Ok {| outcome := NotFound; cache_after := c;
                requests := [SearchByIngredients ingredients 7];
                error_lines := [error_line message] |}) /\
    (forall r : response,
        requests_get url params = GetReturns r ->
        400 <= status_code r < 600 ->
        exists message,
          search_by_ingredients t_get t_set line c =
            Ok {| outcome := NotFound; cache_after := c;
                  requests := [SearchByIngredients ingredients 7];
                  error_lines := [error_line message] |}).
Proof.
  intros t_get t_set line c Hline Hmiss ingredients url params.
  unfold search_cache_key in Hmiss. fold ingredients in Hmiss.
  assert (forall message,
             run_call (SearchByIngredients ingredients 7)
             = (Ok JNull, [error_line message]) ->
             search_by_ingredients t_get t_set line c =
               Ok {| outcome := NotFound; cache_after := c;
                     requests := [SearchByIngredients ingredients 7];
                     error_lines := [error_line message] |}) as Hnone.
  { intros message Hrun. unfold search_by_ingredients.
    destruct line as [|ch line']; [done|]. fold ingredients. rewrite Hmiss, Hrun.
    reflexivity. }
  split.
  - intros e message Hget He. apply Hnone.
    cbn [run_call]. unfold search_recipes_by_ingredients, fetch.
    fold url. fold params. by rewrite Hget, He.
  - intros r Hget Hstatus.
    assert (exists message, raise_for_status r = Some message) as [message Hraise].
    { unfold raise_for_status.
      destruct (400 <=? status_code r) eqn:H4, (status_code r <? 500) eqn:H5,
        (500 <=? status_code r) eqn:H6, (status_code r <? 600) eqn:H7; cbn;
        try (by eexists); lia. }
    exists message. apply Hnone.
    cbn [run_call]. unfold search_recipes_by_ingredients, fetch.
    fold url. fold params. by rewrite Hget, Hraise.
Qed.

(** X12: an empty list in the cache is never served.  A search whose
    summary is not empty but whose details all fail stores the empty list
    under the key; a search that finds the empty list (or anything false)
    under its key sends the request of the search again. *)
Theorem cached_empty_list_not_served :
  (forall (t_get t_set : float) (line : text) (c : gmap text cache_entry)
          (res : search_result),
      line <> [] ->
      py_truthy (get_from_cache t_get c (search_cache_key line)) = false ->
      search_by_ingredients t_get t_set line c = Ok res ->
      exists calls,
        requests res = SearchByIngredients (map strip (split 44 line)) 7 :: calls) /\
  (forall (t_get t_set : float) (line : text) (c : gmap text cache_entry)
          (res : search_result),
      search_by_ingredients t_get t_set line c = Ok res ->
      outcome res = NotFound ->
      (2 <= length (requests res))%nat ->
      cache_after res !! search_cache_key line
      = Some {| data := JArr []; timestamp := t_set |} /\
      forall t : float,
        py_truthy (get_from_cache t (cache_after res) (search_cache_key line)) = false).
Proof.
  split.
  - intros t_get t_set line c res Hline Hmiss. unfold search_by_ingredients.
    destruct line as [|ch line']; [done|].
    unfold search_cache_key in Hmiss. rewrite Hmiss.
    unfold mbind, result_bind.
    destruct (run_call _).1 as [summary|]; [|done].
    destruct (py_truthy summary).
    + destruct (py_iter summary) as [items|]; [|done].
      destruct (fetch_details items) as [[[recipes0 calls] printed]|]; [|done].
      intros [[_ ->]|(_ & r & tb & _ & ->)]%show_recipes_inv; by eexists.
    + intros [[_ ->]|(_ & r & tb & _ & ->)]%show_recipes_inv; by eexists.
  - intros t_get t_set line c res. unfold search_by_ingredients, search_cache_key.
    destruct line as [|ch line']; [by intros [= <-]|].
    set (key := ingredients_cache_key _).
    assert (forall (cached : bool) (recipes : json) (c' : gmap text cache_entry)
                   (calls : list api_call) (printed : list text),
               show_recipes key cached recipes c' calls printed = Ok res ->
               outcome res = NotFound ->
               py_truthy recipes = false /\ cache_after res = c' /\ requests res = calls)
      as Hshow.
    { intros cached recipes c' calls printed
        [[? ->]|(_ & r & tb & _ & ->)]%show_recipes_inv; done. }
    destruct (py_truthy (get_from_cache t_get c key)).
    { intros Hres Hout. destruct (Hshow _ _ _ _ _ Hres Hout) as (_ & _ & ->).
      cbn. lia. }
    unfold mbind, result_bind.
    destruct (run_call _).1 as [summary|]; [|done].
    destruct (py_truthy summary).
    + destruct (py_iter summary) as [items|]; [|done].
      destruct (fetch_details items) as [[[recipes0 calls] printed]|]; [|done].
      intros Hres Hout _. destruct (Hshow _ _ _ _ _ Hres Hout) as (Hfalse & -> & _).
      destruct recipes0; [|done]. unfold set_in_cache.
      split; [by rewrite lookup_insert_eq|].
      intros t. unfold get_from_cache. rewrite lookup_insert_eq. cbn [data].
      by destruct (within_duration _ _).
    + intros Hres Hout. destruct (Hshow _ _ _ _ _ Hres Hout) as (_ & _ & ->).
      cbn. lia.
Qed.

Lemma fetch_details_calls (items recipes : list json) (calls : list api_call)
    (printed : list text) :
  fetch_details items = Ok (recipes, calls, printed) ->
  Forall (fun call => exists recipe_id, call = RecipeDetails recipe_id) calls.
Proof.
  revert recipes calls printed.
  induction items as [|r items IH]; intros recipes calls printed; cbn [fetch_details].
  - by intros [= <- <- <-].
  - unfold mbind, result_bind.
    destruct (subscript r (txt "id")) as [recipe_id|]; [|done].
    destruct (get_recipe_details recipe_id).1 as [details|]; [|done].
    destruct (fetch_details items) as [[[recipes' calls'] printed']|]; [|done].
    intros [= <- <- <-]. constructor; [by eexists|]. by eapply IH.
Qed.

(** X13: a search by cuisine asks only for what the menu offers.  The
    cuisine typed is accepted, whatever its case, when its lower case is one
    of the eight cuisines, and the meal type when it is empty or its lower
    case is one of the five meal types; any other input ends the search
    without a request and without a change of the cache.  The requests of an
    accepted search are the search for that cuisine and meal type, and
    requests of details. *)
Theorem search_by_cuisine_validates :
  forall (t_get t_set : float) (cuisine_input meal_type_input : text)
         (c : gmap text cache_entry),
    let cuisine := py_lower cuisine_input in
    let meal_type := py_lower meal_type_input in
    let offered :=
      cuisine ∈ [txt "italian"; txt "chinese"; txt "mexican"; txt "indian";
                 txt "japanese"; txt "thai"; txt "french"; txt "spanish"] /\
      (meal_type = [] \/ meal_type ∈ meal_types) in
    (~ offered ->
     search_by_cuisine t_get t_set cuisine_input meal_type_input c =
       Ok {| outcome := Refused; cache_after := c; requests := []; error_lines := [] |}) /\
    (offered ->
     forall res : search_result,
       search_by_cuisine t_get t_set cuisine_input meal_type_input c = Ok res ->
       outcome res <> Refused /\
       Forall (fun call =>
                 call = FindByCuisine cuisine (Some meal_type) 5 \/
                 exists recipe_id, call = RecipeDetails recipe_id)
         (requests res)).
Proof.
  intros t_get t_set cuisine_input meal_type_input c cuisine meal_type offered.
  unfold search_by_cuisine. fold cuisine. fold meal_type.
  change (map py_lower cuisines)
    with [txt "italian"; txt "chinese"; txt "mexican"; txt "indian";
          txt "japanese"; txt "thai"; txt "french"; txt "spanish"].
  assert (py_truthy (JStr meal_type) = negb (bool_decide (meal_type = []))) as ->.
  { by destruct meal_type. }
  split.
  - intros Hno. case_bool_decide as Hc; [|done]. cbn [negb].
    case_bool_decide as Hm; cbn [negb andb]; [exfalso; apply Hno; split; auto|].
    case_bool_decide as Hm'; [exfalso; apply Hno; split; auto|done].
  - intros [Hc Hm] res. rewrite (bool_decide_eq_true_2 _ Hc). cbn [negb].
    assert (negb (bool_decide (meal_type = [])) && negb (bool_decide (meal_type ∈ meal_types))
            = false) as ->.
    { destruct Hm as [Hm|Hm].
      - by rewrite (bool_decide_eq_true_2 _ Hm).
      - rewrite (bool_decide_eq_true_2 _ Hm). by destruct (bool_decide _). }
    assert (forall (cached : bool) (recipes : json) (c' : gmap text cache_entry)
                   (calls : list api_call) (printed : list text),
               show_recipes (cuisine_cache_key cuisine meal_type) cached recipes c'
                 calls printed = Ok res ->
               outcome res <> Refused /\ requests res = calls) as Hshow.
    { intros cached recipes c' calls printed
        [[? ->]|(_ & r & tb & _ & ->)]%show_recipes_inv; done. }
    destruct (py_truthy (get_from_cache _ _ _)).
    { intros Hres. destruct (Hshow _ _ _ _ _ Hres) as [? ->]. by split. }
    unfold mbind, result_bind.
    destruct (run_call _).1 as [data|]; [|done].
    destruct (if py_truthy data then _ else _) as [summary|]; [|done].
    destruct (py_truthy summary).
    + destruct (py_iter summary) as [items|]; [|done].
      destruct (fetch_details items) as [[[recipes0 calls] printed]|] eqn:Hfetch; [|done].
      intros Hres. destruct (Hshow _ _ _ _ _ Hres) as [? ->]. split; [done|].
      constructor; [by left|].
      eapply Forall_impl; [exact (fetch_details_calls _ _ _ _ Hfetch)|]. auto.
    + intros Hres. destruct (Hshow _ _ _ _ _ Hres) as [? ->]. split; [done|].
      constructor; [by left|done].
Qed.

(** ** The keys of the cache *)

(** X14: no two searches share an entry of the cache.  Two lines of
    ingredients have the same key exactly when their items, stripped of
    blanks, are the same in some order; two searches by cuisine have the same
    key only for the same cuisine and the same meal type; and a key of one
    kind of search is never a key of the other. *)
Theorem cache_keys_distinct :
  (forall line1 line2 : text,
      search_cache_key line1 = search_cache_key line2 <->
      map strip (split 44 line1) ≡ₚ map strip (split 44 line2)) /\
  (forall cuisine1 meal_type1 cuisine2 meal_type2 : text,
      cuisine1 ∈ map py_lower cuisines ->
      cuisine2 ∈ map py_lower cuisines ->
      cuisine_cache_key cuisine1 meal_type1 = cuisine_cache_key cuisine2 meal_type2 ->
      cuisine1 = cuisine2 /\ meal_type1 = meal_type2) /\
  (forall (ingredients : list text) (cuisine meal_type : text),
      ingredients_cache_key ingredients <> cuisine_cache_key cuisine meal_type).
Proof.
  split; [|split].
  - intros line1 line2. unfold search_cache_key, ingredients_cache_key. split.
    + intros Heq. apply app_inv_head in Heq. change (txt ",") with [44%N] in Heq.
      destruct (search_items line1) as [Hne1 Hall1].
      destruct (search_items line2) as [Hne2 Hall2].
      pose proof (sorted_items (map strip (split 44 line1))) as Hs1.
      pose proof (sorted_items (map strip (split 44 line2))) as Hs2.
      assert (sorted (map strip (split 44 line1)) = sorted (map strip (split 44 line2)))
        as Hsorted.
      { rewrite <- (split_join 44 (sorted (map strip (split 44 line1)))).
        - rewrite Heq. apply split_join.
          + intros Hnil. rewrite Hnil in Hs2. by apply Permutation_nil_l in Hs2.
          + by rewrite Hs2.
        - intros Hnil. rewrite Hnil in Hs1. by apply Permutation_nil_l in Hs1.
        - by rewrite Hs1. }
      rewrite <- Hs1, Hsorted. exact Hs2.
    + intros Hperm. by rewrite (sorted_Permutation _ _ Hperm).
  - intros cuisine1 meal_type1 cuisine2 meal_type2 H1 H2.
    unfold cuisine_cache_key. intros Heq. apply app_inv_head in Heq.
    assert (forall cuisine, cuisine ∈ map py_lower cuisines -> 95%N ∉ cuisine) as Hfree.
    { intros cuisine Hin.
      change (map py_lower cuisines)
        with [txt "italian"; txt "chinese"; txt "mexican"; txt "indian";
              txt "japanese"; txt "thai"; txt "french"; txt "spanish"] in Hin.
      repeat (apply elem_of_cons in Hin as [->|Hin];
              [intros Hc; repeat (apply elem_of_cons in Hc as [Hc|Hc]; [done|]);
               by apply elem_of_nil in Hc|]).
      by apply elem_of_nil in Hin. }
    by apply (app_sep_inj 95); [apply Hfree|apply Hfree|].
  - intros ingredients cuisine meal_type. unfold ingredients_cache_key, cuisine_cache_key.
    by intros [=].
Qed.

Lemma show_recipes_keys (key : text) (from_cache : bool) (recipes : json)
    (c : gmap text cache_entry) (calls : list api_call) (printed : list text)
    (res : search_result) (k : text) :
  show_recipes key from_cache recipes c calls printed = Ok res ->
  is_Some (cache_after res !! k) -> is_Some (c !! k).
Proof.
  intros [[_ ->]|(_ & r & tb & _ & ->)]%show_recipes_inv; [done|].
  cbn [cache_after]. unfold sorted_in_place.
  by rewrite lookup_alter_is_Some.
Qed.

(** X15: removing a favourite evicts nothing.  Both searches store under
    keys of searches only, so a cache built by searches holds only such keys;
    the key [details_<id>] that the favourites toggle deletes is none of
    them, and the toggle leaves such a cache as it is. *)
Theorem toggle_keeps_search_cache :
  (forall (recipe : json) (st st' : view_state),
      (forall key, is_Some (api_cache (view_world st) !! key) -> search_key key) ->
      toggle_favorite recipe st = Ok st' ->
      api_cache (view_world st') = api_cache (view_world st)) /\
  (forall (t_get t_set : float) (line : text) (c : gmap text cache_entry)
          (res : search_result),
      (forall key, is_Some (c !! key) -> search_key key) ->
      search_by_ingredients t_get t_set line c = Ok res ->
      forall key, is_Some (cache_after res !! key) -> search_key key) /\
  (forall (t_get t_set : float) (cuisine_input meal_type_input : text)
          (c : gmap text cache_entry) (res : search_result),
      (forall key, is_Some (c !! key) -> search_key key) ->
      search_by_cuisine t_get t_set cuisine_input meal_type_input c = Ok res ->
      forall key, is_Some (cache_after res !! key) -> search_key key).
Proof.
  split; [|split].
  - intros recipe st st' Hkeys. unfold toggle_favorite, mbind, result_bind.
    destruct (is_favorite st).
    + destruct (py_iter (favorites st)) as [favs|]; [|done].
      destruct (without_id recipe favs) as [kept|]; [|done].
      destruct (subscript recipe (txt "id")) as [rid|]; [|done].
      intros [= <-]. cbn [view_world api_cache]. apply delete_id.
      destruct (api_cache (view_world st) !! (txt "details_" ++ py_str rid)) as [e|] eqn:He;
        [|done].
      exfalso.
      destruct (Hkeys (txt "details_" ++ py_str rid)) as [[l Hl]|(cu & m & Hc)];
        [by rewrite He| |].
      * unfold ingredients_cache_key in Hl. by injection Hl.
      * unfold cuisine_cache_key in Hc. by injection Hc.
    + destruct (favorites st) as [| | | | |favs|]; try done. by intros [= <-].
  - intros t_get t_set line c res Hkeys. unfold search_by_ingredients.
    destruct line as [|ch line']; [by intros [= <-]|].
    set (items := map strip (split 44 (ch :: line'))).
    destruct (py_truthy (get_from_cache t_get c _)).
    { intros Hres key Hkey. apply Hkeys. by eapply show_recipes_keys. }
    unfold mbind, result_bind.
    destruct (run_call _).1 as [summary|]; [|done].
    destruct (py_truthy summary).
    + destruct (py_iter summary) as [its|]; [|done].
      destruct (fetch_details its) as [[[recipes0 calls] printed]|]; [|done].
      intros Hres key Hkey. apply (show_recipes_keys _ _ _ _ _ _ _ key Hres) in Hkey.
      unfold set_in_cache in Hkey. apply lookup_insert_is_Some in Hkey as [<-|[_ Hkey]].
      * left. by exists items.
      * by apply Hkeys.
    + intros Hres key Hkey. apply Hkeys. by eapply show_recipes_keys.
  - intros t_get t_set cuisine_input meal_type_input c res Hkeys.
    unfold search_by_cuisine.
    destruct (negb (bool_decide _)); [by intros [= <-]|].
    destruct (_ && _); [by intros [= <-]|].
    destruct (py_truthy (get_from_cache t_get c _)).
    { intros Hres key Hkey. apply Hkeys. by eapply show_recipes_keys. }
    unfold mbind, result_bind.
    destruct (run_call _).1 as [data|]; [|done].
    destruct (if py_truthy data then _ else _) as [summary|]; [|done].
    destruct (py_truthy summary).
    + destruct (py_iter summary) as [its|]; [|done].
      destruct (fetch_details its) as [[[recipes0 calls] printed]|]; [|done].
      intros Hres key Hkey. apply (show_recipes_keys _ _ _ _ _ _ _ key Hres) in Hkey.
      unfold set_in_cache in Hkey. apply lookup_insert_is_Some in Hkey as [<-|[_ Hkey]].
      * right. by eexists _, _.
      * by apply Hkeys.
    + intros Hres key Hkey. apply Hkeys. by eapply show_recipes_keys.
Qed.

(** ** More on the favourites *)

Lemma wf_value_toggled (recipe : json) (z : Z) (zs : list Z) (favs : list json) :
  wf_value recipe = true ->
  wf_value (JArr favs) = true ->
  wf_value (JArr (toggled recipe z zs favs)) = true.
Proof.
  rewrite !wf_value_JArr. intros Hrecipe Hfavs. unfold toggled. case_decide.
  - apply forallb_forall. intros fav Hfav.
    apply (proj1 (forallb_forall _ _) Hfavs).
    apply list_elem_of_In. apply list_elem_of_In in Hfav.
    by apply list_elem_of_filter in Hfav as [_ ?].
  - rewrite forallb_app, Hfavs. cbn. by rewrite Hrecipe.
Qed.

Lemma list_depth_filter (P : json -> Prop) `{!forall x, Decision (P x)} (l : list json) :
  (list_depth (filter P l) <= list_depth l)%nat.
Proof.
  induction l as [|x l IH]; [done|]. rewrite filter_cons.
  case_decide; cbn [list_depth]; lia.
Qed.

Lemma list_depth_app (l l' : list json) :
  list_depth (l ++ l') = Nat.max (list_depth l) (list_depth l').
Proof. induction l as [|x l IH]; [done|]. cbn [app list_depth]. rewrite IH. lia. Qed.

Lemma json_depth_toggled (recipe : json) (z : Z) (zs : list Z) (favs : list json) :
  (json_depth recipe < load_depth)%nat ->
  (json_depth (JArr favs) <= load_depth)%nat ->
  (json_depth (JArr (toggled recipe z zs favs)) <= load_depth)%nat.
Proof.
  rewrite !json_depth_JArr. intros Hrecipe Hfavs. unfold toggled. case_decide.
  - pose proof (list_depth_filter (fun fav => int_id fav ≠ Some z) favs). lia.
  - rewrite list_depth_app. cbn [list_depth]. lia.
Qed.

(** The favourites after toggles are read back from the file. *)
Lemma toggle_times_persist (n : nat) (recipe : json) (z : Z) (favs : list json)
    (zs : list Z) (w : world) :
  int_id recipe = Some z ->
  ids_of favs zs ->
  wf_value recipe = true ->
  (json_depth recipe < load_depth)%nat ->
  wf_value (JArr favs) = true ->
  (json_depth (JArr favs) <= load_depth)%nat ->
  exists st',
    toggle_times (S n) recipe
      {| favorites := JArr favs; is_favorite := bool_decide (z ∈ zs); view_world := w |}
    = Ok st' /\
    load_favorites (files (view_world st')) = Ok (favorites st') /\
    view_enter recipe (view_world st') = Ok st'.
Proof using Type float_repr_literal float_of_repr.
  intros Hz. revert favs zs w.
  induction n as [|n IH]; intros favs zs w Hids Hwr Hdr Hwf Hdf.
  - cbn [toggle_times].
    rewrite (toggle_favorite_ids recipe z favs zs w Hz Hids). cbn [mbind result_bind].
    eexists. split; [reflexivity|]. cbn [view_world files favorites].
    assert (load_favorites (save_favorites (JArr (toggled recipe z zs favs)) (files w))
            = Ok (JArr (toggled recipe z zs favs))) as Hload.
    { unfold load_favorites, save_favorites. rewrite lookup_insert_eq.
      by rewrite (json_loads_dumps _ _ (wf_value_toggled recipe z zs favs Hwr Hwf)
                    (json_depth_toggled recipe z zs favs Hdr Hdf)). }
    split; [done|]. unfold view_enter. cbn [files]. rewrite Hload.
    cbn [mbind result_bind py_iter].
    by rewrite (any_same_id_ids recipe z _ _ Hz (ids_of_toggled recipe z favs zs Hz Hids)).
  - change (toggle_times (S (S n)) recipe ?st)
      with (st' ← toggle_favorite recipe st; toggle_times (S n) recipe st').
    rewrite (toggle_favorite_ids recipe z favs zs w Hz Hids). cbn [mbind result_bind].
    apply IH; try done.
    + by apply ids_of_toggled.
    + by apply wf_value_toggled.
    + by apply json_depth_toggled.
Qed.

Lemma toggled_absent (recipe : json) (z : Z) (zs : list Z) (favs : list json) :
  z ∉ zs ->
  toggled recipe z zs favs = favs ++ [recipe] /\ toggled_ids z zs = zs ++ [z].
Proof. intros Hin. unfold toggled, toggled_ids. by rewrite !decide_False. Qed.

Lemma toggled_present (recipe : json) (z : Z) (zs : list Z) (favs : list json) :
  z ∈ zs ->
  toggled recipe z zs favs = filter (fun fav => int_id fav ≠ Some z) favs /\
  toggled_ids z zs = filter (fun y => y ≠ z) zs.
Proof. intros Hin. unfold toggled, toggled_ids. by rewrite !decide_True. Qed.

(** X16: saving a recipe and removing it again restores the favourites: for
    a recipe whose id is not in the list, two uses of the toggle in a visit
    leave the list, the flag and the content of the file as a save of the
    original list leaves them.  In the other order the recipe moves: for a
    recipe whose id is in the list, two uses leave the other records followed
    by the recipe as it is viewed. *)
Theorem toggle_twice :
  forall (recipe : json) (z : Z) (favs : list json) (zs : list Z) (w : world),
    int_id recipe = Some z ->
    ids_of favs zs ->
    let st := {| favorites := JArr favs; is_favorite := bool_decide (z ∈ zs);
                 view_world := w |} in
    exists st',
      toggle_times 2 recipe st = Ok st' /\
      is_favorite st' = is_favorite st /\
      (z ∉ zs ->
       favorites st' = JArr favs /\
       files (view_world st') !! FAVORITES_FILE = Some (Text (json_dumps (JArr favs)))) /\
      (z ∈ zs ->
       favorites st' =
         JArr (filter (fun fav => int_id fav ≠ Some z) favs ++ [recipe])).
Proof.
  intros recipe z favs zs w Hz Hids st. subst st. cbn [toggle_times].
  rewrite (toggle_favorite_ids recipe z favs zs w Hz Hids). cbn [mbind result_bind].
  pose proof (ids_of_toggled recipe z favs zs Hz Hids) as Hids'.
  rewrite (toggle_favorite_ids recipe z _ _ _ Hz Hids'). cbn [mbind result_bind].
  eexists. split; [reflexivity|]. cbn [is_favorite favorites view_world files].
  split; [|split].
  - rewrite !toggled_ids_flag. by destruct (bool_decide _).
  - intros Hin.
    destruct (toggled_absent recipe z zs favs Hin) as [-> ->].
    assert (z ∈ zs ++ [z]) as Hin'
      by (rewrite elem_of_app, list_elem_of_singleton; by right).
    destruct (toggled_present recipe z (zs ++ [z]) (favs ++ [recipe]) Hin') as [-> _].
    rewrite filter_app, (ids_of_unchanged z favs zs Hids Hin).
    rewrite filter_cons, decide_False, filter_nil, app_nil_r
      by (intros Hne; by apply Hne).
    split; [done|]. unfold save_favorites. apply lookup_insert_eq.
  - intros Hin. f_equal.
    destruct (toggled_present recipe z zs favs Hin) as [-> ->].
    apply toggled_absent. rewrite list_elem_of_filter. by intros [? _].
Qed.

(** X17: the favourites outlive the visit.  After one or more uses of the
    toggle on records made of JSON data, the file holds the list the toggle
    left: [load_favorites] returns it, and a new visit of the recipe's page
    starts from that list with the flag the last visit ended with. *)
Theorem favorites_persist :
  forall (n : nat) (recipe : json) (z : Z) (favs : list json) (zs : list Z) (w : world),
    int_id recipe = Some z ->
    ids_of favs zs ->
    wf_json recipe = true ->
    wf_json (JArr favs) = true ->
    exists st',
      toggle_times (S n) recipe
        {| favorites := JArr favs; is_favorite := bool_decide (z ∈ zs); view_world := w |}
      = Ok st' /\
      load_favorites (files (view_world st')) = Ok (favorites st') /\
      view_enter recipe (view_world st') = Ok st'.
Proof using Type float_repr_literal float_of_repr.
  intros n recipe z favs zs w Hz Hids Hwr Hwf. unfold wf_json in Hwr, Hwf.
  apply andb_true_iff in Hwr as [Hwr Hdr%Nat.ltb_lt].
  apply andb_true_iff in Hwf as [Hwf Hdf%Nat.ltb_lt].
  apply toggle_times_persist; try done. lia.
Qed.

(** ** The instructions of a recipe *)

(** X18: the instructions panel of a recipe without usable instructions.  A
    recipe whose [instructions] are [None] or the empty string shows "No
    instructions available."; a recipe that has no [instructions] key shows
    the same notice as a numbered step, "1. No instructions available.",
    because the default text is cleaned and numbered as instructions are. *)
Theorem instructions_text_missing :
  forall d : list (text * json),
    (dict_lookup (txt "instructions") d = Some JNull \/
     dict_lookup (txt "instructions") d = Some (JStr []) ->
     instructions_text (JObj d) = Ok (txt "No instructions available.")) /\
    (dict_lookup (txt "instructions") d = None ->
     instructions_text (JObj d) = Ok (txt "1. No instructions available.")).
Proof.
  intros d. unfold instructions_text, dict_get. cbn [mbind result_bind]. split.
  - by intros [-> | ->].
  - by intros ->.
Qed.

Lemma replace_from_skip (old new p s : text) :
  replace_from old new (length p) (p ++ s) = replace_from old new 0 s.
Proof.
  induction p as [|c p IH]; [|exact IH].
  cbn [length app]. by destruct s.
Qed.

Lemma starts_with_app (p s : text) : starts_with p (p ++ s) = Some s.
Proof. induction p as [|c p IH]; [done|]. cbn. by rewrite N.eqb_refl. Qed.

(** A text without [<] is passed over by the replacement of a tag. *)
Lemma py_replace_text (old' new p s : text) :
  60%N ∉ p ->
  py_replace (60%N :: old') new (p ++ s) = p ++ py_replace (60%N :: old') new s.
Proof.
  unfold py_replace. induction p as [|c p IH]; intros Hp; [done|].
  cbn [app replace_from starts_with].
  destruct (N.eqb_spec 60 c) as [<-|_]; [exfalso; apply Hp; by left|].
  rewrite IH; [done|]. intros ?. apply Hp. by right.
Qed.

Lemma py_replace_occurrence (old new s : text) :
  old <> [] -> py_replace old new (old ++ s) = new ++ py_replace old new s.
Proof.
  unfold py_replace. destruct old as [|c old']; [done|]. intros _.
  cbn [app replace_from]. change (c :: old' ++ s) with ((c :: old') ++ s).
  rewrite starts_with_app.
  replace (length (c :: old') - 1)%nat with (length old') by (cbn [length]; lia).
  by rewrite replace_from_skip.
Qed.

Lemma py_replace_pieces (old new : text) (pieces : list text) :
  old ∈ [txt "<ol>"; txt "</ol>"; txt "<li>"; txt "</li>"] ->
  Forall html_piece pieces ->
  py_replace old new (concat pieces) =
    concat (map (fun p => if decide (p = old) then new else p) pieces).
Proof.
  intros Hold Hpieces. induction Hpieces as [|p pieces Hp _ IH].
  - cbn. by destruct old.
  - cbn [concat map]. rewrite <- IH. clear IH.
    destruct Hp as [Hp|Hp].
    + destruct (decide (p = old)) as [->|Hne].
      * apply py_replace_occurrence. intros ->.
        repeat (apply elem_of_cons in Hold as [Hold|Hold]; [done|]).
        by apply elem_of_nil in Hold.
      * repeat (apply elem_of_cons in Hp as [->|Hp];
                [repeat (apply elem_of_cons in Hold as [->|Hold]; [done|]);
                 by apply elem_of_nil in Hold|]).
        by apply elem_of_nil in Hp.
    + rewrite decide_False.
      * repeat (apply elem_of_cons in Hold as [->|Hold];
                [by apply py_replace_text|]).
        by apply elem_of_nil in Hold.
      * intros ->. apply Hp.
        repeat (apply elem_of_cons in Hold as [->|Hold];
                [by repeat constructor|]).
        by apply elem_of_nil in Hold.
Qed.

Lemma html_pieces_concat (ol ol_end li li_end : text) (steps : list text) :
  concat (html_pieces ol ol_end li li_end steps) =
    ol ++ flat_map (fun step => li ++ step ++ li_end) steps ++ ol_end.
Proof.
  unfold html_pieces. cbn [concat]. f_equal. rewrite concat_app. cbn [concat].
  rewrite app_nil_r. f_equal.
  induction steps as [|step steps IH]; [done|].
  cbn [flat_map app concat]. rewrite <- IH.
  by repeat (rewrite <- app_assoc || rewrite <- app_comm_cons || rewrite app_nil_r).
Qed.

Lemma html_pieces_ok (ol ol_end li li_end : text) (steps : list text) :
  html_piece ol -> html_piece ol_end -> html_piece li -> html_piece li_end ->
  Forall (fun step => 60%N ∉ step) steps ->
  Forall html_piece (html_pieces ol ol_end li li_end steps).
Proof.
  intros Hol Hol_end Hli Hli_end Hsteps. unfold html_pieces.
  constructor; [done|]. apply Forall_app. split; [|constructor; [done|constructor]].
  induction Hsteps as [|step steps Hstep _ IH]; [constructor|].
  cbn [flat_map app]. repeat (constructor; [done || by right|]). exact IH.
Qed.

Lemma html_pieces_replace (old new ol ol_end li li_end : text) (steps : list text) :
  60%N ∈ old ->
  Forall (fun step => 60%N ∉ step) steps ->
  map (replace_piece old new) (html_pieces ol ol_end li li_end steps) =
    html_pieces (replace_piece old new ol) (replace_piece old new ol_end)
      (replace_piece old new li) (replace_piece old new li_end) steps.
Proof.
  intros Hold Hsteps. unfold html_pieces. cbn [map]. f_equal.
  rewrite map_app. cbn [map]. f_equal.
  induction Hsteps as [|step steps Hstep _ IH]; [done|].
  cbn [flat_map app map]. rewrite IH. do 3 f_equal.
  unfold replace_piece. rewrite decide_False; [done|]. by intros ->.
Qed.

Lemma py_replace_html_pieces (old new ol ol_end li li_end : text) (steps : list text) :
  old ∈ [txt "<ol>"; txt "</ol>"; txt "<li>"; txt "</li>"] ->
  html_piece ol -> html_piece ol_end -> html_piece li -> html_piece li_end ->
  Forall (fun step => 60%N ∉ step) steps ->
  py_replace old new (concat (html_pieces ol ol_end li li_end steps)) =
    concat (html_pieces (replace_piece old new ol) (replace_piece old new ol_end)
              (replace_piece old new li) (replace_piece old new li_end) steps).
Proof.
  intros Hold Hol Hol_end Hli Hli_end Hsteps.
  rewrite py_replace_pieces by (done || by apply html_pieces_ok).
  fold (replace_piece old new). rewrite html_pieces_replace; [done| |done].
  repeat (apply elem_of_cons in Hold as [->|Hold]; [by repeat constructor|]).
  by apply elem_of_nil in Hold.
Qed.

Lemma clean_instructions_html_steps (steps : list text) :
  Forall (fun step => 60%N ∉ step) steps ->
  clean_instructions (html_steps steps) = flat_map (fun step => step ++ [10%N]) steps.
Proof.
  intros Hsteps. unfold clean_instructions.
  assert (forall tag : text,
             tag ∈ [txt "<ol>"; txt "</ol>"; txt "<li>"; txt "</li>"] ->
             html_piece tag) as Htag by (intros tag ?; by left).
  assert (html_piece []) as Hnil by (right; apply not_elem_of_nil).
  replace (html_steps steps)
    with (concat (html_pieces (txt "<ol>") (txt "</ol>") (txt "<li>") (txt "</li>") steps))
    by (by rewrite html_pieces_concat).
  rewrite py_replace_html_pieces;
    [|by repeat constructor|apply Htag; by repeat constructor..|done].
  change (replace_piece (txt "<ol>") [] (txt "<ol>")) with (@nil N).
  change (replace_piece (txt "<ol>") [] (txt "</ol>")) with (txt "</ol>").
  change (replace_piece (txt "<ol>") [] (txt "<li>")) with (txt "<li>").
  change (replace_piece (txt "<ol>") [] (txt "</li>")) with (txt "</li>").
  rewrite py_replace_html_pieces;
    [|by repeat constructor|done || (apply Htag; by repeat constructor)..|done].
  change (replace_piece (txt "</ol>") [] []) with (@nil N).
  change (replace_piece (txt "</ol>") [] (txt "</ol>")) with (@nil N).
  change (replace_piece (txt "</ol>") [] (txt "<li>")) with (txt "<li>").
  change (replace_piece (txt "</ol>") [] (txt "</li>")) with (txt "</li>").
  rewrite py_replace_html_pieces;
    [|by repeat constructor|done || (apply Htag; by repeat constructor)..|done].
  change (replace_piece (txt "<li>") [] []) with (@nil N).
  change (replace_piece (txt "<li>") [] (txt "<li>")) with (@nil N).
  change (replace_piece (txt "<li>") [] (txt "</li>")) with (txt "</li>").
  rewrite py_replace_html_pieces;
    [|by repeat constructor|done || (apply Htag; by repeat constructor)..|done].
  change (replace_piece (txt "</li>") [10%N] []) with (@nil N).
  change (replace_piece (txt "</li>") [10%N] (txt "</li>")) with [10%N].
  rewrite html_pieces_concat. by rewrite app_nil_r.
Qed.

Lemma split_lines (steps : list text) :
  Forall (fun step => 10%N ∉ step) steps ->
  split 10 (flat_map (fun step => step ++ [10%N]) steps) = steps ++ [[]].
Proof.
  induction 1 as [|step steps Hstep _ IH]; [done|].
  cbn [flat_map app]. rewrite <- app_assoc. cbn [app].
  by rewrite split_app_sep, IH.
Qed.

Lemma numbered_steps_app (i : nat) (lines lines' : list text) :
  numbered_steps i (lines ++ lines') =
    numbered_steps i lines ++ numbered_steps (i + length lines) lines'.
Proof.
  revert i. induction lines as [|step lines IH]; intros i.
  - cbn. by rewrite Nat.add_0_r.
  - cbn [app numbered_steps length]. rewrite IH.
    replace (S i + length lines)%nat with (i + S (length lines))%nat by lia.
    by destruct (strip step).
Qed.

Lemma numbered_steps_imap (i : nat) (steps : list text) :
  Forall (fun step => strip step <> []) steps ->
  numbered_steps i steps =
    imap (fun j step => int_text (Z.of_nat (i + j) + 1) ++ txt ". " ++ strip step) steps.
Proof.
  intros Hsteps. revert i. induction Hsteps as [|step steps Hstep _ IH]; intros i; [done|].
  cbn [numbered_steps imap]. rewrite IH. rewrite Nat.add_0_r.
  destruct (strip step) eqn:Hs; [done|]. f_equal.
  apply imap_ext. intros j x _. unfold compose.
  by replace (S i + j)%nat with (i + S j)%nat by lia.
Qed.

(** X19: the instructions of a recipe that are an HTML list
    [<ol><li>...</li>...</ol>] of steps, each a text without [<], without a
    line break and not blank, are shown one step a line, each stripped of
    the blanks around it and numbered from 1 in the order of the list. *)
Theorem instructions_text_html_steps :
  forall (d : list (text * json)) (steps : list text),
    Forall (fun step => (60%N ∉ step) /\ (10%N ∉ step) /\ strip step <> []) steps ->
    dict_lookup (txt "instructions") d = Some (JStr (html_steps steps)) ->
    instructions_text (JObj d) =
      Ok (join [10%N]
            (imap (fun i step => int_text (Z.of_nat i + 1) ++ txt ". " ++ strip step)
               steps)).
Proof.
  intros d steps Hsteps Hd. unfold instructions_text, dict_get. rewrite Hd.
  cbn [from_option id mbind result_bind]. unfold html_steps at 1. cbn [py_truthy app txt].
  rewrite clean_instructions_html_steps
    by (eapply Forall_impl; [exact Hsteps|]; by intros step (? & _)).
  rewrite split_lines
    by (eapply Forall_impl; [exact Hsteps|]; by intros step (_ & ? & _)).
  rewrite numbered_steps_app. cbn [numbered_steps strip lstrip rev app].
  rewrite app_nil_r.
  rewrite numbered_steps_imap
    by (eapply Forall_impl; [exact Hsteps|]; by intros step (_ & _ & ?)).
  done.
Qed.

Lemma numbered_steps_lines (lines : list text) (shown_line : text) :
  shown_line ∈ numbered_steps 0 lines <->
  exists (i : nat) (step : text),
    lines !! i = Some step /\
    strip step <> [] /\
    shown_line = int_text (Z.of_nat i + 1) ++ txt ". " ++ strip step.
Proof.
  enough (forall k,
             shown_line ∈ numbered_steps k lines <->
             exists (i : nat) (step : text),
               lines !! i = Some step /\
               strip step <> [] /\
               shown_line = int_text (Z.of_nat (k + i) + 1) ++ txt ". " ++ strip step)
    as Hk by apply (Hk 0%nat).
  induction lines as [|line lines IH]; intros k.
  - cbn. split; [by intros ?%elem_of_nil|by intros (i & step & ? & _)].
  - assert (shown_line ∈ numbered_steps k (line :: lines) <->
            (strip line <> [] /\
             shown_line = int_text (Z.of_nat k + 1) ++ txt ". " ++ strip line) \/
            shown_line ∈ numbered_steps (S k) lines) as ->.
    { cbn [numbered_steps]. destruct (strip line) as [|c s] eqn:Hs.
      - split; [by right|]. by intros [[? _]|?].
      - rewrite elem_of_cons. split.
        + intros [->|?]; [by left|by right].
        + intros [[_ ->]|?]; [by left|by right]. }
    rewrite IH. split.
    + intros [[Hne ->]|(i & step & Hi & Hne & ->)].
      * exists 0%nat, line. by rewrite Nat.add_0_r.
      * exists (S i), step. split; [done|]. split; [done|].
        by replace (k + S i)%nat with (S k + i)%nat by lia.
    + intros ([|i] & step & Hi & Hne & ->).
      * injection Hi as ->. left. by rewrite Nat.add_0_r.
      * right. exists i, step. split; [done|]. split; [done|].
        by replace (k + S i)%nat with (S k + i)%nat by lia.
Qed.

(** X20: a step is numbered by the position of its line.  Whatever the
    text of the instructions, the panel shows the lines of the cleaned text
    that are not blank, each stripped and with the number of its line counted
    from 1 over all the lines, blank ones included, and nothing else: a blank
    line leaves a gap in the numbers. *)
Theorem instructions_text_positions :
  forall (d : list (text * json)) (s : text),
    s <> [] ->
    dict_lookup (txt "instructions") d = Some (JStr s) ->
    exists shown_lines : list text,
      instructions_text (JObj d) = Ok (join [10%N] shown_lines) /\
      forall shown_line : text,
        shown_line ∈ shown_lines <->
        exists (i : nat) (step : text),
          split 10 (clean_instructions s) !! i = Some step /\
          strip step <> [] /\
          shown_line = int_text (Z.of_nat i + 1) ++ txt ". " ++ strip step.
Proof.
  intros d s Hs Hd. exists (numbered_steps 0 (split 10 (clean_instructions s))).
  split; [|apply numbered_steps_lines].
  unfold instructions_text, dict_get. rewrite Hd.
  cbn [from_option id mbind result_bind]. by destruct s.
Qed.

(** ** Sharing a recipe *)

Lemma utf8_encode_char_bytes (c : N) (bytes : list N) :
  utf8_encode_char c = Ok bytes -> Forall (fun b => b < 256)%N bytes.
Proof.
  unfold utf8_encode_char.
  destruct (N.ltb_spec c 128); [intros [= <-]; repeat constructor; lia|].
  destruct (N.ltb_spec c 2048).
  { intros [= <-]. pose proof (N.mod_lt c 64).
    assert (c / 64 < 32)%N by (apply N.Div0.div_lt_upper_bound; lia).
    repeat constructor; lia. }
  destruct (_ && _); [done|].
  destruct (N.ltb_spec c 65536).
  { intros [= <-]. pose proof (N.mod_lt c 64). pose proof (N.mod_lt (c / 64) 64).
    assert (c / 4096 < 16)%N by (apply N.Div0.div_lt_upper_bound; lia).
    repeat constructor; lia. }
  destruct (N.ltb_spec c 1114112); [|done].
  intros [= <-]. pose proof (N.mod_lt c 64). pose proof (N.mod_lt (c / 64) 64).
  pose proof (N.mod_lt (c / 4096) 64).
  assert (c / 262144 < 5)%N by (apply N.Div0.div_lt_upper_bound; lia).
  repeat constructor; lia.
Qed.

Lemma utf8_encode_bytes (s : text) (bytes : list N) :
  utf8_encode s = Ok bytes -> Forall (fun b => b < 256)%N bytes.
Proof.
  revert bytes. induction s as [|c s IH]; intros bytes; cbn [utf8_encode].
  - by intros [= <-].
  - unfold mbind, result_bind.
    destruct (utf8_encode_char c) as [first|] eqn:Hc; [|done].
    destruct (utf8_encode s) as [rest|]; [|done].
    intros [= <-]. apply Forall_app. split; [by eapply utf8_encode_char_bytes|by apply IH].
Qed.

Lemma upper_hex_digit_safe (n : N) : (n < 16)%N -> always_safe (upper_hex_digit n) = true.
Proof.
  intros Hn. unfold upper_hex_digit, always_safe.
  destruct (N.ltb_spec n 10).
  - assert ((48 <=? 48 + n) && (48 + n <=? 57) = true)%N as ->; [|by rewrite !orb_true_r].
    apply andb_true_iff. split; apply N.leb_le; lia.
  - assert ((65 <=? 55 + n) && (55 + n <=? 90) = true)%N as ->; [|done].
    apply andb_true_iff. split; apply N.leb_le; lia.
Qed.

Lemma quote_byte_chars (safe : text) (b : N) :
  (b < 256)%N -> Forall (quoted_char safe) (quote_byte safe b).
Proof.
  intros Hb.
  assert (Forall (quoted_char safe) (percent_escape b)) as Hescape.
  { unfold percent_escape.
    constructor; [right; by right|].
    constructor; [left; apply upper_hex_digit_safe; apply N.Div0.div_lt_upper_bound; lia|].
    constructor; [left; apply upper_hex_digit_safe; by apply N.mod_lt|].
    constructor. }
  unfold quote_byte.
  destruct (always_safe b) eqn:Hsafe; cbn [orb].
  { constructor; [by left|constructor]. }
  case_bool_decide as Hin; cbn [andb]; [|done].
  destruct (b <? 128)%N; [|done].
  constructor; [right; by left|constructor].
Qed.

Lemma quote_chars (safe s quoted : text) :
  quote safe s = Ok quoted -> Forall (quoted_char safe) quoted.
Proof.
  unfold quote, mbind, result_bind.
  destruct (utf8_encode s) as [bytes|] eqn:Hbytes; [|done]. intros [= <-].
  apply utf8_encode_bytes in Hbytes.
  induction Hbytes as [|b bytes Hb _ IH]; [constructor|].
  cbn [flat_map]. apply Forall_app. split; [by apply quote_byte_chars|exact IH].
Qed.

(** X21: the e-mail link of [share_recipe] is escaped in full.  The link is
    [mailto:?subject=S&body=B], where [S], the quoted title, is made of
    letters, digits, the characters [_.-~/] and escapes [%XX], and [B], the
    quoted message, of letters, digits, the characters [_.-~] and escapes:
    whatever the title and the source of the recipe are, no [&], [?], [#],
    blank or line break of theirs reaches the link. *)
Theorem share_mailto_quoted :
  forall (recipe source_url title : json) (url : text),
    share_link recipe source_url title (txt "4") = Ok (Some url) ->
    exists subject body : text,
      url = txt "mailto:?subject=" ++ subject ++ txt "&body=" ++ body /\
      Forall (quoted_char (txt "/")) subject /\
      Forall (quoted_char []) body /\
      Forall (fun c => c ∉ subject ++ body) [38; 63; 35; 32; 10]%N.
Proof.
  intros recipe source_url title url. unfold share_link.
  rewrite decide_False, decide_False, decide_False, decide_True by done.
  unfold mbind, result_bind.
  destruct (py_quote (txt "/") title) as [subject|] eqn:Hsubject; [|done].
  destruct (dict_get recipe _ _) as [ready_in_minutes|]; [|done].
  destruct (dict_get recipe _ _) as [cuisines_list|]; [|done].
  destruct (if py_truthy cuisines_list then _ else _) as [cuisine_str|]; [|done].
  destruct (quote [] _) as [body|] eqn:Hbody; [|done].
  intros [= <-]. exists subject, body. split; [done|].
  assert (Forall (quoted_char (txt "/")) subject) as Hs.
  { destruct title; try done. by apply (quote_chars _ s). }
  pose proof (quote_chars _ _ _ Hbody) as Hb.
  split; [done|]. split; [done|].
  assert (forall c : N,
             always_safe c = false -> c <> 37%N -> c <> 47%N -> c ∉ subject ++ body) as Hnot.
  { intros c Hc H37 H47. rewrite elem_of_app. intros [Hin|Hin].
    - apply (proj1 (Forall_forall _ _) Hs) in Hin as [?|[Hin|?]]; [congruence| |done].
      apply elem_of_cons in Hin as [?|Hin]; [done|]. by apply elem_of_nil in Hin.
    - apply (proj1 (Forall_forall _ _) Hb) in Hin as [?|[Hin|?]]; [congruence| |done].
      by apply elem_of_nil in Hin. }
  repeat constructor; by apply Hnot.
Qed.

(** X22: without a link there is nothing to share.  For a recipe that has a
    title, and a summary that is a string or none, and whose [sourceUrl] is
    missing, empty or [None], [share_recipe] opens no link, whatever is
    typed. *)
Theorem share_recipe_no_link :
  forall (d : list (text * json)) (title : json) (choices : list text),
    dict_lookup (txt "title") d = Some title ->
    (dict_lookup (txt "summary") d = None \/
     exists s, dict_lookup (txt "summary") d = Some (JStr s)) ->
    (dict_lookup (txt "sourceUrl") d = None \/
     dict_lookup (txt "sourceUrl") d = Some (JStr []) \/
     dict_lookup (txt "sourceUrl") d = Some JNull) ->
    share_recipe (JObj d) choices = Ok [].
Proof.
  intros d title choices Ht Hs Hu. unfold share_recipe, dict_get, subscript.
  rewrite Ht. cbn [mbind result_bind].
  assert (exists s, from_option id (JStr (txt "No description available."))
                      (dict_lookup (txt "summary") d) = JStr s) as [s ->].
  { destruct Hs as [->|[s ->]]; by eexists. }
  by destruct Hu as [->|[->| ->]].
Qed.

(** ** The amount of an ingredient *)

Lemma fib_SS (i : nat) : fib (S (S i)) = fib i + fib (S i).
Proof. done. Qed.

Lemma fib_bounds (i : nat) : 0 <= fib i <= fib (S i).
Proof.
  induction i as [|i IH]; [done|]. rewrite fib_SS. lia.
Qed.

Lemma fib_le (i j : nat) : (i <= j)%nat -> fib i <= fib j.
Proof.
  induction 1 as [|j _ IH]; [lia|]. pose proof (fib_bounds j). lia.
Qed.

Lemma fib_large (i : nat) : (31 <= i)%nat -> max_denominator < fib i.
Proof.
  intros Hi. apply (Z.lt_le_trans _ (fib 31)); [by vm_compute|]. by apply fib_le.
Qed.

(** The first iteration of the loop, on a fraction with a denominator above
    [max_denominator]. *)
Lemma limit_loop_first (fuel : nat) (N D : Z) :
  max_denominator < D ->
  limit_loop (S fuel) 0 1 1 0 N D = limit_loop fuel 1 0 (N / D) 1 D (N - N / D * D) /\
  limit_inv N D 1 1 0 (N / D) 1 D (N - N / D * D).
Proof.
  intros HD. unfold max_denominator in HD. split.
  - cbn [limit_loop]. rewrite (proj2 (Z.eqb_neq D 0)) by lia.
    replace (1 + N / D * 0) with 1 by lia.
    replace (0 + N / D * 1) with (N / D) by lia. done.
  - unfold limit_inv, max_denominator.
    pose proof (Z.mod_pos_bound N D ltac:(lia)) as Hmod.
    rewrite Z.mod_eq in Hmod by lia.
    repeat split; cbn; lia.
Qed.

(** The loop cannot find a remainder 0: the convergent would be the fraction
    itself, whose denominator is above [max_denominator]. *)
Lemma limit_inv_remainder (N D : Z) (i : nat) (p0 q0 p1 q1 n d : Z) :
  Z.gcd N D = 1 -> max_denominator < D ->
  limit_inv N D i p0 q0 p1 q1 n d -> 0 < d.
Proof.
  intros Hgcd HD (HN & HD' & _ & Hd & _ & Hq1 & _).
  destruct (Z.eq_dec d 0) as [->|]; [|lia]. exfalso.
  assert ((n | Z.gcd N D)) as Hdiv.
  { apply Z.gcd_greatest; [exists p1|exists q1]; lia. }
  rewrite Hgcd in Hdiv. apply Z.divide_1_r_nonneg in Hdiv; [|lia]. subst n. lia.
Qed.

(** One iteration keeps what holds of the variables. *)
Lemma limit_inv_step (N D : Z) (i : nat) (p0 q0 p1 q1 n d : Z) :
  (1 <= i)%nat -> 0 < d ->
  limit_inv N D i p0 q0 p1 q1 n d ->
  q0 + n / d * q1 <= max_denominator ->
  limit_inv N D (S i) p1 q1 (p0 + n / d * p1) (q0 + n / d * q1) d (n - n / d * d).
Proof.
  intros Hi Hd (HN & HD & Hdet & Hrem & Hq0 & Hq1 & Hfib1 & Hfib0) Hq2.
  assert (1 <= n / d) as Ha by (apply Z.div_le_lower_bound; lia).
  pose proof (Z.mod_pos_bound n d Hd) as Hmod. rewrite Z.mod_eq in Hmod by lia.
  destruct i as [|i]; [lia|]. cbn [pred] in Hfib0.
  unfold limit_inv.
  split; [rewrite HN; ring|]. split; [rewrite HD; ring|].
  split; [destruct Hdet; [right|left]; lia|].
  split; [lia|]. split; [lia|]. split; [nia|].
  split; [rewrite fib_SS; nia|]. cbn [pred]. lia.
Qed.

(** The loop ends, with convergents of which the next denominator is above
    [max_denominator]. *)
Lemma limit_loop_ends (N D : Z) (fuel i : nat) (p0 q0 p1 q1 n d : Z) :
  Z.gcd N D = 1 -> max_denominator < D ->
  (1 <= i)%nat -> (31 <= i + fuel)%nat ->
  limit_inv N D i p0 q0 p1 q1 n d ->
  exists (j : nat) (p0' q0' p1' q1' n' d' : Z),
    limit_loop fuel p0 q0 p1 q1 n d = Some (Ok (p0', q0', p1', q1')) /\
    limit_inv N D j p0' q0' p1' q1' n' d' /\
    0 < d' /\
    max_denominator < q0' + n' / d' * q1'.
Proof.
  intros Hgcd HD. revert i p0 q0 p1 q1 n d.
  induction fuel as [|fuel IH]; intros i p0 q0 p1 q1 n d Hi Hfuel Hinv.
  - exfalso. destruct Hinv as (_ & _ & _ & _ & _ & Hq1 & Hfib & _).
    pose proof (fib_large i ltac:(lia)). lia.
  - pose proof (limit_inv_remainder N D i p0 q0 p1 q1 n d Hgcd HD Hinv) as Hd.
    cbn [limit_loop]. rewrite (proj2 (Z.eqb_neq d 0)) by lia.
    destruct (Z.ltb_spec max_denominator (q0 + n / d * q1)) as [Hbreak|Hnext].
    + by exists i, p0, q0, p1, q1, n, d.
    + apply (IH (S i)); [lia|lia|]. by apply limit_inv_step.
Qed.

Lemma Fraction_lowest (a b : Z) :
  0 < b -> Z.gcd a b = 1 -> Fraction a b = Ok (a, b).
Proof.
  intros Hb Hgcd. unfold Fraction.
  rewrite (proj2 (Z.eqb_neq b 0)) by lia. rewrite (proj2 (Z.ltb_ge b 0)) by lia.
  by rewrite Hgcd, !Z.div_1_r.
Qed.

Lemma gcd_of_determinant (a b c e : Z) :
  a * e - c * b = 1 \/ a * e - c * b = -1 -> Z.gcd a b = 1.
Proof.
  intros [H|H]; apply Z.bezout_1_gcd.
  - exists e, (- c). lia.
  - exists (- e), c. lia.
Qed.

(** The comparison of the distances of two fractions to a third, in
    integers. *)
Lemma distance_le (a b c e N D : Z) :
  0 < b -> 0 < e -> 0 < D ->
  Qle_bool (Qabs (fraction_value (a, b) - fraction_value (N, D)))
           (Qabs (fraction_value (c, e) - fraction_value (N, D))) = true <->
  Z.abs (a * D - N * b) * e <= Z.abs (c * D - N * e) * b.
Proof.
  intros Hb He HD. rewrite Qle_bool_iff.
  unfold fraction_value, Qle, Qabs, Qminus, Qplus, Qopp. cbn [fst snd Qnum Qden].
  rewrite !Pos2Z.inj_mul, !Z2Pos.id by lia.
  replace (a * D + - N * b) with (a * D - N * b) by lia.
  replace (c * D + - N * e) with (c * D - N * e) by lia.
  generalize (Z.abs (a * D - N * b)) as x, (Z.abs (c * D - N * e)) as y.
  intros x y. split; intros H; nia.
Qed.

(** Of two distances [v/(a*D)] and [u/(b*D)] with [D = a*u + b*v], the
    smaller one is at most [1/(2*a*b)]. *)
Lemma closer_bound (M a b u v : Z) :
  1 <= a -> 1 <= b -> M <= a * b -> 0 <= u -> 0 <= v ->
  v * b <= u * a ->
  2 * M * v <= (a * u + b * v) * a.
Proof.
  intros Ha Hb HM Hu Hv Hle.
  assert (a * (v * b) <= a * (u * a)) as H1 by (apply Z.mul_le_mono_nonneg_l; lia).
  assert (M * v <= a * b * v) as H2 by (apply Z.mul_le_mono_nonneg_r; lia).
  replace ((a * u + b * v) * a) with (a * (u * a) + a * b * v) by ring.
  replace (a * (v * b)) with (a * b * v) in H1 by ring.
  replace (2 * M * v) with (M * v + M * v) by ring. lia.
Qed.

(** The fraction that [limit_denominator] gives for a fraction whose
    denominator is above [max_denominator]. *)
Lemma limit_denominator_close (N D : Z) :
  Z.gcd N D = 1 -> max_denominator < D ->
  exists n d : Z,
    limit_denominator (N, D) = Ok (n, d) /\
    1 <= d <= max_denominator /\
    Z.gcd n d = 1 /\
    2 * max_denominator * Z.abs (N * d - n * D) <= D * d.
Proof.
  intros Hgcd HD. unfold limit_denominator. cbn [fst snd].
  rewrite (proj2 (Z.leb_gt D max_denominator)) by done.
  destruct (limit_loop_first 39 N D HD) as [Hfirst Hinv1].
  change limit_fuel with 40%nat. rewrite Hfirst.
  destruct (limit_loop_ends N D 39 1 _ _ _ _ _ _ Hgcd HD ltac:(lia) ltac:(lia) Hinv1)
    as (j & p0 & q0 & p1 & q1 & n & d & -> & Hinv & Hd & Hbreak).
  clear Hfirst Hinv1. cbn [mbind result_bind].
  destruct Hinv as (HN & HD' & Hdet & Hrem & Hq0 & Hq1 & _ & _).
  rewrite (proj2 (Z.eqb_neq q1 0)) by lia.
  generalize dependent max_denominator. intros M HD Hbreak Hq0 Hq1.
  set (k := (M - q0) / q1).
  assert (q1 * k <= M - q0 < q1 * (k + 1)) as Hk.
  { split; [apply Z.mul_div_le; lia|]. apply Z.mul_succ_div_gt. lia. }
  assert (0 <= k) as Hk0 by (apply Z.div_pos; lia).
  assert (d * (n / d) <= n) as Hdiv by (apply Z.mul_div_le; lia).
  assert (k + 1 <= n / d) as Hka.
  { apply Z.nlt_ge. intros Hlt.
    assert (n / d * q1 <= k * q1) as Hmul by (apply Z.mul_le_mono_nonneg_r; lia).
    lia. }
  assert (d <= n - k * d) as Hu.
  { assert (d * (k + 1) <= d * (n / d)) as Hmul
      by (apply Z.mul_le_mono_nonneg_l; lia).
    lia. }
  set (u := n - k * d) in *.
  set (num1 := p0 + k * p1). set (den1 := q0 + k * q1).
  assert (1 <= den1 <= M) as Hden1 by (unfold den1; lia).
  assert (M <= q1 * den1) as Hprod.
  { assert (0 <= (q1 - 1) * (den1 - 1)) as Hmul by (apply Z.mul_nonneg_nonneg; lia).
    replace ((q1 - 1) * (den1 - 1)) with (q1 * den1 - q1 - den1 + 1) in Hmul by ring.
    unfold den1 in *. lia. }
  assert (D = q1 * u + den1 * d) as HDsum by (unfold den1, u; rewrite HD'; ring).
  assert (p1 * den1 - num1 * q1 = p1 * q0 - p0 * q1) as Hdet1
    by (unfold num1, den1; ring).
  assert (N * q1 - p1 * D = - (p1 * q0 - p0 * q1) * d) as Hdist2
    by (rewrite HN, HD'; ring).
  assert (N * den1 - num1 * D = (p1 * q0 - p0 * q1) * u) as Hdist1
    by (unfold num1, den1, u; rewrite HN, HD'; ring).
  assert (Z.abs (N * q1 - p1 * D) = d) as Habs2
    by (rewrite Hdist2; destruct Hdet as [-> | ->]; lia).
  assert (Z.abs (N * den1 - num1 * D) = u) as Habs1
    by (rewrite Hdist1; destruct Hdet as [-> | ->]; lia).
  assert (Z.gcd p1 q1 = 1) as Hgcd2
    by (apply (gcd_of_determinant p1 q1 p0 q0); lia).
  assert (Z.gcd num1 den1 = 1) as Hgcd1
    by (apply (gcd_of_determinant num1 den1 p1 q1); lia).
  rewrite (Fraction_lowest num1 den1) by (lia || done).
  rewrite (Fraction_lowest p1 q1) by (lia || done).
  cbn [mbind result_bind].
  pose proof (distance_le p1 q1 num1 den1 N D ltac:(lia) ltac:(lia) ltac:(lia)) as Hcmp.
  replace (Z.abs (p1 * D - N * q1)) with d in Hcmp by lia.
  replace (Z.abs (num1 * D - N * den1)) with u in Hcmp by lia.
  destruct (Qle_bool _ _).
  - exists p1, q1. split; [done|]. split; [lia|]. split; [done|].
    rewrite Habs2, HDsum. pose proof (proj1 Hcmp eq_refl) as Hle.
    apply closer_bound; lia.
  - exists num1, den1. split; [done|]. split; [lia|]. split; [done|].
    rewrite Habs1, HDsum.
    assert (u * q1 <= d * den1) as Hlt.
    { apply Z.lt_le_incl, Z.nle_gt. intros Hle. by pose proof (proj2 Hcmp Hle). }
    replace (q1 * u + den1 * d) with (den1 * d + q1 * u) by ring.
    apply closer_bound; lia.
Qed.

Lemma Fraction_of_float_lowest (x : F) :
  0 < (Fraction_of_float x).2 /\
  Z.gcd (Fraction_of_float x).1 (Fraction_of_float x).2 = 1 /\
  ((Fraction_of_float x).1 # Z.to_pos (Fraction_of_float x).2 == float_value x)%Q.
Proof.
  unfold Fraction_of_float. cbn [fst snd]. split; [lia|]. split; [apply gcd_Qred|].
  rewrite Pos2Z.id. destruct (Qred (float_value x)) as [num den] eqn:Hred.
  cbn [Qnum Qden]. rewrite <- Hred. apply Qred_correct.
Qed.

Lemma Qred_inject_Z (z : Z) : Qred (inject_Z z) = inject_Z z.
Proof.
  pose proof (Qred_correct (inject_Z z)) as Hc.
  pose proof (gcd_Qred (inject_Z z)) as Hg.
  destruct (Qred (inject_Z z)) as [a b]. unfold Qeq, inject_Z in *.
  cbn [Qnum Qden] in *.
  assert ((Zpos b | a)) as Hdiv by (exists z; lia).
  apply Z.divide_gcd_iff in Hdiv; [|lia].
  rewrite Z.gcd_comm, Hdiv in Hg. injection Hg as ->. f_equal. lia.
Qed.

Lemma Fraction_of_float_whole (x : F) :
  (Fraction_of_float x).2 = 1 <-> exists z : Z, (float_value x == inject_Z z)%Q.
Proof.
  unfold Fraction_of_float. cbn [snd]. split.
  - intros Hden. exists (Qnum (Qred (float_value x))).
    rewrite <- (Qred_correct (float_value x)) at 1.
    destruct (Qred (float_value x)) as [num den]. cbn [Qnum Qden] in *.
    injection Hden as ->. done.
  - intros [z Hz]. by rewrite (Qred_complete _ _ Hz), Qred_inject_Z.
Qed.

(** X23: amounts that need no fraction.  A missing amount ([None]) gives
    the empty text.  A whole amount gives its decimal numeral and nothing
    else: an integer (below the range of the floats in absolute value), a
    Boolean, and a float whose value is an integer. *)
Theorem format_ingredient_amount_whole :
  format_ingredient_amount JNull = Ok [] /\
  (forall z : Z,
      Z.abs z < 2 ^ 1024 - 2 ^ 970 ->
      format_ingredient_amount (JInt z) = Ok (int_text z)) /\
  (forall b : bool, format_ingredient_amount (JBool b) = Ok (int_text (Z.b2z b))) /\
  (forall (x : F) (z : Z),
      (float_value x == inject_Z z)%Q ->
      format_ingredient_amount (JFloat (Finite x)) = Ok (int_text z)).
Proof.
  split; [done|]. split; [|split; [done|]].
  - intros z Hz. cbn [format_ingredient_amount].
    by rewrite (proj2 (Z.ltb_lt _ _)) by exact Hz.
  - intros x z Hz. cbn [format_ingredient_amount]. cbv zeta.
    rewrite (proj2 (Fraction_of_float_whole x)) by (by exists z).
    rewrite Z.eqb_refl. do 2 f_equal.
    unfold Fraction_of_float. cbn [fst]. by rewrite (Qred_complete _ _ Hz), Qred_inject_Z.
Qed.

(** X24: an amount that is not whole is shown as a fraction close to it.
    For a finite float whose value is no integer, the text is that of a
    fraction [n/d] in lowest terms ([n] alone when [d] is 1), with a
    denominator from 1 to 1000000, that differs from the amount by 1/2000000
    at most, and that is the amount itself when the amount is a fraction
    with a denominator up to 1000000. *)
Theorem format_ingredient_amount_fraction :
  forall x : F,
    (forall z : Z, ~ (float_value x == inject_Z z)%Q) ->
    exists n d : Z,
      format_ingredient_amount (JFloat (Finite x)) =
        Ok (if d =? 1 then int_text n else int_text n ++ txt "/" ++ int_text d) /\
      1 <= d <= 1000000 /\
      Z.gcd n d = 1 /\
      (Qabs (float_value x - (n # Z.to_pos d)) <= 1 # 2000000)%Q /\
      (forall (a : Z) (b : positive),
          (float_value x == a # b)%Q -> Zpos b <= 1000000 ->
          (n # Z.to_pos d == float_value x)%Q).
Proof.
  intros x Hx. cbn [format_ingredient_amount]. cbv zeta.
  destruct (Fraction_of_float_lowest x) as (Hpos & Hgcd & Hvalue).
  destruct (Z.eqb_spec (Fraction_of_float x).2 1) as [Hwhole|_].
  { apply Fraction_of_float_whole in Hwhole as [z Hz]. by destruct (Hx z). }
  destruct (Fraction_of_float x) as [N D] eqn:Hself. cbn [fst snd] in *.
  destruct (Z.le_gt_cases D max_denominator) as [Hsmall|Hlarge].
  - exists N, D. unfold limit_denominator. cbn [fst snd].
    rewrite (proj2 (Z.leb_le _ _)) by done. cbn [mbind result_bind].
    split; [done|]. split; [unfold max_denominator in Hsmall; lia|]. split; [done|].
    split; [|done].
    rewrite <- Hvalue. unfold Qminus. rewrite Qplus_opp_r. done.
  - destruct (limit_denominator_close N D Hgcd Hlarge)
      as (n & d & -> & Hd & Hnd & Hclose).
    exists n, d. cbn [mbind result_bind]. split; [done|].
    unfold max_denominator in *. split; [done|]. split; [done|]. split.
    + rewrite <- Hvalue.
      unfold Qle, Qabs, Qminus, Qplus, Qopp. cbn [Qnum Qden].
      rewrite !Pos2Z.inj_mul, !Z2Pos.id by lia.
      replace (N * d + - n * D) with (N * d - n * D) by lia. lia.
    + intros a b Hab Hb. exfalso.
      assert (Qred (float_value x) = Qred (a # b)) as Hred by (by apply Qred_complete).
      unfold Fraction_of_float in Hself. rewrite Hred in Hself.
      injection Hself as _ HD.
      pose proof (Qred_correct (a # b)) as Hc. unfold Qeq in Hc. cbn [Qnum Qden] in Hc.
      pose proof (gcd_Qred (a # b)) as Hg.
      assert ((Zpos (Qden (Qred (a # b))) | Zpos b)) as Hdiv.
      { apply (Z.gauss _ (Qnum (Qred (a # b)))).
        - exists a. lia.
        - by rewrite Z.gcd_comm. }
      apply Z.divide_pos_le in Hdiv; lia.
Qed.

(** The loop at work: the fractions that Python gives for 0.3333333 and for
    3.141592653589793 taken as decimal fractions. *)
Example limit_denominator_third :
  limit_denominator (3333333, 10000000) = Ok (1, 3).
Proof. by vm_compute. Qed.

Example limit_denominator_pi :
  limit_denominator (3141592653589793, 1000000000000000) = Ok (3126535, 995207).
Proof. by vm_compute. Qed.

(** ** The characters of the favourites file *)

Lemma dumped_text_app (s t : text) :
  dumped_text (s ++ t) = dumped_text s && dumped_text t.
Proof. apply forallb_app. Qed.

Lemma hex_digit_dumped (n : N) : (n < 16)%N -> dumped_char (hex_digit n) = true.
Proof.
  intros Hn. unfold dumped_char, is_printable, hex_digit.
  destruct (N.ltb_spec n 10).
  - assert ((32 <=? 48 + n) && (48 + n <=? 126) = true)%N as ->; [|apply orb_true_r].
    apply andb_true_iff. split; apply N.leb_le; lia.
  - assert ((32 <=? 87 + n) && (87 + n <=? 126) = true)%N as ->; [|apply orb_true_r].
    apply andb_true_iff. split; apply N.leb_le; lia.
Qed.

Lemma u_escape_dumped (n : N) : dumped_text (u_escape n) = true.
Proof.
  unfold u_escape, hex4, dumped_text. cbn [forallb].
  rewrite !hex_digit_dumped by (by apply N.mod_lt). done.
Qed.

Lemma escape_char_dumped (c : N) : dumped_text (escape_char c) = true.
Proof.
  unfold escape_char.
  repeat match goal with
         | |- context [(c =? ?k)%N] => destruct (c =? k)%N; [done|]
         end.
  destruct (is_printable c) eqn:Hc.
  { unfold dumped_text, dumped_char. cbn [forallb]. rewrite Hc. by rewrite orb_true_r. }
  destruct (c <? 65536)%N; [apply u_escape_dumped|].
  cbv zeta. by rewrite dumped_text_app, !u_escape_dumped.
Qed.

Lemma encode_string_dumped (s : text) : dumped_text (encode_string s) = true.
Proof.
  unfold encode_string.
  change (34%N :: flat_map escape_char s ++ [34%N])
    with ([34%N] ++ flat_map escape_char s ++ [34%N]).
  rewrite !dumped_text_app. cbn [andb dumped_text forallb].
  rewrite andb_true_r. change (dumped_char 34) with true. cbn [andb].
  induction s as [|c s IH]; [done|]. cbn [flat_map].
  fold (dumped_text (escape_char c ++ flat_map escape_char s)).
  rewrite dumped_text_app, escape_char_dumped. exact IH.
Qed.

Lemma uint_text_dumped (u : uint) : dumped_text (uint_text u) = true.
Proof. induction u; cbn [uint_text]; try done; exact IHu. Qed.

Lemma int_text_dumped (z : Z) : dumped_text (int_text z) = true.
Proof.
  unfold int_text. destruct (Z.to_int z) as [u|u]; [apply uint_text_dumped|].
  cbn [dumped_text forallb]. change (dumped_char 45) with true.
  apply uint_text_dumped.
Qed.

Lemma newline_indent_dumped (level : nat) : dumped_text (newline_indent level) = true.
Proof.
  unfold newline_indent. cbn [dumped_text forallb]. change (dumped_char 10) with true.
  cbn [andb]. induction (4 * level)%nat as [|n IH]; [done|]. exact IH.
Qed.

Lemma encode_dumped (v : json) (level : nat) :
  (forall x : F, dumped_text (float_repr x) = true) ->
  dumped_text (encode level v) = true.
Proof.
  intros Hfloat. revert level.
  induction v as [|b|z|f|s|l IH|d IH] using json_ind'; intros level.
  - done.
  - by destruct b.
  - apply int_text_dumped.
  - destruct f as [x| | |]; try done. apply Hfloat.
  - apply encode_string_dumped.
  - destruct l as [|x l]; [done|]. rewrite encode_JArr.
    apply Forall_cons in IH as [Hx IH].
    change (91%N :: ?s) with ([91%N] ++ s).
    rewrite !dumped_text_app, !newline_indent_dumped, Hx. cbn [andb].
    rewrite andb_true_r. change (dumped_text [91%N]) with true. cbn [andb].
    induction IH as [|y l Hy _ IHl]; [done|]. cbn [encode_items].
    change (44%N :: ?s) with ([44%N] ++ s).
    by rewrite !dumped_text_app, newline_indent_dumped, Hy, IHl.
  - destruct d as [|[k x] d]; [done|]. rewrite encode_JObj.
    apply Forall_cons in IH as [Hx IH]. cbn [snd] in Hx.
    change (123%N :: ?s) with ([123%N] ++ s).
    rewrite !dumped_text_app, !newline_indent_dumped, encode_string_dumped, Hx.
    cbn [andb]. rewrite andb_true_r. change (dumped_text [123%N]) with true.
    change (dumped_text [58%N; 32%N]) with true. cbn [andb].
    induction IH as [|[k' y] d Hy _ IHd]; [done|]. cbn [encode_members snd] in *.
    change (44%N :: ?s) with ([44%N] ++ s).
    rewrite !dumped_text_app, newline_indent_dumped, encode_string_dumped, Hy, IHd.
    done.
Qed.

(** X25: the favourites file is plain ASCII.  Whatever the favourites are
    (titles in any script, emoji, control characters), the file that
    [save_favorites] writes holds only printable ASCII characters and line
    breaks, as long as the [repr] of a float does. *)
Theorem favorites_file_ascii :
  (forall x : F, dumped_text (float_repr x) = true) ->
  forall (favorites : json) (files : gmap text file_content),
    exists content : text,
      save_favorites favorites files !! FAVORITES_FILE = Some (Text content) /\
      Forall (fun c => c = 10%N \/ (32 <= c <= 126)%N) content.
Proof.
  intros Hfloat favorites files. exists (json_dumps favorites).
  split; [apply lookup_insert_eq|].
  pose proof (encode_dumped favorites 0 Hfloat) as Hdumped.
  unfold json_dumps. apply Forall_forall. intros c Hc.
  apply list_elem_of_In in Hc.
  apply (proj1 (forallb_forall _ _) Hdumped) in Hc.
  unfold dumped_char, is_printable in Hc.
  apply orb_true_iff in Hc as [Hc|Hc].
  - left. by apply N.eqb_eq.
  - right. apply andb_true_iff in Hc as [H1 H2].
    apply N.leb_le in H1, H2. lia.
Qed.

End RecipeFinder.

Arguments CacheSet {F} now key value.
Arguments CacheDel {F} key.
Arguments RecipeDetails {F} recipe_id.
Arguments SearchByIngredients {F} ingredients number.
Arguments FindByCuisine {F} cuisine meal_type number.

(** * The properties at concrete inputs

    The examples use the two-point float format [sample_float]. *)

Lemma sample_repr_literal (x : sample_float) :
  number_token (sample_repr x) = Some (sample_repr x, true, []).
Proof. by destruct x. Defined.

Lemma sample_of_repr (x : sample_float) :
  sample_of_literal (sample_repr x) = Finite x.
Proof. by destruct x. Defined.

Lemma cache_get_after_set_witness :
  let key : text := txt "ingredients_rice" in
  let later :=
    [CacheSet (float_of_int 50) (txt "cuisine_thai_") JNull; CacheDel (txt "details_7")] in
  let cache :=
    replay sample_float later
      (set_in_cache sample_float (float_of_int 0) ∅ key (JInt 7)) in
  Forall (fun op => op_key sample_float op ≠ key) later /\
  within_duration (float_of_int 3599) (float_of_int 0) = true /\
  get_from_cache sample_float (float_of_int 3599) cache key = JInt 7 /\
  within_duration (float_of_int 3600) (float_of_int 0) = false /\
  get_from_cache sample_float (float_of_int 3600) cache key = JNull /\
  get_from_cache sample_float (float_of_int 10) (replay sample_float later ∅) key = JNull.
Proof.
  intros key later cache.
  assert (Forall (fun op => op_key sample_float op ≠ key) later) as Hlater
    by (repeat constructor; by vm_compute).
  destruct (cache_get_after_set sample_float) as [Hset Hnever].
  split; [exact Hlater|].
  split; [reflexivity|].
  split; [exact (proj1 (Hset ∅ key (JInt 7) (float_of_int 0) (float_of_int 3599)
                          later Hlater) eq_refl)|].
  split; [reflexivity|].
  split; [exact (proj2 (Hset ∅ key (JInt 7) (float_of_int 0) (float_of_int 3600)
                          later Hlater) eq_refl)|].
  exact (Hnever later key (float_of_int 10) Hlater).
Defined.

(** The claim C1 as it is worded, with the difference of the exact times,
    fails at the boundary.  A value stored when the clock reads 0.1 and read
    when it reads 3600.1 (the floats 1/10 and 36001/10) is less than 3600
    seconds old, but the difference of the two floats rounds to 3600.0, and
    the read returns [None]. *)
Lemma cache_miss_below_duration :
  let s := PrimFloat.div (float_of_int 1) (float_of_int 10) in
  let t := PrimFloat.div (float_of_int 36001) (float_of_int 10) in
  let key : text := txt "ingredients_rice" in
  exists a b : Q,
    seconds t = Some a /\
    seconds s = Some b /\
    (a - b < 3600)%Q /\
    PrimFloat.sub t s = float_of_int 3600 /\
    get_from_cache sample_float t (set_in_cache sample_float s ∅ key (JInt 7)) key
    = JNull.
Proof.
  intros s t key.
  exists (7916703622312755 # 2199023255552)%Q, (7205759403792794 # 72057594037927936)%Q.
  split; [reflexivity|]. split; [reflexivity|].
  split; [reflexivity|]. split; [reflexivity|]. by vm_compute.
Defined.

Lemma calculate_difficulty_tiers_witness :
  exists tier,
    calculate_difficulty sample_float sample_value (sample_recipe 7 45) = Ok tier /\
    (tier = Hard <-> exceeds (Rational (inject_Z 45)) 60 \/ 15 < 2) /\
    (tier = Medium <->
     ~ (exceeds (Rational (inject_Z 45)) 60 \/ 15 < 2) /\
     (exceeds (Rational (inject_Z 45)) 30 \/ 10 < 2)) /\
    (tier = Easy <->
     ~ (exceeds (Rational (inject_Z 45)) 60 \/ 15 < 2) /\
     ~ (exceeds (Rational (inject_Z 45)) 30 \/ 10 < 2)).
Proof.
  exact (proj1 (calculate_difficulty_tiers sample_float sample_value)
           (sample_fields 7 45) (Rational (inject_Z 45)) sample_ingredients
           eq_refl eq_refl).
Defined.

Lemma parse_nutritional_info_bonuses_witness :
  exists info,
    parse_nutritional_info sample_float sample_value sample_repr sample_container_repr
      (JObj [(txt "nutrients",
              JArr [nutrient_record sample_float (txt "Protein") (JFloat (Finite Half))
                      (txt "g");
                    nutrient_record sample_float (txt "Sodium") (JInt 700) (txt "mg")])])
    = Ok info /\
    nutrition_score info = 60.
Proof.
  destruct (proj1 (parse_nutritional_info_bonuses sample_float sample_value sample_repr
                     sample_container_repr)
              (JObj [(txt "nutrients",
                      JArr [nutrient_record sample_float (txt "Protein")
                              (JFloat (Finite Half)) (txt "g");
                            nutrient_record sample_float (txt "Sodium") (JInt 700)
                              (txt "mg")])])
              (<[txt "Sodium" := (JInt 700, JStr (txt "mg"))]>
                 (<[txt "Protein" := (JFloat (Finite Half), JStr (txt "g"))]> ∅))
              (Rational (1 # 2)) (Rational 0) (Rational (inject_Z 700)) (Rational 0)
              eq_refl eq_refl eq_refl eq_refl eq_refl)
    as (info & Hinfo & Hscore).
  exists info. split; [exact Hinfo|]. rewrite Hscore. reflexivity.
Defined.

Lemma favorites_roundtrip_witness :
  wf_value sample_float (JArr [sample_recipe 716429 45; sample_recipe 12 20]) = true /\
  (json_depth sample_float (JArr [sample_recipe 716429 45; sample_recipe 12 20])
   <= sample_depth)%nat /\
  exists loaded,
    load_favorites sample_float sample_of_literal sample_depth sample_favorites_file
      (save_favorites sample_float sample_repr sample_favorites_file
         (JArr [sample_recipe 716429 45; sample_recipe 12 20]) ∅)
    = Ok loaded /\
    loaded = JArr [sample_recipe 716429 45; sample_recipe 12 20] /\
    py_eq sample_float sample_value loaded
      (JArr [sample_recipe 716429 45; sample_recipe 12 20]) = true.
Proof.
  assert (json_depth sample_float (JArr [sample_recipe 716429 45; sample_recipe 12 20])
          <= sample_depth)%nat as Hdepth
    by (apply Nat.leb_le; by vm_compute).
  split; [by vm_compute|]. split; [exact Hdepth|].
  apply (favorites_roundtrip sample_float sample_value sample_repr sample_of_literal
           sample_depth sample_favorites_file sample_repr_literal sample_of_repr);
    [by vm_compute|exact Hdepth].
Defined.

(** The claim C4 as it is worded fails for a record that holds a NaN, which
    [json.dump] writes as [NaN] and [json.load] reads back: the list loaded
    is not equal to the list saved. *)
Lemma favorites_roundtrip_NaN :
  let records : list (json sample_float) :=
    [JObj [(txt "id", JInt 1); (txt "title", JStr (txt "Soup"));
           (txt "healthScore", JFloat NaN)]] in
  exists loaded,
    load_favorites sample_float sample_of_literal sample_depth sample_favorites_file
      (save_favorites sample_float sample_repr sample_favorites_file (JArr records) ∅)
    = Ok loaded /\
    py_eq sample_float sample_value loaded (JArr records) = false.
Proof. intros records. eexists. split; by vm_compute. Defined.

Lemma favorites_toggle_semantics_witness :
  int_id sample_float (sample_recipe 2 20) = Some 2 /\
  ids_of sample_float [sample_recipe 1 45; sample_recipe 2 90] [1; 2] /\
  exists st',
    toggle_favorite sample_float sample_value sample_repr sample_container_repr
      sample_favorites_file (sample_recipe 2 20)
      {| favorites := JArr [sample_recipe 1 45; sample_recipe 2 90];
         is_favorite := bool_decide (2 ∈ [1; 2]);
         view_world := {| files := ∅; api_cache := ∅ |} |}
    = Ok st' /\
    favorites sample_float st' = JArr [sample_recipe 1 45].
Proof.
  assert (ids_of sample_float [sample_recipe 1 45; sample_recipe 2 90] [1; 2]) as Hids
    by (by repeat constructor).
  split; [reflexivity|]. split; [exact Hids|].
  destruct (favorites_toggle_semantics sample_float sample_value sample_repr
              sample_of_literal sample_container_repr sample_depth sample_favorites_file
              (sample_recipe 2 20) 2 [sample_recipe 1 45; sample_recipe 2 90] [1; 2]
              {| files := ∅; api_cache := ∅ |} eq_refl Hids)
    as (_ & (st' & favs' & zs' & Htoggle & Hfavs & _ & _ & Hpresent & _) & _).
  assert (2 ∈ [1; 2]) as Hin by (apply (bool_decide_unpack _); by vm_compute).
  destruct (Hpresent Hin) as [Hfiltered _].
  exists st'. split; [exact Htoggle|].
  rewrite Hfavs, Hfiltered. by vm_compute.
Defined.

Lemma favorites_ids_unique_witness :
  ids_of sample_float [sample_recipe 1 45; sample_recipe 2 90] [1; 2] /\
  NoDup [1; 2] /\
  exists favs',
    toggle_step sample_float sample_value sample_repr sample_container_repr
      sample_favorites_file [sample_recipe 1 45; sample_recipe 2 90]
      (sample_recipe 3 10) favs' /\
    exists zs', ids_of sample_float favs' zs' /\ NoDup zs'.
Proof.
  assert (ids_of sample_float [sample_recipe 1 45; sample_recipe 2 90] [1; 2]) as Hids
    by (by repeat constructor).
  assert (NoDup [1; 2]) as Hnd by (apply (bool_decide_unpack _); by vm_compute).
  split; [exact Hids|]. split; [exact Hnd|].
  destruct (proj1 (favorites_ids_unique sample_float sample_value sample_repr
                     sample_container_repr sample_favorites_file)
              [sample_recipe 1 45; sample_recipe 2 90] [1; 2] (sample_recipe 3 10) 3
              Hids Hnd eq_refl)
    as [[favs' Hstep] Hunique].
  exists favs'. split; [exact Hstep|]. exact (Hunique favs' Hstep).
Defined.

Lemma api_client_errors_caught_witness :
  let network (url : text) (params : list (text * json sample_float)) :=
    GetRaises ConnectionError (txt "connection refused") in
  run_call sample_float sample_repr sample_of_literal sample_container_repr
    (txt "key") network sample_depth InvalidJSONError (fun body => txt "Expecting value")
    (RecipeDetails (JInt 716429))
  = (Ok JNull, [error_line (txt "connection refused")]).
Proof.
  intros network.
  destruct (api_client_errors_caught sample_float sample_repr sample_of_literal
              sample_container_repr (txt "key") network sample_depth InvalidJSONError
              (fun body => txt "Expecting value") (RecipeDetails (JInt 716429)))
    as (url & params & _ & _ & Hraised & _).
  exact (Hraised ConnectionError (txt "connection refused") eq_refl eq_refl).
Defined.

(** The claim C7 as it is worded fails for a response whose body is an
    integer of 4301 digits: the GET succeeds with status 200, the decoder
    raises a [ValueError], which is no request exception, and the error
    leaves the operation. *)
Lemma api_client_error_escapes :
  let network (url : text) (params : list (text * json sample_float)) :=
    GetReturns {| status_code := 200; reason := txt "OK"; response_url := url;
                  body := repeat 49%N 4301 |} in
  run_call sample_float sample_repr sample_of_literal sample_container_repr
    (txt "key") network sample_depth InvalidJSONError (fun body => txt "Expecting value")
    (SearchByIngredients [txt "rice"] 7)
  = (Raise ValueError, []) /\
  is_request_exception ValueError = false.
Proof. intros network. split; by vm_compute. Defined.

Lemma load_favorites_cases_witness :
  load_favorites sample_float sample_of_literal sample_depth sample_favorites_file ∅
  = Ok (JArr []) /\
  load_favorites sample_float sample_of_literal sample_depth sample_favorites_file
    {[sample_favorites_file := Text (txt "[1, 2")]} = Ok (JArr []) /\
  load_favorites sample_float sample_of_literal sample_depth sample_favorites_file
    {[sample_favorites_file := Text (txt " [1, 0.5] ")]}
  = Ok (JArr [JInt 1; JFloat (Finite Half)]).
Proof.
  split; [|split].
  - exact (proj1 (load_favorites_cases sample_float sample_of_literal sample_depth
                    sample_favorites_file ∅) eq_refl).
  - exact (proj1 (proj2 (load_favorites_cases sample_float sample_of_literal
                           sample_depth sample_favorites_file
                           {[sample_favorites_file := Text (txt "[1, 2")]}))
             (txt "[1, 2") (lookup_singleton_eq _ _) eq_refl).
  - exact (proj1 (proj2 (proj2 (load_favorites_cases sample_float sample_of_literal
                           sample_depth sample_favorites_file
                           {[sample_favorites_file := Text (txt " [1, 0.5] ")]})))
             (txt " [1, 0.5] ") (JArr [JInt 1; JFloat (Finite Half)])
             (lookup_singleton_eq _ _) eq_refl).
Defined.

(** The claim C8 as it is worded fails for a favourites file that is no text
    in the encoding of the locale, and for one that holds an integer of 4301
    digits: [load_favorites] returns neither the empty list nor a decoded
    value, it raises. *)
Lemma load_favorites_raises :
  load_favorites sample_float sample_of_literal sample_depth sample_favorites_file
    {[sample_favorites_file := Undecodable]} = Raise UnicodeDecodeError /\
  load_favorites sample_float sample_of_literal sample_depth sample_favorites_file
    {[sample_favorites_file := Text (91%N :: repeat 49%N 4301 ++ [93%N])]}
  = Raise ValueError.
Proof. split; by vm_compute. Defined.

Lemma ingredients_cache_key_Permutation_witness :
  let l1 := [txt "rice"; txt "chicken"; txt "tomatoes"] in
  let l2 := [txt "tomatoes"; txt "rice"; txt "chicken"] in
  l1 ≡ₚ l2 /\
  ingredients_cache_key l1 = txt "ingredients_chicken,rice,tomatoes" /\
  ingredients_cache_key l1 = ingredients_cache_key l2 /\
  search_cache_key (txt "rice, chicken,tomatoes")
  = search_cache_key (txt " tomatoes,rice ,chicken") /\
  (ingredients_cache_key l1 = ingredients_cache_key [txt "chicken"; txt "tomatoes"; txt "rice"] ->
   l1 ≡ₚ [txt "chicken"; txt "tomatoes"; txt "rice"]).
Proof.
  intros l1 l2.
  assert (l1 ≡ₚ l2) as Hperm.
  { change l2 with ([txt "tomatoes"] ++ [txt "rice"; txt "chicken"]).
    change l1 with ([txt "rice"; txt "chicken"] ++ [txt "tomatoes"]).
    apply Permutation_app_comm. }
  destruct ingredients_cache_key_Permutation as (Hbuilt & Hsame & Hconverse & Hsearch).
  split; [exact Hperm|].
  split; [by rewrite (proj1 (Hbuilt l1))|].
  split; [exact (Hsame l1 l2 Hperm)|].
  split; [exact (Hsame _ _ Hperm)|].
  apply Hconverse; try done.
  all: apply (bool_decide_unpack _); by vm_compute.
Defined.

Lemma nutrition_score_range_witness :
  exists info,
    parse_nutritional_info sample_float sample_value sample_repr sample_container_repr
      (nutrition_example sample_float) = Ok info /\
    50 <= nutrition_score info <= 100.
Proof.
  eexists. split; [by vm_compute|].
  apply (proj1 (nutrition_score_range sample_float sample_value sample_repr
                  sample_container_repr) (nutrition_example sample_float)).
  by vm_compute.
Defined.

(** ** Further properties at concrete inputs *)

Lemma calculate_difficulty_monotone_witness :
  exists (t1 t2 : text) (i1 i2 : Z),
    calculate_difficulty sample_float sample_value (sample_recipe 1 20) = Ok t1 /\
    calculate_difficulty sample_float sample_value (sample_recipe 2 45) = Ok t2 /\
    tier_index t1 = Ok i1 /\
    tier_index t2 = Ok i2 /\
    i1 <= i2.
Proof.
  apply (calculate_difficulty_monotone sample_float sample_value
           (sample_fields 1 20) (sample_fields 2 45) (inject_Z 20) (inject_Z 45)
           sample_ingredients sample_ingredients eq_refl eq_refl eq_refl eq_refl).
  - unfold Qle. cbn. lia.
  - lia.
Defined.

Lemma nutrition_score_top_witness :
  exists info,
    parse_nutritional_info sample_float sample_value sample_repr sample_container_repr
      (nutrition_example sample_float) = Ok info /\
    (nutrition_score info = 100 <->
     exceeds (Rational (inject_Z 30)) 25 /\
     exceeds (Rational (inject_Z 25)) 20 /\
     below (Rational (inject_Z 200)) 500).
Proof.
  exact (nutrition_score_top sample_float sample_value sample_repr sample_container_repr
           (nutrition_example sample_float)
           (<[txt "Calories" := (JInt 400, JStr (txt "kcal"))]>
              (<[txt "Sodium" := (JInt 200, JStr (txt "mg"))]>
                 (<[txt "Vitamin A" := (JInt 25, JStr (txt "% of Daily Needs"))]>
                    (<[txt "Protein" := (JInt 30, JStr (txt "g"))]> ∅))))
           (Rational (inject_Z 30)) (Rational (inject_Z 25)) (Rational (inject_Z 200))
           (Rational (inject_Z 400)) eq_refl eq_refl eq_refl eq_refl eq_refl).
Defined.

Lemma nutrition_flags_witness :
  exists info,
    parse_nutritional_info sample_float sample_value sample_repr sample_container_repr
      (nutrition_of_entries sample_float
         [(txt "Sodium", JInt 1200, txt "mg"); (txt "Protein", JInt 30, txt "g")])
    = Ok info /\
    health_metrics info = [high_in_protein; high_in_sodium] /\
    nutrition_score info <= 90.
Proof.
  destruct (nutrition_flags sample_float sample_value sample_repr sample_container_repr
              (nutrition_of_entries sample_float
                 [(txt "Sodium", JInt 1200, txt "mg"); (txt "Protein", JInt 30, txt "g")])
              (<[txt "Protein" := (JInt 30, JStr (txt "g"))]>
                 (<[txt "Sodium" := (JInt 1200, JStr (txt "mg"))]> ∅))
              (Rational (inject_Z 30)) (Rational 0) (Rational (inject_Z 1200)) (Rational 0)
              eq_refl eq_refl eq_refl eq_refl eq_refl)
    as (info & Hinfo & Hflags & Hsodium & _).
  exists info. split; [exact Hinfo|]. split.
  - rewrite Hflags. reflexivity.
  - apply Hsodium. rewrite Hflags. by vm_compute; right; left.
Defined.

Lemma nutrients_incomplete_entry_witness :
  parse_nutritional_info sample_float sample_value sample_repr sample_container_repr
    (JObj [(txt "nutrients",
            JArr [nutrient_record sample_float (txt "Protein") (JInt 30) (txt "g");
                  JObj [(txt "name", JStr (txt "Fat")); (txt "amount", JInt 3)]])])
  = Raise KeyError.
Proof.
  apply (nutrients_incomplete_entry sample_float sample_value sample_repr
           sample_container_repr [(txt "Protein", JInt 30, txt "g")]
           [(txt "name", JStr (txt "Fat")); (txt "amount", JInt 3)] [] []).
  right. right. reflexivity.
Defined.

Arguments Refused {F}.
Arguments Found {F} from_cache recipes table.
Arguments NotFound {F}.

(** A network for the examples: the search by ingredients finds the recipes
    1 and 2, whose details it has; every other request is refused. *)
Abbreviation sample_details id minutes title :=
  (JObj [(txt "id", JInt id); (txt "title", JStr (txt title));
         (txt "readyInMinutes", JInt minutes);
         (txt "extendedIngredients", JArr sample_ingredients)]).

Abbreviation sample_answer url v :=
  (GetReturns {| status_code := 200; reason := txt "OK"; response_url := url;
                 body := json_dumps sample_float sample_repr v |}).

Abbreviation sample_network :=
  (fun (url : text) (params : list (text * json sample_float)) =>
     if decide (url = txt "https://api.spoonacular.com/recipes/findByIngredients")
     then sample_answer url (JArr [JObj [(txt "id", JInt 1)]; JObj [(txt "id", JInt 2)]])
     else if decide (url = txt "https://api.spoonacular.com/recipes/1/information")
     then sample_answer url (sample_details 1 90 "Stew")
     else if decide (url = txt "https://api.spoonacular.com/recipes/2/information")
     then sample_answer url (sample_details 2 20 "Salad")
     else GetRaises ConnectionError (txt "connection refused")).

Abbreviation sample_plus :=
  (fun a b : json sample_float => Raise TypeError : result (json sample_float)).

Abbreviation sample_title_cell :=
  (fun title : json sample_float => Raise OtherError : result text).

Abbreviation sample_search_by_ingredients network :=
  (search_by_ingredients sample_float sample_value sample_repr sample_of_literal
     sample_container_repr (txt "key") network sample_depth InvalidJSONError
     (fun body : text => txt "Expecting value") sample_plus sample_title_cell).

Abbreviation sample_display_recipes :=
  (display_recipes sample_float sample_value sample_repr sample_container_repr
     sample_plus sample_title_cell).

Lemma display_recipes_sorted_witness :
  let l := [sample_details 1 90 "Stew"; sample_details 2 20 "Salad";
            sample_details 3 45 "Curry"; sample_details 4 10 "Toast"] in
  exists rows,
    sample_display_recipes (JArr l)
    = Ok (JArr [sample_details 2 20 "Salad"; sample_details 4 10 "Toast";
                sample_details 3 45 "Curry"; sample_details 1 90 "Stew"],
          RecipeTable rows) /\
    map row_title rows = [txt "Salad"; txt "Toast"; txt "Curry"; txt "Stew"] /\
    map row_number rows = [txt "1"; txt "2"; txt "3"; txt "4"].
Proof.
  intros l. assert (l <> []) as Hl by done.
  destruct (sample_display_recipes (JArr l)) as [[r s]|] eqn:Hdisplay;
    [|by vm_compute in Hdisplay].
  assert (exists l', r = JArr l') as [l' ->].
  { vm_compute in Hdisplay. injection Hdisplay as <- _. by eexists. }
  destruct (display_recipes_sorted sample_float sample_value sample_repr
              sample_container_repr sample_plus sample_title_cell l l' s Hl Hdisplay)
    as (Hsorted & _ & rows & -> & _ & _).
  exists rows. rewrite Hsorted. vm_compute in Hdisplay. injection Hdisplay as _ <-.
  by vm_compute.
Defined.

Arguments outcome {F} s.
Arguments cache_after {F} s.
Arguments requests {F} s.
Arguments error_lines {F} s.

Lemma display_recipes_again_witness :
  let l := [sample_details 1 90 "Stew"; sample_details 2 20 "Salad"] in
  let l' := [sample_details 2 20 "Salad"; sample_details 1 90 "Stew"] in
  exists s,
    sample_display_recipes (JArr l) = Ok (JArr l', s) /\
    sample_display_recipes (JArr l') = Ok (JArr l', s).
Proof.
  intros l l'.
  destruct (sample_display_recipes (JArr l)) as [[r s]|] eqn:Hdisplay;
    [|by vm_compute in Hdisplay].
  assert (r = JArr l') as ->.
  { vm_compute in Hdisplay. by injection Hdisplay as <- _. }
  exists s. split; [done|].
  exact (display_recipes_again sample_float sample_value sample_repr
           sample_container_repr sample_plus sample_title_cell l l' s Hdisplay).
Defined.

Lemma recipe_row_ingredients_witness :
  exists row,
    recipe_row sample_float sample_repr sample_container_repr sample_plus
      sample_title_cell 0
      (JObj [(txt "title", JStr (txt "Soup")); (txt "usedIngredientCount", JInt 2);
             (txt "missedIngredientCount", JInt 3)])
    = Ok row /\
    row_ingredients row = txt "5 ingredients".
Proof.
  eexists. split; [reflexivity|].
  exact (proj1 (proj2 (recipe_row_ingredients sample_float sample_repr
                         sample_container_repr sample_plus sample_title_cell 0
                         [(txt "title", JStr (txt "Soup"));
                          (txt "usedIngredientCount", JInt 2);
                          (txt "missedIngredientCount", JInt 3)] _ eq_refl))
           2 3 eq_refl eq_refl eq_refl).
Defined.

Lemma search_by_ingredients_again_witness :
  exists res recipes table,
    sample_search_by_ingredients sample_network 0 1 (txt "rice, beans") ∅ = Ok res /\
    outcome res = Found false recipes table /\
    sample_search_by_ingredients sample_network 100 101 (txt "beans,rice")
      (cache_after res)
    = Ok {| outcome := Found true recipes table; cache_after := cache_after res;
            requests := []; error_lines := [] |}.
Proof.
  destruct (sample_search_by_ingredients sample_network 0 1 (txt "rice, beans") ∅)
    as [res|] eqn:Hsearch; [|by vm_compute in Hsearch].
  assert (exists recipes table, outcome res = Found false recipes table)
    as (recipes & table & Hfound).
  { pose proof Hsearch as Hval. vm_compute in Hval. injection Hval as <-.
    by eexists _, _. }
  exists res, recipes, table. split; [done|]. split; [done|].
  apply (search_by_ingredients_again sample_float sample_value sample_repr
           sample_of_literal sample_container_repr (txt "key") sample_network sample_depth
           InvalidJSONError (fun body : text => txt "Expecting value") sample_plus
           sample_title_cell 0 1 100 101 (txt "rice, beans") (txt "beans,rice") ∅
           res recipes table Hsearch Hfound).
  - done.
  - change (map strip (split 44 (txt "rice, beans"))) with [txt "rice"; txt "beans"].
    change (map strip (split 44 (txt "beans,rice"))) with [txt "beans"; txt "rice"].
    apply Permutation_swap.
  - reflexivity.
Defined.

Abbreviation sample_network_down :=
  (fun (url : text) (params : list (text * json sample_float)) =>
     GetRaises ConnectionError (txt "connection refused")).

(** A network whose search finds the recipe 1, and that has no details. *)
Abbreviation sample_network_no_details :=
  (fun (url : text) (params : list (text * json sample_float)) =>
     if decide (url = txt "https://api.spoonacular.com/recipes/findByIngredients")
     then sample_answer url (JArr [JObj [(txt "id", JInt 1)]])
     else GetRaises ConnectionError (txt "connection refused")).

Lemma search_failure_not_cached_witness :
  sample_search_by_ingredients sample_network_down 0 1 (txt "rice") ∅
  = Ok {| outcome := NotFound; cache_after := ∅;
          requests := [SearchByIngredients [txt "rice"] 7];
          error_lines := [error_line (txt "connection refused")] |}.
Proof.
  assert (txt "rice" <> []) as Hline by done.
  exact (proj1 (search_failure_not_cached sample_float sample_value sample_repr
                  sample_of_literal sample_container_repr (txt "key")
                  sample_network_down sample_depth InvalidJSONError
                  (fun body : text => txt "Expecting value") sample_plus
                  sample_title_cell 0 1 (txt "rice") ∅ Hline eq_refl)
           ConnectionError (txt "connection refused") eq_refl eq_refl).
Defined.

Lemma cached_empty_list_not_served_witness :
  exists res res',
    sample_search_by_ingredients sample_network_no_details 0 1 (txt "rice") ∅ = Ok res /\
    outcome res = NotFound /\
    cache_after res !! txt "ingredients_rice"
    = Some {| data := JArr []; timestamp := 1 |} /\
    sample_search_by_ingredients sample_network_no_details 2 3 (txt "rice")
      (cache_after res) = Ok res' /\
    exists calls, requests res' = SearchByIngredients [txt "rice"] 7 :: calls.
Proof.
  assert (txt "rice" <> []) as Hline by done.
  destruct (sample_search_by_ingredients sample_network_no_details 0 1 (txt "rice") ∅)
    as [res|] eqn:Hsearch; [|by vm_compute in Hsearch].
  assert (outcome res = NotFound /\ (2 <= length (requests res))%nat) as [Hout Hcalls].
  { pose proof Hsearch as Hval. vm_compute in Hval. injection Hval as <-.
    split; [done|]. cbn. lia. }
  destruct (proj2 (cached_empty_list_not_served sample_float sample_value sample_repr
                     sample_of_literal sample_container_repr (txt "key")
                     sample_network_no_details sample_depth InvalidJSONError
                     (fun body : text => txt "Expecting value") sample_plus
                     sample_title_cell)
              0%float 1%float (txt "rice") ∅ res Hsearch Hout Hcalls) as [Hentry Hfalse].
  destruct (sample_search_by_ingredients sample_network_no_details 2 3 (txt "rice")
              (cache_after res)) as [res'|] eqn:Hsearch'.
  - exists res, res'. split; [done|]. split; [done|]. split; [exact Hentry|].
    split; [done|].
    exact (proj1 (cached_empty_list_not_served sample_float sample_value sample_repr
                    sample_of_literal sample_container_repr (txt "key")
                    sample_network_no_details sample_depth InvalidJSONError
                    (fun body : text => txt "Expecting value") sample_plus
                    sample_title_cell)
             2%float 3%float (txt "rice") (cache_after res) res' Hline (Hfalse 2%float) Hsearch').
  - exfalso. pose proof Hsearch as Hval. vm_compute in Hval. injection Hval as <-.
    by vm_compute in Hsearch'.
Defined.

Abbreviation sample_search_by_cuisine network :=
  (search_by_cuisine sample_float sample_value sample_repr sample_of_literal
     sample_container_repr (txt "key") network sample_depth InvalidJSONError
     (fun body : text => txt "Expecting value") sample_plus sample_title_cell
     (fun s : text => s)).

Lemma search_by_cuisine_validates_witness :
  sample_search_by_cuisine sample_network_down 0 1 (txt "Klingon") (txt "soup") ∅
  = Ok {| outcome := Refused; cache_after := ∅; requests := []; error_lines := [] |} /\
  exists res,
    sample_search_by_cuisine sample_network_down 0 1 (txt "ITALIAN") (txt "Soup") ∅
    = Ok res /\
    outcome res <> Refused /\
    Forall (fun call =>
              call = FindByCuisine (txt "italian") (Some (txt "soup")) 5 \/
              exists recipe_id, call = RecipeDetails recipe_id)
      (requests res).
Proof.
  split.
  - apply (proj1 (search_by_cuisine_validates sample_float sample_value sample_repr
                    sample_of_literal sample_container_repr (txt "key")
                    sample_network_down sample_depth InvalidJSONError
                    (fun body : text => txt "Expecting value") sample_plus
                    sample_title_cell (fun s : text => s) 0 1 (txt "Klingon")
                    (txt "soup") ∅)).
    intros [Hcuisine _]. vm_compute in Hcuisine.
    repeat (apply elem_of_cons in Hcuisine as [Hcuisine|Hcuisine]; [done|]).
    by apply elem_of_nil in Hcuisine.
  - destruct (sample_search_by_cuisine sample_network_down 0 1 (txt "ITALIAN")
                (txt "Soup") ∅) as [res|] eqn:Hsearch; [|by vm_compute in Hsearch].
    exists res. split; [done|].
    apply (proj2 (search_by_cuisine_validates sample_float sample_value sample_repr
                    sample_of_literal sample_container_repr (txt "key")
                    sample_network_down sample_depth InvalidJSONError
                    (fun body : text => txt "Expecting value") sample_plus
                    sample_title_cell (fun s : text => s) 0 1 (txt "ITALIAN")
                    (txt "Soup") ∅)); [|done].
    split.
    + change (py_lower (fun s : text => s) (txt "ITALIAN")) with (txt "italian").
      by left.
    + right. change (py_lower (fun s : text => s) (txt "Soup")) with (txt "soup").
      unfold meal_types. do 4 right. by left.
Defined.

Lemma cache_keys_distinct_witness :
  search_cache_key (txt "rice, beans") = search_cache_key (txt "beans,rice ") /\
  map strip (split 44 (txt "rice, beans")) ≡ₚ map strip (split 44 (txt "beans,rice ")) /\
  (cuisine_cache_key (txt "thai") (txt "soup") = cuisine_cache_key (txt "thai") (txt "soup") ->
   txt "thai" = txt "thai" /\ txt "soup" = txt "soup").
Proof.
  assert (search_cache_key (txt "rice, beans") = search_cache_key (txt "beans,rice "))
    as Hkey by reflexivity.
  split; [exact Hkey|]. split.
  - exact (proj1 (proj1 (cache_keys_distinct (fun s : text => s))
                    (txt "rice, beans") (txt "beans,rice ")) Hkey).
  - apply (proj1 (proj2 (cache_keys_distinct (fun s : text => s)))).
    + change (map (py_lower (fun s : text => s)) cuisines)
        with [txt "italian"; txt "chinese"; txt "mexican"; txt "indian";
              txt "japanese"; txt "thai"; txt "french"; txt "spanish"].
      do 5 right. by left.
    + change (map (py_lower (fun s : text => s)) cuisines)
        with [txt "italian"; txt "chinese"; txt "mexican"; txt "indian";
              txt "japanese"; txt "thai"; txt "french"; txt "spanish"].
      do 5 right. by left.
Defined.

Lemma toggle_keeps_search_cache_witness :
  let cache : gmap text (cache_entry sample_float) :=
    {[txt "ingredients_rice" := {| data := JArr [sample_recipe 1 45]; timestamp := 0 |}]} in
  let st := {| favorites := JArr [sample_recipe 1 45]; is_favorite := true;
               view_world := {| files := ∅; api_cache := cache |} |} in
  exists st',
    toggle_favorite sample_float sample_value sample_repr sample_container_repr
      sample_favorites_file (sample_recipe 1 45) st = Ok st' /\
    favorites sample_float st' = JArr [] /\
    api_cache sample_float (view_world sample_float st') = cache.
Proof.
  intros cache st.
  destruct (toggle_favorite sample_float sample_value sample_repr sample_container_repr
              sample_favorites_file (sample_recipe 1 45) st)
    as [st'|] eqn:Htoggle; [|by vm_compute in Htoggle].
  exists st'. split; [done|]. split.
  - pose proof Htoggle as Hval. vm_compute in Hval. by injection Hval as <-.
  - apply (proj1 (toggle_keeps_search_cache sample_float sample_value sample_repr
                    sample_of_literal sample_container_repr sample_favorites_file
                    (txt "key") sample_network_down sample_depth InvalidJSONError
                    (fun body : text => txt "Expecting value") sample_plus
                    sample_title_cell (fun s : text => s))
             (sample_recipe 1 45) st st'); [|exact Htoggle].
    intros key [e He]. cbn [view_world api_cache st] in He. unfold cache in He.
    apply lookup_singleton_Some in He as [<- _].
    left. by exists [txt "rice"].
Defined.

Lemma toggle_twice_witness :
  exists st',
    toggle_times sample_float sample_value sample_repr sample_container_repr
      sample_favorites_file 2 (sample_recipe 2 20)
      {| favorites := JArr [sample_recipe 1 45]; is_favorite := bool_decide (2 ∈ [1]);
         view_world := {| files := ∅; api_cache := ∅ |} |}
    = Ok st' /\
    favorites sample_float st' = JArr [sample_recipe 1 45].
Proof.
  assert (ids_of sample_float [sample_recipe 1 45] [1]) as Hids by (by repeat constructor).
  destruct (toggle_twice sample_float sample_value sample_repr sample_container_repr
              sample_favorites_file (sample_recipe 2 20) 2 [sample_recipe 1 45] [1]
              {| files := ∅; api_cache := ∅ |} eq_refl Hids)
    as (st' & Htoggle & _ & Habsent & _).
  exists st'. split; [exact Htoggle|].
  apply Habsent. intros Hin. apply elem_of_cons in Hin as [Hin|Hin]; [done|].
  by apply elem_of_nil in Hin.
Defined.

Lemma favorites_persist_witness :
  exists st',
    toggle_times sample_float sample_value sample_repr sample_container_repr
      sample_favorites_file 1 (sample_recipe 2 20)
      {| favorites := JArr [sample_recipe 1 45]; is_favorite := bool_decide (2 ∈ [1]);
         view_world := {| files := ∅; api_cache := ∅ |} |}
    = Ok st' /\
    load_favorites sample_float sample_of_literal sample_depth sample_favorites_file
      (files sample_float (view_world sample_float st'))
    = Ok (favorites sample_float st') /\
    view_enter sample_float sample_value sample_of_literal sample_depth
      sample_favorites_file (sample_recipe 2 20) (view_world sample_float st') = Ok st'.
Proof.
  assert (ids_of sample_float [sample_recipe 1 45] [1]) as Hids by (by repeat constructor).
  exact (favorites_persist sample_float sample_value sample_repr sample_of_literal
           sample_container_repr sample_depth sample_favorites_file sample_repr_literal
           sample_of_repr 0 (sample_recipe 2 20) 2 [sample_recipe 1 45] [1]
           {| files := ∅; api_cache := ∅ |} eq_refl Hids eq_refl eq_refl).
Defined.

Lemma instructions_text_missing_witness :
  instructions_text sample_float sample_value
    (JObj [(txt "title", JStr (txt "Soup")); (txt "instructions", JNull)])
  = Ok (txt "No instructions available.") /\
  instructions_text sample_float sample_value (JObj [(txt "title", JStr (txt "Soup"))])
  = Ok (txt "1. No instructions available.").
Proof.
  split.
  - apply (proj1 (instructions_text_missing sample_float sample_value
                    [(txt "title", JStr (txt "Soup")); (txt "instructions", JNull)])).
    by left.
  - by apply (proj2 (instructions_text_missing sample_float sample_value
                       [(txt "title", JStr (txt "Soup"))])).
Defined.

Lemma instructions_text_html_steps_witness :
  instructions_text sample_float sample_value
    (JObj [(txt "instructions",
            JStr (txt "<ol><li>Boil the water. </li><li>Add the rice.</li></ol>"))])
  = Ok (txt "1. Boil the water." ++ [10%N] ++ txt "2. Add the rice.").
Proof.
  apply (instructions_text_html_steps sample_float sample_value
           [(txt "instructions",
             JStr (txt "<ol><li>Boil the water. </li><li>Add the rice.</li></ol>"))]
           [txt "Boil the water. "; txt "Add the rice."]); [|reflexivity].
  repeat constructor; try done;
    intros Hin; vm_compute in Hin;
    repeat (apply elem_of_cons in Hin as [Hin|Hin]; [done|]);
    by apply elem_of_nil in Hin.
Defined.

Lemma instructions_text_positions_witness :
  exists shown_lines,
    instructions_text sample_float sample_value
      (JObj [(txt "instructions", JStr (txt "Boil." ++ [10; 10]%N ++ txt "Serve."))])
    = Ok (join [10%N] shown_lines) /\
    txt "3. Serve." ∈ shown_lines.
Proof.
  destruct (instructions_text_positions sample_float sample_value
              [(txt "instructions", JStr (txt "Boil." ++ [10; 10]%N ++ txt "Serve."))]
              (txt "Boil." ++ [10; 10]%N ++ txt "Serve.") ltac:(done) eq_refl)
    as (shown_lines & Htext & Hlines).
  exists shown_lines. split; [exact Htext|].
  apply Hlines. exists 2%nat, (txt "Serve."). by vm_compute.
Defined.

Lemma share_mailto_quoted_witness :
  let recipe : json sample_float :=
    JObj [(txt "title", JStr (txt "Fish & chips")); (txt "cuisines", JArr [JStr (txt "british")])] in
  exists url subject body,
    share_link sample_float sample_value sample_repr sample_container_repr recipe
      (JStr (txt "https://example.com/r?id=1")) (JStr (txt "Fish & chips")) (txt "4")
    = Ok (Some url) /\
    take 34 url = txt "mailto:?subject=Fish%20%26%20chips" /\
    url = txt "mailto:?subject=" ++ subject ++ txt "&body=" ++ body /\
    Forall (fun c => c ∉ subject ++ body) [38; 63; 35; 32; 10]%N.
Proof.
  intros recipe.
  destruct (share_link sample_float sample_value sample_repr sample_container_repr recipe
              (JStr (txt "https://example.com/r?id=1")) (JStr (txt "Fish & chips"))
              (txt "4")) as [[url|]|] eqn:Hlink;
    [|by vm_compute in Hlink..].
  destruct (share_mailto_quoted sample_float sample_value sample_repr
              sample_container_repr recipe (JStr (txt "https://example.com/r?id=1"))
              (JStr (txt "Fish & chips")) url Hlink)
    as (subject & body & Hurl & _ & _ & Hnone).
  exists url, subject, body. split; [done|]. split; [|by split].
  vm_compute in Hlink. by injection Hlink as <-.
Defined.

Lemma share_recipe_no_link_witness :
  share_recipe sample_float sample_value sample_repr sample_container_repr
    (JObj [(txt "title", JStr (txt "Soup")); (txt "sourceUrl", JNull)])
    [txt "1"; txt "4"; txt "0"]
  = Ok [].
Proof.
  apply (share_recipe_no_link sample_float sample_value sample_repr
           sample_container_repr
           [(txt "title", JStr (txt "Soup")); (txt "sourceUrl", JNull)]
           (JStr (txt "Soup"))); [done|by left|by right; right].
Defined.

Abbreviation sample_format_ingredient_amount :=
  (format_ingredient_amount sample_float sample_value
     (fun s : text => Raise ValueError : result text)).

Lemma format_ingredient_amount_whole_witness :
  sample_format_ingredient_amount (JInt 3) = Ok (txt "3").
Proof.
  apply (proj1 (proj2 (format_ingredient_amount_whole sample_float sample_value
                         (fun s : text => Raise ValueError))) 3).
  by vm_compute.
Defined.

Lemma format_ingredient_amount_fraction_witness :
  exists n d : Z,
    sample_format_ingredient_amount (JFloat (Finite Half)) =
      Ok (if d =? 1 then int_text n else int_text n ++ txt "/" ++ int_text d) /\
    1 <= d <= 1000000 /\
    sample_format_ingredient_amount (JFloat (Finite Half)) = Ok (txt "1/2").
Proof.
  destruct (format_ingredient_amount_fraction sample_float sample_value
              (fun s : text => Raise ValueError) Half)
    as (n & d & Htext & Hd & _).
  - intros z. unfold Qeq. cbn. lia.
  - exists n, d. split; [exact Htext|]. split; [exact Hd|]. by vm_compute.
Defined.

Lemma favorites_file_ascii_witness :
  exists content : text,
    save_favorites sample_float sample_repr sample_favorites_file
      (JArr [sample_recipe 1 45]) ∅ !! sample_favorites_file = Some (Text content) /\
    Forall (fun c => c = 10%N \/ (32 <= c <= 126)%N) content.
Proof.
  apply (favorites_file_ascii sample_float sample_repr sample_favorites_file).
  intros x. by destruct x.
Defined.
